(** * CFILE: a columnar container, its writer and its reader

    A shallow embedding of [src/writer.py] and [src/reader.py].

    Conventions of the embedding:
    - a Python [bytes] object is a [list byte];
    - a Python [str] is a Rocq [string] holding the UTF-8 encoding of the
      text, so [str.encode("utf-8")] is the list of its bytes and
      [bytes.decode("utf-8")] is a validity check followed by the reverse
      conversion;
    - a Python [int] is a [Z]; a Python [float] is the 64-bit pattern of its
      IEEE-754 binary64 representation, as a [Z];
    - a raised exception is the [Err] branch of [result]; the message of a
      [ValueError] or [KeyError] is its fixed text, without the name or the
      value the source appends to it;
    - a file opened for reading is the list of the bytes that remain to be
      read; a file on disk is the list of its bytes; the offsets and sizes
      a platform refuses to serve form the interface [Platform], used where
      a property depends on them;
    - the collaborators the repository only calls ([zlib], [json], the
      builtins [int] and [float]) form the interface [PyLib]; a reference
      implementation of it is given so that every definition can be run. *)

From Stdlib Require Import ZArith Lia List Ascii String SpecFloat.
From Stdlib.Strings Require Import Byte.
From stdpp Require Import base option list gmap strings.

Local Open Scope Z_scope.

(** ** Exceptions and the error monad *)

Inductive exn : Type :=
| ValueError (msg : string)
| KeyError (msg : string)
| IndexError
| StructError
| OverflowError
| UnicodeDecodeError
| ZlibError
| JSONDecodeError
| StopIteration
| AttributeError
| FileArgOverflow
| OSError
| MemoryError.

Inductive result (A : Type) : Type :=
| Ok (a : A)
| Err (e : exn).
Arguments Ok {A} a.
Arguments Err {A} e.

Definition bind {A B : Type} (m : result A) (k : A -> result B) : result B :=
  match m with
  | Ok a => k a
  | Err e => Err e
  end.

Notation "x <- m ;; k" := (bind m (fun x => k))
  (at level 100, m at next level, right associativity, only parsing).

(** [for x in xs: ys.append(f(x))], stopping at the first exception. *)
Fixpoint mapM {A B : Type} (f : A -> result B) (xs : list A) : result (list B) :=
  match xs with
  | [] => Ok []
  | x :: xs' => y <- f x ;; ys <- mapM f xs' ;; Ok (y :: ys)
  end.

(** [xs[i]] on a Python list. *)
Definition index {A : Type} (xs : list A) (i : nat) : result A :=
  match xs !! i with
  | Some x => Ok x
  | None => Err IndexError
  end.

Definition is_ok {A : Type} (r : result A) : bool :=
  match r with Ok _ => true | Err _ => false end.

(** ** Bytes and [struct] *)

Definition bytes := list byte.

Definition Z_of_byte (b : byte) : Z := Z.of_N (Byte.to_N b).

Definition byte_of_Z (z : Z) : byte :=
  match Byte.of_N (Z.to_N (z mod 256)) with
  | Some b => b
  | None => x00
  end.

(** Little-endian encoding of [v] on [n] bytes, and its inverse. *)
Fixpoint le_bytes (n : nat) (v : Z) : bytes :=
  match n with
  | O => []
  | S k => byte_of_Z v :: le_bytes k (v / 256)
  end.

Fixpoint le_value (bs : bytes) : Z :=
  match bs with
  | [] => 0
  | b :: r => Z_of_byte b + 256 * le_value r
  end.

(** [struct.pack] of one unsigned field of [n] bytes: [struct.error] when the
    value does not fit. *)
Definition pack_unsigned (n : nat) (v : Z) : result bytes :=
  if (0 <=? v) && (v <? 256 ^ Z.of_nat n) then Ok (le_bytes n v) else Err StructError.

Definition pack_u8 := pack_unsigned 1.
Definition pack_u16 := pack_unsigned 2.
Definition pack_u32 := pack_unsigned 4.
Definition pack_u64 := pack_unsigned 8.

(** [struct.pack("<i", v)]: two's complement on four bytes. *)
Definition pack_i32 (v : Z) : result bytes :=
  if (- 2 ^ 31 <=? v) && (v <? 2 ^ 31) then Ok (le_bytes 4 (v mod 2 ^ 32)) else Err StructError.

(** [struct.pack("<d", f)]: a float is its bit pattern already. *)
Definition pack_d (f : Z) : bytes := le_bytes 8 (f mod 2 ^ 64).

(** [struct.unpack(fmt, data)[0]] for one unsigned field of [n] bytes: the
    buffer must have exactly the size of the format. *)
Definition unpack_unsigned (n : nat) (data : bytes) : result Z :=
  if Nat.eqb (length data) n then Ok (le_value data) else Err StructError.

(** [struct.unpack_from(fmt, data, off)[0]] for one unsigned field: the buffer
    must hold [n] bytes from [off] on. *)
Definition unpack_from_unsigned (n : nat) (data : bytes) (off : nat) : result Z :=
  let field := take n (drop off data) in
  if Nat.eqb (length field) n then Ok (le_value field) else Err StructError.

Definition signed32 (v : Z) : Z := if v <? 2 ^ 31 then v else v - 2 ^ 32.

(** [data[a:b]] for non-negative [a] and [b]. *)
Definition slice {A : Type} (xs : list A) (a b : nat) : list A :=
  take (b - a) (drop a xs).

(** ** Floats as bit patterns *)

(** [int(f)]: truncation toward zero; [OverflowError] on an infinity and
    [ValueError] on a NaN. *)
Definition float_trunc (f : Z) : result Z :=
  let e := Z.land (Z.shiftr f 52) 2047 in
  let m := Z.land f (2 ^ 52 - 1) in
  if e =? 2047 then
    if m =? 0 then Err OverflowError
    else Err (ValueError "cannot convert float NaN to integer")
  else
    let mag := if e =? 0 then 0 else Z.shiftl (2 ^ 52 + m) (e - 1075) in
    Ok (if Z.testbit f 63 then - mag else mag).

(** ** Text *)

Definition str_encode (s : string) : bytes := list_byte_of_string s.

Definition is_cont (b : byte) : bool :=
  (128 <=? Z_of_byte b) && (Z_of_byte b <=? 191).

Definition in_range (lo hi : Z) (b : byte) : bool :=
  (lo <=? Z_of_byte b) && (Z_of_byte b <=? hi).

(** The code points of a UTF-8 byte sequence; [None] when the sequence is not
    valid UTF-8 (overlong forms, surrogates and values above U+10FFFF are
    rejected, as Python does). *)
Fixpoint utf8_code_points (bs : bytes) : option (list Z) :=
  match bs with
  | [] => Some []
  | b0 :: r0 =>
    let v0 := Z_of_byte b0 in
    if v0 <? 128 then cons v0 <$> utf8_code_points r0
    else match r0 with
    | [] => None
    | b1 :: r1 =>
      let v1 := Z_of_byte b1 in
      if in_range 194 223 b0 then
        if is_cont b1
        then cons ((v0 - 192) * 64 + (v1 - 128)) <$> utf8_code_points r1
        else None
      else match r1 with
      | [] => None
      | b2 :: r2 =>
        let v2 := Z_of_byte b2 in
        if in_range 224 239 b0 then
          if (if v0 =? 224 then in_range 160 191 b1
              else if v0 =? 237 then in_range 128 159 b1
              else is_cont b1) && is_cont b2
          then cons ((v0 - 224) * 4096 + (v1 - 128) * 64 + (v2 - 128))
                 <$> utf8_code_points r2
          else None
        else match r2 with
        | [] => None
        | b3 :: r3 =>
          let v3 := Z_of_byte b3 in
          if in_range 240 244 b0 then
            if (if v0 =? 240 then in_range 144 191 b1
                else if v0 =? 244 then in_range 128 143 b1
                else is_cont b1) && is_cont b2 && is_cont b3
            then cons ((v0 - 240) * 262144 + (v1 - 128) * 4096
                       + (v2 - 128) * 64 + (v3 - 128))
                   <$> utf8_code_points r3
            else None
          else None
        end
      end
    end
  end.

Definition valid_utf8 (bs : bytes) : bool :=
  match utf8_code_points bs with Some _ => true | None => false end.

(** [b.decode("utf-8")] *)
Definition bytes_decode (bs : bytes) : result string :=
  if valid_utf8 bs then Ok (string_of_list_byte bs) else Err UnicodeDecodeError.

(** A [string] that really is a Python [str]. *)
Definition is_text (s : string) : Prop := valid_utf8 (str_encode s) = true.

(** ** File handles

    A file open for reading is the list of the bytes after the current
    position.  [fh.read(n)] returns at most [n] bytes and never fails on a
    short file; the file object refuses a size or an offset that does not fit
    a signed 64-bit integer.  [fh_read] and [fh_open_seek] are the file
    object of a platform without limits of its own; [fh_read_on] and
    [fh_open_seek_on] below add the limits of a platform. *)

Definition io (A : Type) : Type := bytes -> result (A * bytes).

Definition io_ret {A : Type} (a : A) : io A := fun fh => Ok (a, fh).

Definition io_bind {A B : Type} (m : io A) (k : A -> io B) : io B :=
  fun fh =>
    match m fh with
    | Ok (a, fh') => k a fh'
    | Err e => Err e
    end.

Definition io_lift {A : Type} (r : result A) : io A :=
  fun fh => match r with Ok a => Ok (a, fh) | Err e => Err e end.

Definition io_raise {A : Type} (e : exn) : io A := fun _ => Err e.

Notation "x <~ m ;; k" := (io_bind m (fun x => k))
  (at level 100, m at next level, right associativity, only parsing).

Definition fh_read (n : Z) : io bytes :=
  fun fh =>
    if 2 ^ 63 <=? n then Err FileArgOverflow
    else Ok (take (Z.to_nat n) fh, drop (Z.to_nat n) fh).

(** [open(path, "rb")] followed by [fh.seek(off)]: seeking past the end is
    allowed and leaves nothing to read. *)
Definition fh_open_seek (file : bytes) (off : Z) : result bytes :=
  if 2 ^ 63 <=? off then Err FileArgOverflow else Ok (drop (Z.to_nat off) file).

(** The limits of a platform.  Whatever the file holds, [fh.seek] raises (an
    [OSError]) for an offset the file system does not address, and [fh.read]
    raises (a [MemoryError] or an [OverflowError]) for a size the process
    cannot allocate.  A platform is given by the exception, if any, with
    which it refuses an offset and a size. *)
Class Platform : Type := {
  seek_refuses : Z -> option exn;
  read_refuses : Z -> option exn }.

(** [fh.read(n)] on a platform. *)
Definition fh_read_on `{Platform} (n : Z) : io bytes :=
  fun fh =>
    if 2 ^ 63 <=? n then Err FileArgOverflow
    else match read_refuses n with
         | Some e => Err e
         | None => Ok (take (Z.to_nat n) fh, drop (Z.to_nat n) fh)
         end.

(** [open(path, "rb")] followed by [fh.seek(off)] on a platform. *)
Definition fh_open_seek_on `{Platform} (file : bytes) (off : Z) : result bytes :=
  if 2 ^ 63 <=? off then Err FileArgOverflow
  else match seek_refuses off with
       | Some e => Err e
       | None => Ok (drop (Z.to_nat off) file)
       end.

Fixpoint bytes_eqb (xs ys : bytes) : bool :=
  match xs, ys with
  | [], [] => true
  | x :: xs', y :: ys' => Byte.eqb x y && bytes_eqb xs' ys'
  | _, _ => false
  end.

Definition len {A : Type} (xs : list A) : Z := Z.of_nat (length xs).

(** ** The format's constants and records *)

Definition MAGIC : bytes := list_byte_of_string "CFILEv01".
Definition VERSION : Z := 1.
Definition ENDIANNESS : Z := 0.
Definition RESERVED : Z := 0.

Definition DT_INT32 : Z := 0.
Definition DT_FLOAT64 : Z := 1.
Definition DT_STRING : Z := 2.

(** One entry of a schema: the dict [{"name": ..., "type": ...}]. *)
Record col_meta : Type := { cm_name : string; cm_type : string }.

(** A decoded value: a Python [int], [float] or [str]. *)
Inductive value : Type :=
| VInt (z : Z)
| VFloat (bits : Z)
| VStr (s : string).

(** A value [json.loads] returns; an object keeps its members in the order
    of the text, and a number its literal. *)
Local Unset Elimination Schemes.
Inductive json : Type :=
| JNull
| JBool (b : bool)
| JNum (literal : string)
| JStr (s : string)
| JArr (items : list json)
| JObj (members : list (string * json)).
Local Set Elimination Schemes.

(** [d.get(key, dflt)] on the dict of a JSON object: the last member of that
    name wins. *)
Fixpoint json_get (key : string) (dflt : json) (members : list (string * json)) : json :=
  match members with
  | [] => dflt
  | (k, v) :: r => json_get key (if String.eqb k key then v else dflt) r
  end.

(** ** The collaborators

    [float_of_str] and [int_of_str] are the builtins [float] and [int] on a
    [str] ([None] when they raise [ValueError]); [zlib_compress] and
    [zlib_decompress] are [zlib.compress] and [zlib.decompress];
    [json_dumps] is [json.dumps({"columns": schema}, separators=(",", ":"))]
    and [json_loads] is [json.loads]. *)
Class PyLib : Type := {
  float_of_str : string -> option Z;
  int_of_str : string -> option Z;
  zlib_compress : bytes -> bytes;
  zlib_decompress : bytes -> result bytes;
  json_dumps : list col_meta -> string;
  json_loads : string -> result json
}.

(** The contracts the repository relies on. *)
Definition zlib_lossless `{PyLib} : Prop :=
  forall b : bytes, zlib_decompress (zlib_compress b) = Ok b.

Definition json_lossless `{PyLib} : Prop :=
  forall schema : list col_meta,
    is_text (json_dumps schema) /\
    exists members, json_loads (json_dumps schema) = Ok (JObj members).

(** ** The writer, [src/writer.py] *)

Module Writer.
Section Writer.
Context `{PyLib}.

Definition pad_magic (magic_bytes : bytes) : bytes :=
  take 8 (magic_bytes ++ replicate (8 - length magic_bytes) x00).

Definition infer_type (value : string) : Z :=
  if String.eqb value EmptyString then DT_STRING
  else match int_of_str value with
       | Some _ => DT_INT32
       | None =>
         match float_of_str value with
         | Some _ => DT_FLOAT64
         | None => DT_STRING
         end
       end.

Definition typename (dtype : Z) : string :=
  if dtype =? 0 then "INT32" else if dtype =? 1 then "FLOAT64" else "STRING".

(** The source of a CSV file is the list of the rows [csv.reader] yields. *)
Definition infer_schema_from_csv (rdr : list (list string)) : result (list col_meta) :=
  match rdr with
  | [] => Err StopIteration
  | header :: rest =>
    match rest with
    | [] => Ok (map (fun n => {| cm_name := n; cm_type := "STRING" |}) header)
    | sample_row :: _ =>
      Ok (zip_with (fun name sample =>
                      {| cm_name := name; cm_type := typename (infer_type sample) |})
                   header sample_row)
    end
  end.

Fixpoint enumerate_from {A : Type} (i : nat) (xs : list A) : list (nat * A) :=
  match xs with
  | [] => []
  | x :: r => (i, x) :: enumerate_from (S i) r
  end.

Definition enumerate {A : Type} (xs : list A) : list (nat * A) := enumerate_from 0 xs.

(** One iteration of [for row in rdr] in [read_csv_columns]. *)
Definition append_row (width : nat) (cols : list (list string)) (row : list string)
  : list (list string) :=
  let row := row ++ replicate (width - length row) EmptyString in
  foldl (fun cols iv => alter (fun c => c ++ [snd iv]) (fst iv) cols)
        cols (enumerate (take width row)).

Definition read_csv_columns (rdr : list (list string))
  : result (list string * list (list string)) :=
  match rdr with
  | [] => Err StopIteration
  | header :: rows =>
    Ok (header, foldl (append_row (length header)) (replicate (length header) []) rows)
  end.

Definition encode_int32 (v : string) : result bytes :=
  ival <- (if String.eqb v EmptyString then Ok 0
           else match float_of_str v with
                | Some f => float_trunc f
                | None => Err (ValueError "could not convert string to float")
                end) ;;
  pack_i32 ival.

Definition encode_float64 (v : string) : result bytes :=
  fval <- (if String.eqb v EmptyString then Ok 0
           else match float_of_str v with
                | Some f => Ok f
                | None => Err (ValueError "could not convert string to float")
                end) ;;
  Ok (pack_d fval).

(** The first loop of the STRING branch: the offsets and the payload. *)
Fixpoint string_offsets (cur : Z) (values : list string) : list Z * bytes :=
  match values with
  | [] => ([cur], [])
  | v :: r =>
    let b := str_encode v in
    let (offsets, string_bytes) := string_offsets (cur + len b) r in
    (cur :: offsets, b ++ string_bytes)
  end.

Definition build_uncompressed_block (col_type : string) (values : list string)
  : result bytes :=
  if String.eqb col_type "INT32" then
    ba <- mapM encode_int32 values ;; Ok (concat ba)
  else if String.eqb col_type "FLOAT64" then
    ba <- mapM encode_float64 values ;; Ok (concat ba)
  else if String.eqb col_type "STRING" then
    let (offsets, string_bytes) := string_offsets 0 values in
    off_b <- mapM pack_u32 offsets ;;
    Ok (concat off_b ++ string_bytes)
  else Err (ValueError "Unknown type").

(** [{"INT32":0,"FLOAT64":1,"STRING":2}[t]] *)
Definition dtype_of_typename (t : string) : result Z :=
  if String.eqb t "INT32" then Ok 0
  else if String.eqb t "FLOAT64" then Ok 1
  else if String.eqb t "STRING" then Ok 2
  else Err (KeyError t).

(** The part of the header before the directory. *)
Definition header_fixed (schema_len : Z) (schema_json : bytes) (num_rows num_columns : Z)
  : result bytes :=
  v <- pack_u8 VERSION ;;
  e <- pack_u8 ENDIANNESS ;;
  r <- pack_u16 RESERVED ;;
  sl <- pack_u32 schema_len ;;
  nr <- pack_u64 num_rows ;;
  nc <- pack_u32 num_columns ;;
  Ok (pad_magic MAGIC ++ v ++ e ++ r ++ sl ++ schema_json ++ nr ++ nc).

(** One directory entry; [off], [csize] and [usize] are the three expressions
    the source packs, evaluated in that order. *)
Definition directory_entry (off csize usize : result Z) (num_rows : Z) (cm : col_meta)
  : result bytes :=
  let name_b := str_encode (cm_name cm) in
  nl <- pack_u16 (len name_b) ;;
  dtype <- dtype_of_typename (cm_type cm) ;;
  d <- pack_u8 dtype ;;
  o <- (x <- off ;; pack_u64 x) ;;
  c <- (x <- csize ;; pack_u64 x) ;;
  u <- (x <- usize ;; pack_u64 x) ;;
  n <- pack_u64 num_rows ;;
  Ok (nl ++ name_b ++ d ++ o ++ c ++ u ++ n).

(** [for i, col_meta in enumerate(schema)], from index [i] on. *)
Fixpoint directory (off csize usize : nat -> result Z) (num_rows : Z)
         (i : nat) (schema : list col_meta) : result bytes :=
  match schema with
  | [] => Ok []
  | cm :: rest =>
    e <- directory_entry (off i) (csize i) (usize i) num_rows cm ;;
    r <- directory off csize usize num_rows (S i) rest ;;
    Ok (e ++ r)
  end.

Definition align_up (cur : Z) : Z :=
  if negb (cur mod 8 =? 0) then cur + (8 - cur mod 8) else cur.

(** The loop that assigns [offsets]. *)
Fixpoint plan_offsets (cur : Z) (col_compressed : list bytes) : list Z :=
  match col_compressed with
  | [] => []
  | comp :: r => cur :: plan_offsets (align_up (cur + len comp)) r
  end.

(** The loop that writes the blocks; [pos] is [fh.tell()] before the write. *)
Fixpoint write_blocks (pos : Z) (col_compressed : list bytes) : bytes :=
  match col_compressed with
  | [] => []
  | comp :: r =>
    let curpos := pos + len comp in
    let padb := (8 - curpos mod 8) mod 8 in
    comp ++ replicate (Z.to_nat padb) x00 ++ write_blocks (curpos + padb) r
  end.

Definition encode_column (cv : col_meta * list string) : result (bytes * bytes) :=
  ub <- build_uncompressed_block (cm_type (fst cv)) (snd cv) ;;
  Ok (ub, zlib_compress ub).

(** [write_cfile]: the bytes written to [out_path].  [header_names] is not used
    by the source and is left out. *)
Definition write_cfile (schema : list col_meta) (columns : list (list string))
  : result bytes :=
  col0 <- index columns 0 ;;
  let num_rows := len col0 in
  let num_columns := len schema in
  let schema_json := str_encode (json_dumps schema) in
  let schema_len := len schema_json in
  blocks <- mapM encode_column (zip schema columns) ;;
  let col_uncompressed := map fst blocks in
  let col_compressed := map snd blocks in
  fixed <- header_fixed schema_len schema_json num_rows num_columns ;;
  dir0 <- directory (fun _ => Ok 0) (fun _ => Ok 0) (fun _ => Ok 0) num_rows 0 schema ;;
  let header_len := len (fixed ++ dir0) in
  let pad := (8 - header_len mod 8) mod 8 in
  let start_blocks := header_len + pad in
  let offsets := plan_offsets start_blocks col_compressed in
  dir <- directory (fun i => index offsets i)
                   (fun i => comp <- index col_compressed i ;; Ok (len comp))
                   (fun i => ub <- index col_uncompressed i ;; Ok (len ub))
                   num_rows 0 schema ;;
  let h := fixed ++ dir in
  Ok (h ++ replicate (Z.to_nat pad) x00
        ++ write_blocks (len h + pad) col_compressed).

(** [main], which is also [main] of [src/cli_csv_to_custom.py]: the three
    calls that turn a CSV source into the bytes of the output file.  The two
    functions that read the source open the same file, so both see the rows
    [rdr].  The command line, the check that the input exists and the
    printed message are left out. *)
Definition main (rdr : list (list string)) : result bytes :=
  schema <- infer_schema_from_csv rdr ;;
  hc <- read_csv_columns rdr ;;
  let '(header_names, columns) := hc in
  write_cfile schema columns.

End Writer.
End Writer.

(** ** The reader, [src/reader.py] *)

Module Reader.
Section Reader.
Context `{PyLib}.

(** [struct.unpack_from(fmt, b, offset)[0]] for one unsigned field of [n]
    bytes, at an offset of either sign: the offset must fit a [Py_ssize_t], a
    negative one counts from the end of the buffer, and the buffer must hold
    the field from the offset on. *)
Definition unpack_from_at (n : nat) (b : bytes) (offset : Z) : result Z :=
  if (offset <? - 2 ^ 63) || (2 ^ 63 <=? offset) then Err OverflowError else
  let off := if offset <? 0 then offset + len b else offset in
  if off <? 0 then Err StructError
  else unpack_from_unsigned n b (Z.to_nat off).

Definition read_u8 (b : bytes) (offset : Z) : result (Z * Z) :=
  v <- unpack_from_at 1 b offset ;; Ok (v, offset + 1).
Definition read_u16 (b : bytes) (offset : Z) : result (Z * Z) :=
  v <- unpack_from_at 2 b offset ;; Ok (v, offset + 2).
Definition read_u32 (b : bytes) (offset : Z) : result (Z * Z) :=
  v <- unpack_from_at 4 b offset ;; Ok (v, offset + 4).
Definition read_u64 (b : bytes) (offset : Z) : result (Z * Z) :=
  v <- unpack_from_at 8 b offset ;; Ok (v, offset + 8).

Record ColumnMeta : Type := {
  name : string;
  dtype : Z;
  block_offset : Z;
  compressed_size : Z;
  uncompressed_size : Z;
  num_values : Z
}.

(** The state of a [CFileReader] object; [path] stands for the contents of the
    file the path names. *)
Record CFileReader : Type := {
  path : bytes;
  schema : json;
  num_rows : Z;
  num_columns : Z;
  columns : list ColumnMeta
}.

(** [magic.rstrip(b"\x00")] *)
Fixpoint lstrip0 (bs : bytes) : bytes :=
  match bs with
  | [] => []
  | b :: r => if Byte.eqb b x00 then lstrip0 r else bs
  end.

Definition rstrip0 (bs : bytes) : bytes := rev (lstrip0 (rev bs)).

(** One iteration of the directory loop of [_parse_header]. *)
Definition parse_dir_entry : io ColumnMeta :=
  nl_bytes <~ fh_read 2 ;;
  if len nl_bytes <? 2 then io_raise (ValueError "truncated dir") else
  name_len <~ io_lift (unpack_unsigned 2 nl_bytes) ;;
  name_b <~ fh_read name_len ;;
  name <~ io_lift (bytes_decode name_b) ;;
  dtype_b <~ fh_read 1 ;;
  dtype <~ io_lift (unpack_unsigned 1 dtype_b) ;;
  bo <~ fh_read 8 ;;
  block_offset <~ io_lift (unpack_unsigned 8 bo) ;;
  cs <~ fh_read 8 ;;
  compressed_size <~ io_lift (unpack_unsigned 8 cs) ;;
  us <~ fh_read 8 ;;
  uncompressed_size <~ io_lift (unpack_unsigned 8 us) ;;
  nv <~ fh_read 8 ;;
  num_values <~ io_lift (unpack_unsigned 8 nv) ;;
  io_ret {| name := name; dtype := dtype; block_offset := block_offset;
            compressed_size := compressed_size;
            uncompressed_size := uncompressed_size; num_values := num_values |}.

(** [for _ in range(n)] of the directory loop. *)
Fixpoint parse_directory (n : nat) : io (list ColumnMeta) :=
  match n with
  | O => io_ret []
  | S k =>
    c <~ parse_dir_entry ;;
    cs <~ parse_directory k ;;
    io_ret (c :: cs)
  end.

(** The statements of [_parse_header] under [with open(self.path, "rb") as
    fh], as a program on the handle that returns the values assigned to
    [self.schema], [self.num_rows], [self.num_columns] and [self.columns]. *)
Definition header_fields : io (json * Z * Z * list ColumnMeta) :=
  prefix <~ fh_read 12 ;;
  if len prefix <? 12 then io_raise (ValueError "file too small") else
  let magic := slice prefix 0 8 in
  if negb (bytes_eqb (rstrip0 magic) (list_byte_of_string "CFILEv01"))
  then io_raise (ValueError "bad magic") else
  version <~ io_lift (b <- index prefix 8 ;; Ok (Z_of_byte b)) ;;
  endianness <~ io_lift (b <- index prefix 9 ;; Ok (Z_of_byte b)) ;;
  if negb (version =? 1) then io_raise (ValueError "unsupported version") else
  if negb (endianness =? 0) then io_raise (ValueError "unsupported endianness") else
  rest <~ fh_read 4 ;;
  if len rest <? 4 then io_raise (ValueError "truncated schema length") else
  schema_len <~ io_lift (unpack_unsigned 4 rest) ;;
  schema_json <~ fh_read schema_len ;;
  if len schema_json <? schema_len then io_raise (ValueError "truncated schema json") else
  text <~ io_lift (bytes_decode schema_json) ;;
  schema_obj <~ io_lift (json_loads text) ;;
  schema <~ io_lift (match schema_obj with
                     | JObj members => Ok (json_get "columns" (JArr []) members)
                     | _ => Err AttributeError
                     end) ;;
  gm <~ fh_read 12 ;;
  if len gm <? 12 then io_raise (ValueError "truncated global metadata") else
  num_rows <~ io_lift (unpack_unsigned 8 (slice gm 0 8)) ;;
  num_columns <~ io_lift (unpack_unsigned 4 (slice gm 8 12)) ;;
  columns <~ parse_directory (Z.to_nat num_columns) ;;
  io_ret (schema, num_rows, num_columns, columns).

Definition _parse_header (self : CFileReader) : result CFileReader :=
  r <- header_fields (path self) ;;
  let '(schema, num_rows, num_columns, columns) := fst r in
  Ok {| path := path self; schema := schema; num_rows := num_rows;
        num_columns := num_columns; columns := columns |}.

(** [CFileReader(path)]: [__init__] sets the attributes and parses the
    header. *)
Definition CFileReader_init (file : bytes) : result CFileReader :=
  _parse_header {| path := file; schema := JArr []; num_rows := 0;
                   num_columns := 0; columns := [] |}.

(** [_read_column_uncompressed] where the platform serves every offset and
    size that fits the file interface; [_read_column_uncompressed_on] below
    is the same function on a platform with limits. *)
Definition _read_column_uncompressed (self : CFileReader) (col : ColumnMeta)
  : result bytes :=
  fh <- fh_open_seek (path self) (block_offset col) ;;
  r <- fh_read (compressed_size col) fh ;;
  let comp := fst r in
  if negb (len comp =? compressed_size col)
  then Err (ValueError "failed to read full compressed block") else
  uncompressed <- zlib_decompress comp ;;
  if negb (len uncompressed =? uncompressed_size col)
  then Err (ValueError "uncompressed size mismatch") else
  Ok uncompressed.

(** [[f(i) for i in range(n)]] *)
Definition for_range {A : Type} (n : Z) (f : nat -> result A) : result (list A) :=
  mapM f (seq 0 (Z.to_nat n)).

(** The part of [read_column] that parses [data] according to the dtype. *)
Definition decode_values (meta : ColumnMeta) (data : bytes) : result (list value) :=
  if dtype meta =? DT_INT32 then
    for_range (num_values meta) (fun i =>
      v <- unpack_from_unsigned 4 data (i * 4) ;; Ok (VInt (signed32 v)))
  else if dtype meta =? DT_FLOAT64 then
    for_range (num_values meta) (fun i =>
      v <- unpack_from_unsigned 8 data (i * 8) ;; Ok (VFloat v))
  else if dtype meta =? DT_STRING then
    offs <- for_range (num_values meta + 1) (fun i =>
              unpack_from_unsigned 4 data (i * 4)) ;;
    let base := 4 * (num_values meta + 1) in
    let sblob := drop (Z.to_nat base) data in
    for_range (num_values meta) (fun i =>
      a <- index offs i ;;
      b <- index offs (i + 1) ;;
      s <- bytes_decode (slice sblob (Z.to_nat a) (Z.to_nat b)) ;;
      Ok (VStr s))
  else Err (ValueError "unknown dtype").

Definition read_column (self : CFileReader) (name' : string) : result (list value) :=
  match find (fun c => String.eqb (name c) name') (columns self) with
  | None => Err (KeyError "no such column")
  | Some meta =>
    data <- _read_column_uncompressed self meta ;;
    decode_values meta data
  end.

(** [read_columns]: the dict it returns, as a finite map from the names to
    their values. *)
Definition read_columns (self : CFileReader) (names : list string)
  : result (gmap string (list value)) :=
  foldl (fun acc n => result <- acc ;; vals <- read_column self n ;;
                      Ok (<[n := vals]> result))
        (Ok ∅) names.

(** The inner loop of [read_all]: one row. *)
Fixpoint fill_row (row : gmap string value) (cols : list (string * list value)) (i : nat)
  : result (gmap string value) :=
  match cols with
  | [] => Ok row
  | (cname, cvals) :: r =>
    v <- index cvals i ;;
    fill_row (<[cname := v]> row) r i
  end.

Definition read_all (self : CFileReader) : result (list (gmap string value)) :=
  let col_names := map name (columns self) in
  col_data <- mapM (read_column self) col_names ;;
  for_range (num_rows self) (fun i => fill_row ∅ (zip col_names col_data) i).

End Reader.

(** The two functions that read a block, on a platform with limits. *)
Section OnPlatform.
Context `{PyLib} `{Platform}.

Definition _read_column_uncompressed_on (self : CFileReader) (col : ColumnMeta)
  : result bytes :=
  fh <- fh_open_seek_on (path self) (block_offset col) ;;
  r <- fh_read_on (compressed_size col) fh ;;
  let comp := fst r in
  if negb (len comp =? compressed_size col)
  then Err (ValueError "failed to read full compressed block") else
  uncompressed <- zlib_decompress comp ;;
  if negb (len uncompressed =? uncompressed_size col)
  then Err (ValueError "uncompressed size mismatch") else
  Ok uncompressed.

Definition read_column_on (self : CFileReader) (name' : string) : result (list value) :=
  match find (fun c => String.eqb (name c) name') (columns self) with
  | None => Err (KeyError "no such column")
  | Some meta =>
    data <- _read_column_uncompressed_on self meta ;;
    decode_values meta data
  end.

End OnPlatform.
End Reader.

(** ** The export to CSV, [src/cli_custom_to_csv.py] *)

(** [str] on a [float], the one builtin the export calls besides those of
    [PyLib]. *)
Class PyRepr : Type := { float_repr : Z -> string }.

Module CustomToCsv.
Section CustomToCsv.
Context `{PyLib} `{PyRepr}.

(** The double quote and the comma. *)
Definition dquote : ascii := "034"%char.
Definition comma : ascii := ","%char.

(** [c in s] for a one-character [c]. *)
Fixpoint contains (c : ascii) (s : string) : bool :=
  match s with
  | EmptyString => false
  | String a r => Ascii.eqb a c || contains c r
  end.

(** [s.replace(q, q + q)] for the double quote [q]. *)
Fixpoint double_quotes (s : string) : string :=
  match s with
  | EmptyString => EmptyString
  | String a r =>
    if Ascii.eqb a dquote then String dquote (String dquote (double_quotes r))
    else String a (double_quotes r)
  end.

(** The decimal digits of a non-negative integer, most significant first. *)
Fixpoint digits (fuel : nat) (n : Z) (acc : string) : string :=
  let acc' := String (ascii_of_nat (48 + Z.to_nat (n mod 10))) acc in
  match fuel with
  | O => acc'
  | S fuel' => if n / 10 =? 0 then acc' else digits fuel' (n / 10) acc'
  end.

(** [str] on an [int]. *)
Definition int_str (z : Z) : string :=
  if z <? 0 then String "-"%char (digits (Z.to_nat (Z.log2 (- z))) (- z) EmptyString)
  else digits (Z.to_nat (Z.log2 z)) z EmptyString.

(** [str(value)] for the values a reader returns. *)
Definition str (v : value) : string :=
  match v with
  | VInt z => int_str z
  | VFloat f => float_repr f
  | VStr s => s
  end.

(** [csv_escape]: [None] is the Python [None]. *)
Definition csv_escape (value : option value) : string :=
  let quoted_empty := String dquote (String dquote EmptyString) in
  match value with
  | None => quoted_empty
  | Some v =>
    let s := str v in
    if String.eqb s EmptyString then quoted_empty
    else if contains comma s || contains dquote s then
      String dquote (double_quotes s +:+ String dquote EmptyString)
    else s
  end.

(** [sep.join(parts)] *)
Fixpoint join (sep : string) (parts : list string) : string :=
  match parts with
  | [] => EmptyString
  | [p] => p
  | p :: rest => p +:+ sep +:+ join sep rest
  end.

Definition newline : string := String "010"%char EmptyString.

(** [write_csv]: the text written to [path]; the file holds its UTF-8
    encoding, which is the string itself, and the empty [newline] argument
    leaves the line ends alone. *)
Definition write_csv (headers : list string) (rows : list (list value)) : string :=
  join "," headers +:+ newline
    +:+ String.concat EmptyString
          (map (fun row => join "," (map (fun v => csv_escape (Some v)) row) +:+ newline)
               rows).

(** [zip] of the unpacked [lists], as a list: the rows across the lists, as
    many as the shortest list has values, and none when there is no list. *)
Fixpoint zip_star {A : Type} (lists : list (list A)) : list (list A) :=
  match lists with
  | [] => []
  | [l] => map (fun x => [x]) l
  | l :: rest => zip_with cons l (zip_star rest)
  end.

(** [d[k]] on a dict. *)
Definition getitem {V : Type} (d : gmap string V) (k : string) : result V :=
  match d !! k with
  | Some v => Ok v
  | None => Err (KeyError k)
  end.

(** The branch [if args.select:] of [main], from [cols] on: the headers and
    the rows. *)
Definition select_rows (r : Reader.CFileReader) (cols : list string)
  : result (list string * list (list value)) :=
  data <- Reader.read_columns r cols ;;
  let headers := cols in
  lists <- mapM (getitem data) cols ;;
  Ok (headers, zip_star lists).

(** The other branch of [main].  Every [c] of [r.columns] is a [ColumnMeta],
    so the header loop takes its [name]. *)
Definition all_rows (r : Reader.CFileReader)
  : result (list string * list (list value)) :=
  dict_rows <- Reader.read_all r ;;
  let headers := map Reader.name (Reader.columns r) in
  rows <- mapM (fun dr => mapM (getitem dr) headers) dict_rows ;;
  Ok (headers, rows).

(** [main]: the text of the CSV file written for the file [input].
    [select] is the list [cols] that the option [--select] is split into, or
    [None] when the option is absent or empty.  The command line and the
    printed message are left out. *)
Definition main (input : bytes) (select : option (list string)) : result string :=
  r <- Reader.CFileReader_init input ;;
  hr <- match select with
        | Some cols => select_rows r cols
        | None => all_rows r
        end ;;
  let '(headers, rows) := hr in
  Ok (write_csv headers rows).

End CustomToCsv.
End CustomToCsv.

(** ** A reference implementation of the collaborators

    - [int] and [float] on ASCII text: optional surrounding white space, a
      sign, decimal digits with single underscores between digits, a
      fraction, an exponent, and the spellings of infinity and NaN.  Text
      with other characters is rejected (Python also accepts the decimal
      digits and spaces of other scripts).  The decimal value is rounded to
      the nearest binary64, ties to even, with [SpecFloat].
    - [zlib]: the zlib container around stored (uncompressed) deflate blocks.
      [zlib.decompress] inflates every stream the reference compressor emits
      to the same bytes; the reference decompressor rejects the other block
      types.
    - [json]: the compact form of [{"columns": [{"name": .., "type": ..}]}]
      with the escapes of [ensure_ascii]; the reference parser accepts that
      shape only and keeps the tokens of the strings, escapes unexpanded.
    - [str] on a float: the shortest decimal that reads back as the same
      double, in the layout of [repr]. *)

Module Ref.

(** *** Numbers *)

Definition is_space (c : Z) : bool := ((9 <=? c) && (c <=? 13)) || (c =? 32).
Definition is_digit (c : Z) : bool := (48 <=? c) && (c <=? 57).
Definition lower (c : Z) : Z := if (65 <=? c) && (c <=? 90) then c + 32 else c.

Fixpoint lstrip (cs : list Z) : list Z :=
  match cs with
  | [] => []
  | c :: r => if is_space c then lstrip r else cs
  end.

Definition strip (cs : list Z) : list Z := rev (lstrip (rev (lstrip cs))).

Definition chars (s : string) : list Z := map Z_of_byte (list_byte_of_string s).

(** The longest prefix of the form digit (["_"] digit)*, as digit values, and
    what follows it.  The caller checks that the text starts with a digit. *)
Fixpoint digit_run (cs : list Z) : list Z * list Z :=
  match cs with
  | [] => ([], [])
  | c :: r =>
    if is_digit c then
      let (ds, rest) := digit_run r in (c - 48 :: ds, rest)
    else if c =? 95 then
      match r with
      | c' :: _ => if is_digit c' then digit_run r else ([], cs)
      | [] => ([], cs)
      end
    else ([], cs)
  end.

(** [digitpart]: at least one digit. *)
Definition digitpart (cs : list Z) : option (list Z * list Z) :=
  match cs with
  | c :: _ => if is_digit c then Some (digit_run cs) else None
  | [] => None
  end.

Definition digits_value (ds : list Z) : Z := foldl (fun acc d => 10 * acc + d) 0 ds.

(** An optional sign: [true] for minus. *)
Definition sign (cs : list Z) : bool * list Z :=
  match cs with
  | c :: r => if c =? 45 then (true, r) else if c =? 43 then (false, r) else (false, cs)
  | [] => (false, [])
  end.

Definition int_of_str (s : string) : option Z :=
  let (neg, cs) := sign (strip (chars s)) in
  match digitpart cs with
  | Some (ds, []) => Some (if neg then - digits_value ds else digits_value ds)
  | _ => None
  end.

(** The bit pattern of a [spec_float] of binary64: the sign, the biased
    exponent on 11 bits (0 for a subnormal number) and the 52 low bits of the
    mantissa. *)
Definition sign_bit (s : bool) : Z := if s then 2 ^ 63 else 0.

Definition bits_of_spec_float (x : spec_float) : Z :=
  match x with
  | S754_zero s => sign_bit s
  | S754_infinity s => sign_bit s + 2047 * 2 ^ 52
  | S754_nan => 2047 * 2 ^ 52 + 2 ^ 51
  | S754_finite s m e =>
    let biased := if Zpos (digits2_pos m) =? 53 then (e + 1075) mod 2048 else 0 in
    sign_bit s + biased * 2 ^ 52 + Zpos m mod 2 ^ 52
  end.

(** The binary64 nearest to [m * 10 ^ e10]. *)
Definition round_decimal (neg : bool) (m : Z) (e10 : Z) : spec_float :=
  if m =? 0 then S754_zero neg
  else if 0 <=? e10 then
    binary_normalize 53 1024 (cond_Zopp neg (m * 10 ^ e10)) 0 neg
  else
    let '(q, e', l) := SFdiv_core_binary 53 1024 m 0 (10 ^ (- e10)) 0 in
    binary_round_aux 53 1024 neg q e' l.

(** [exponent]: empty, or e/E, an optional sign and a digitpart. *)
Definition exponent (cs : list Z) : option (Z * list Z) :=
  match cs with
  | c :: r =>
    if lower c =? 101 then
      let (neg, r') := sign r in
      match digitpart r' with
      | Some (ds, rest) => Some (if neg then - digits_value ds else digits_value ds, rest)
      | None => None
      end
    else Some (0, cs)
  | [] => Some (0, [])
  end.

(** [floatnumber]: the digits of the integer part and of the fraction, and
    the exponent. *)
Definition floatnumber (cs : list Z) : option (list Z * list Z * Z) :=
  let '(ip, r) := match digitpart cs with
                  | Some (ds, r) => (Some ds, r)
                  | None => (None, cs)
                  end in
  let no_fraction := match ip with Some _ => Some [] | None => None end in
  let '(fp, r) := match r with
                  | c :: r' =>
                    if c =? 46 then
                      match digitpart r' with
                      | Some (ds, r'') => (Some ds, r'')
                      | None => (no_fraction, r')
                      end
                    else (no_fraction, r)
                  | [] => (no_fraction, r)
                  end in
  match fp with
  | None => None
  | Some fd =>
    match exponent r with
    | Some (x, []) => Some (default [] ip, fd, x)
    | _ => None
    end
  end.

Definition float_of_str (s : string) : option Z :=
  let (neg, cs) := sign (strip (chars s)) in
  let word := map lower cs in
  if bool_decide (word = chars "inf") || bool_decide (word = chars "infinity")
  then Some (bits_of_spec_float (S754_infinity neg))
  else if bool_decide (word = chars "nan")
  then Some (sign_bit neg + bits_of_spec_float S754_nan)
  else match floatnumber cs with
       | Some (ip, fd, x) =>
         Some (bits_of_spec_float
                 (round_decimal neg (digits_value (ip ++ fd)) (x - len fd)))
       | None => None
       end.

(** *** zlib with stored blocks *)

Definition adler32 (data : bytes) : Z :=
  let '(a, b) := foldl (fun '(a, b) x =>
                          let a' := (a + Z_of_byte x) mod 65521 in
                          (a', (b + a') mod 65521))
                       (1, 0) data in
  b * 65536 + a.

Definition be_bytes (n : nat) (v : Z) : bytes := rev (le_bytes n v).

Definition chunk : nat := Z.to_nat 65535.

Fixpoint stored_blocks (fuel : nat) (data : bytes) : bytes :=
  match fuel with
  | O => []
  | S k =>
    if len data <=? 65535 then
      x01 :: le_bytes 2 (len data) ++ le_bytes 2 (65535 - len data) ++ data
    else
      x00 :: le_bytes 2 65535 ++ le_bytes 2 0 ++ take chunk data
          ++ stored_blocks k (drop chunk data)
  end.

Definition zlib_compress (data : bytes) : bytes :=
  [x78; x01] ++ stored_blocks (S (length data)) data ++ be_bytes 4 (adler32 data).

Fixpoint inflate_stored (fuel : nat) (input : bytes) : result (bytes * bytes) :=
  match fuel with
  | O => Err ZlibError
  | S k =>
    match input with
    | hdr :: l0 :: l1 :: n0 :: n1 :: r =>
      let h := Z_of_byte hdr in
      let LEN := le_value [l0; l1] in
      if negb (Z.land (Z.shiftr h 1) 3 =? 0) then Err ZlibError
      else if negb (LEN + le_value [n0; n1] =? 65535) then Err ZlibError
      else
        let body := take (Z.to_nat LEN) r in
        if len body <? LEN then Err ZlibError
        else if Z.odd h then Ok (body, drop (Z.to_nat LEN) r)
        else
          o <- inflate_stored k (drop (Z.to_nat LEN) r) ;;
          Ok (body ++ fst o, snd o)
    | _ => Err ZlibError
    end
  end.

Definition zlib_decompress (input : bytes) : result bytes :=
  match input with
  | cmf :: flg :: r =>
    let c := Z_of_byte cmf in
    let f := Z_of_byte flg in
    if negb ((Z.land c 15 =? 8) && (Z.shiftr c 4 <=? 7)
             && ((c * 256 + f) mod 31 =? 0) && (Z.land f 32 =? 0))
    then Err ZlibError
    else
      o <- inflate_stored (length input) r ;;
      if bytes_eqb (take 4 (snd o)) (be_bytes 4 (adler32 (fst o)))
      then Ok (fst o) else Err ZlibError
  | _ => Err ZlibError
  end.

(** *** JSON *)

Definition hex_digit (d : Z) : byte := byte_of_Z (if d <? 10 then 48 + d else 87 + d).

Definition hex4 (v : Z) : bytes :=
  [hex_digit (v / 4096 mod 16); hex_digit (v / 256 mod 16);
   hex_digit (v / 16 mod 16); hex_digit (v mod 16)].

Definition backslash : byte := x5c.
Definition quote : byte := x22.

Definition u_escape (v : Z) : bytes := backslash :: x75 :: hex4 v.

(** The escape of one code point under [ensure_ascii]. *)
Definition json_escape (cp : Z) : bytes :=
  if cp =? 34 then [backslash; quote]
  else if cp =? 92 then [backslash; backslash]
  else if cp =? 10 then [backslash; x6e]
  else if cp =? 13 then [backslash; x72]
  else if cp =? 9 then [backslash; x74]
  else if cp =? 8 then [backslash; x62]
  else if cp =? 12 then [backslash; x66]
  else if (32 <=? cp) && (cp <=? 126) then [byte_of_Z cp]
  else if cp <? 65536 then u_escape cp
  else u_escape (55296 + (cp - 65536) / 1024) ++ u_escape (56320 + (cp - 65536) mod 1024).

Definition json_string (s : string) : bytes :=
  let bs := str_encode s in
  let cps := default (map Z_of_byte bs) (utf8_code_points bs) in
  quote :: flat_map json_escape cps ++ [quote].

(** A literal of the JSON text, written with an apostrophe for each double
    quote. *)
Definition lit (s : string) : bytes :=
  map (fun b => if Byte.eqb b x27 then quote else b) (list_byte_of_string s).

Definition json_entry (cm : col_meta) : bytes :=
  lit "{'name':" ++ json_string (cm_name cm)
    ++ lit ",'type':" ++ json_string (cm_type cm) ++ lit "}".

Fixpoint json_entries (schema : list col_meta) : bytes :=
  match schema with
  | [] => []
  | [cm] => json_entry cm
  | cm :: rest => json_entry cm ++ x2c :: json_entries rest
  end.

Definition json_dumps (schema : list col_meta) : string :=
  string_of_list_byte
    (lit "{'columns':[" ++ json_entries schema ++ lit "]}").

(** [expect lit bs]: what follows the literal [lit] at the head of [bs]. *)
Fixpoint expect (lit bs : bytes) : option bytes :=
  match lit with
  | [] => Some bs
  | c :: lit' =>
    match bs with
    | b :: bs' => if Byte.eqb b c then expect lit' bs' else None
    | [] => None
    end
  end.

(** The token of a string, after its opening quote, and what follows the
    closing quote. *)
Fixpoint scan_string (bs : bytes) : option (bytes * bytes) :=
  match bs with
  | [] => None
  | c :: r =>
    if Byte.eqb c quote then Some ([], r)
    else if Byte.eqb c backslash then
      match r with
      | c' :: r' =>
        match scan_string r' with
        | Some (tok, rest) => Some (c :: c' :: tok, rest)
        | None => None
        end
      | [] => None
      end
    else match scan_string r with
         | Some (tok, rest) => Some (c :: tok, rest)
         | None => None
         end
  end.

Definition parse_entry (bs : bytes) : option (json * bytes) :=
  r ← expect (lit "{'name':'") bs;
  '(n, r) ← scan_string r;
  r ← expect (lit ",'type':'") r;
  '(t, r) ← scan_string r;
  r ← expect (lit "}") r;
  Some (JObj [("name"%string, JStr (string_of_list_byte n));
              ("type"%string, JStr (string_of_list_byte t))], r).

(** The entries after the opening bracket, up to the closing one. *)
Fixpoint parse_entries (fuel : nat) (bs : bytes) : option (list json * bytes) :=
  match fuel with
  | O => None
  | S k =>
    match parse_entry bs with
    | None => None
    | Some (e, r) =>
      match r with
      | c :: r' =>
        if Byte.eqb c x2c then
          match parse_entries k r' with
          | Some (es, rest) => Some (e :: es, rest)
          | None => None
          end
        else if Byte.eqb c x5d then Some ([e], r')
        else None
      | [] => None
      end
    end
  end.

Definition json_loads (text : string) : result json :=
  match expect (lit "{'columns':[") (list_byte_of_string text) with
  | None => Err JSONDecodeError
  | Some r =>
    match r with
    | c :: r' =>
      let es := if Byte.eqb c x5d then Some ([], r') else parse_entries (length r) r in
      match es with
      | Some (es, [c']) =>
        if Byte.eqb c' x7d then Ok (JObj [("columns"%string, JArr es)])
        else Err JSONDecodeError
      | _ => Err JSONDecodeError
      end
    | [] => Err JSONDecodeError
    end
  end.

(** An ASCII byte that neither ends a string token nor starts an escape. *)
Definition plain (b : byte) : Prop :=
  Z_of_byte b < 128 /\ Z_of_byte b <> 34 /\ Z_of_byte b <> 92.

(** A run of ASCII bytes the string scanner passes over whole. *)
Definition scanned (e : bytes) : Prop :=
  Forall (fun b => Z_of_byte b < 128) e /\
  forall rest tok rest', scan_string rest = Some (tok, rest') ->
                         scan_string (e ++ rest) = Some (e ++ tok, rest').

Definition lib : PyLib :=
  Build_PyLib float_of_str int_of_str zlib_compress zlib_decompress
              json_dumps json_loads.

(** *** [str] of a float

    The shortest decimal literal that [float] reads back as the same
    double, the nearest to it if there are several, laid out as [repr] does:
    plain notation when the decimal point falls within 16 digits after and 4
    zeros before the first digit, exponent notation otherwise. *)

(** Whether [num / den < 10 ^ d]. *)
Definition below_power (num den d : Z) : bool :=
  if 0 <=? d then num <? den * 10 ^ d else num * 10 ^ (- d) <? den.

(** The least [d] from [d0] on with [num / den < 10 ^ d]. *)
Fixpoint decimal_point (fuel : nat) (d0 num den : Z) : Z :=
  match fuel with
  | O => d0
  | S fuel' => if below_power num den d0 then d0 else decimal_point fuel' (d0 + 1) num den
  end.

(** [num / den / 10 ^ k] as a quotient, a remainder and a divisor. *)
Definition scaled (num den k : Z) : Z * Z * Z :=
  if 0 <=? k then (num / (den * 10 ^ k), num mod (den * 10 ^ k), den * 10 ^ k)
  else (num * 10 ^ (- k) / den, (num * 10 ^ (- k)) mod den, den).

Definition reads_back (bits q k : Z) : bool :=
  bits_of_spec_float (round_decimal false q k) =? bits.

(** The digits and the position of the decimal point of the shortest decimal
    of at least [n] digits that reads back as [bits], the magnitude
    [num / den] having its decimal point at [d]. *)
Fixpoint shortest (fuel : nat) (n : Z) (bits num den d : Z) : Z * Z :=
  let '(q, r, dv) := scaled num den (d - n) in
  let lo := reads_back bits q (d - n) in
  let hi := reads_back bits (q + 1) (d - n) in
  let up := if lo && hi then (dv <? 2 * r) || ((dv =? 2 * r) && Z.odd q) else hi in
  let c := if up then q + 1 else q in
  let found := if c =? 10 ^ n then (10 ^ (n - 1), d + 1) else (c, d) in
  match fuel with
  | O => found
  | S fuel' => if lo || hi then found else shortest fuel' (n + 1) bits num den d
  end.

Definition zeros (n : Z) : string := string_of_list_ascii (replicate (Z.to_nat n) "0"%char).

Definition float_repr (f : Z) : string :=
  let neg := Z.testbit f 63 in
  let e := Z.land (Z.shiftr f 52) 2047 in
  let m := Z.land f (2 ^ 52 - 1) in
  let minus := if neg then "-"%string else EmptyString in
  if e =? 2047 then (if m =? 0 then minus +:+ "inf" else "nan")
  else if (e =? 0) && (m =? 0) then minus +:+ "0.0"
  else
    let '(mant, ex) := if e =? 0 then (m, -1074) else (2 ^ 52 + m, e - 1075) in
    let '(num, den) := if 0 <=? ex then (mant * 2 ^ ex, 1) else (mant, 2 ^ (- ex)) in
    let d := decimal_point 700 (-330) num den in
    let '(c, d) := shortest 16 1 (Z.land f (2 ^ 63 - 1)) num den d in
    let digs := CustomToCsv.int_str c in
    let n := Z.of_nat (String.length digs) in
    minus +:+
    (if (d <=? -4) || (16 <? d) then
       let x := d - 1 in
       let xs := CustomToCsv.int_str (Z.abs x) in
       String.substring 0 1 digs
         +:+ (if 1 <? n then "." +:+ String.substring 1 (Z.to_nat (n - 1)) digs
              else EmptyString)
         +:+ "e" +:+ (if x <? 0 then "-" else "+")
         +:+ (if Z.abs x <? 10 then "0" +:+ xs else xs)
     else if d <=? 0 then "0." +:+ zeros (- d) +:+ digs
     else if n <=? d then digs +:+ zeros (d - n) +:+ ".0"
     else String.substring 0 (Z.to_nat d) digs +:+ "."
            +:+ String.substring (Z.to_nat d) (Z.to_nat (n - d)) digs).

Definition repr : PyRepr := Build_PyRepr float_repr.

(** A platform whose file system addresses 2^43 bytes and whose process
    allocates fewer than 2^31 bytes at a time. *)
Definition platform : Platform :=
  {| seek_refuses := fun off => if 2 ^ 43 <=? off then Some OSError else None;
     read_refuses := fun n => if 2 ^ 31 <=? n then Some MemoryError else None |}.

End Ref.

(** * The claims' vocabulary

    Definitions that follow the words of the specification; the properties
    below compare them with the definitions taken from the source. *)




(** The payload of a STRING block: the values' UTF-8 bytes, concatenated. *)
Definition payload_of (values : list string) : bytes := concat (map str_encode values).

(** The first twelve bytes of every file the writer emits: the magic, the
    version, the endianness flag and the reserved field. *)
Definition prefix12 : bytes := MAGIC ++ [x01; x00; x00; x00].

(** The directory entry the reader is to find for schema entry [cm], written
    at index [i] with the fields [off i], [csize i] and [usize i]. *)
Definition entry_matches (off csize usize : nat -> result Z) (nr : Z)
           (i : nat) (cm : col_meta) (meta : Reader.ColumnMeta) : Prop :=
  exists d o c u,
    Writer.dtype_of_typename (cm_type cm) = Ok d /\ off i = Ok o /\ csize i = Ok c /\
    usize i = Ok u /\
    meta = {| Reader.name := cm_name cm; Reader.dtype := d; Reader.block_offset := o;
              Reader.compressed_size := c; Reader.uncompressed_size := u;
              Reader.num_values := nr |}.

(** [float] returns doubles: every pattern fits 64 bits. *)
Definition floats_are_doubles `{PyLib} : Prop :=
  forall (s : string) (f : Z), float_of_str s = Some f -> 0 <= f < 2 ^ 64.

(** Type coercion of a field, in the words of the specification: a numeric
    column holds the parsed number, 0 or 0.0 for the empty field, and a
    STRING column the text itself. *)
Definition coerce `{PyLib} (ty v : string) : result value :=
  if String.eqb ty "INT32" then
    if String.eqb v EmptyString then Ok (VInt 0)
    else match float_of_str v with
         | Some f => z <- float_trunc f ;; Ok (VInt z)
         | None => Err (ValueError "could not convert string to float")
         end
  else if String.eqb ty "FLOAT64" then
    if String.eqb v EmptyString then Ok (VFloat 0)
    else match float_of_str v with
         | Some f => Ok (VFloat f)
         | None => Err (ValueError "could not convert string to float")
         end
  else if String.eqb ty "STRING" then Ok (VStr v)
  else Err (ValueError "Unknown type").

(** A table for a schema: one column per schema entry, all of [n] values,
    every text a Python string, and no name used twice. *)
Definition table_of (schema : list col_meta) (columns : list (list string)) (n : nat)
  : Prop :=
  length columns = length schema /\
  Forall (fun col => length col = n) columns /\
  NoDup (map cm_name schema) /\
  Forall (fun cm => is_text (cm_name cm)) schema /\
  Forall (Forall is_text) columns.

(** The rows are the coerced table: [n] rows, each binding exactly the
    schema's names, the name of column [j] to the coerced field [j]. *)
Definition rows_of_table `{PyLib} (schema : list col_meta) (columns : list (list string))
           (n : nat) (rows : list (gmap string value)) : Prop :=
  length rows = n /\
  forall (i : nat) (row : gmap string value),
    rows !! i = Some row ->
    (forall (j : nat) (cm : col_meta) (col : list string) (v : string),
       schema !! j = Some cm -> columns !! j = Some col -> col !! i = Some v ->
       exists x : value, coerce (cm_type cm) v = Ok x /\ row !! cm_name cm = Some x) /\
    (forall k : string, is_Some (row !! k) -> k ∈ map cm_name schema).

(** The round trip of the specification: the table is written, the file is
    opened, and [read_all] returns the coerced rows. *)
Definition round_trips `{PyLib} (schema : list col_meta) (columns : list (list string))
           (n : nat) : Prop :=
  exists (file : bytes) (self : Reader.CFileReader) (rows : list (gmap string value)),
    Writer.write_cfile schema columns = Ok file /\
    Reader.CFileReader_init file = Ok self /\
    Reader.read_all self = Ok rows /\
    rows_of_table schema columns n rows.

(** A program on a file handle is strict when a run that succeeds uses a
    prefix of the handle's bytes, fails on every proper cut of that prefix,
    and does not depend on what follows it. *)
Definition strict {A : Type} (m : io A) : Prop :=
  forall (fh : bytes) (a : A) (rest : bytes),
    m fh = Ok (a, rest) ->
    exists used : bytes,
      fh = used ++ rest /\
      (forall k : nat, (k < length used)%nat -> is_ok (m (take k fh)) = false) /\
      (forall tail : bytes, m (used ++ tail) = Ok (a, tail)).

(** The error conditions of the specification, as the exceptions the source
    raises for them. *)
Definition MalformedValue : exn := ValueError "could not convert string to float".
Definition TruncatedBlock : exn := ValueError "failed to read full compressed block".
Definition SizeMismatch : exn := ValueError "uncompressed size mismatch".

Definition is_TruncatedFile (e : exn) : Prop :=
  e ∈ [ValueError "file too small"; ValueError "truncated schema length";
       ValueError "truncated schema json"; ValueError "truncated global metadata";
       ValueError "truncated dir"].

(** Every directory entry reports the file's row count. *)
Definition counts_agree `{PyLib} (self : Reader.CFileReader) : Prop :=
  Forall (fun c => Reader.num_values c = Reader.num_rows self) (Reader.columns self).

(** What the specification asks of [read_all]: a column whose decoded value
    count differs from the row count makes it fail. *)
Definition rejects_count_mismatch `{PyLib} (self : Reader.CFileReader) : Prop :=
  forall (c : Reader.ColumnMeta) (vals : list value),
    c ∈ Reader.columns self ->
    Reader.read_column self (Reader.name c) = Ok vals ->
    len vals <> Reader.num_rows self ->
    is_ok (Reader.read_all self) = false.





(** What the specification says of a STRING column: it has an encoded block,
    a table of offsets followed by the payload. *)
Definition string_column_encodes `{PyLib} (values : list string) : Prop :=
  exists (block : bytes) (offs : list Z),
    Writer.build_uncompressed_block "STRING" values = Ok block /\
    length offs = S (length values) /\
    block = concat (map (le_bytes 4) offs) ++ payload_of values.

(** ** Vocabulary for the rest of the code *)

(** The fields of a directory entry are in the range of their format. *)
Definition entry_in_range (c : Reader.ColumnMeta) : Prop :=
  is_text (Reader.name c) /\ len (str_encode (Reader.name c)) < 2 ^ 16 /\
  0 <= Reader.dtype c < 2 ^ 8 /\ 0 <= Reader.block_offset c < 2 ^ 64 /\
  0 <= Reader.compressed_size c < 2 ^ 64 /\ 0 <= Reader.uncompressed_size c < 2 ^ 64 /\
  0 <= Reader.num_values c < 2 ^ 64.

(** The bytes of a directory entry: the length of the name on two bytes, the
    name, the dtype on one byte, and the offset, the two sizes and the value
    count on eight bytes each, little-endian. *)
Definition entry_bytes (c : Reader.ColumnMeta) : bytes :=
  le_bytes 2 (len (str_encode (Reader.name c))) ++ str_encode (Reader.name c)
    ++ le_bytes 1 (Reader.dtype c) ++ le_bytes 8 (Reader.block_offset c)
    ++ le_bytes 8 (Reader.compressed_size c) ++ le_bytes 8 (Reader.uncompressed_size c)
    ++ le_bytes 8 (Reader.num_values c).

(** Column [i] of the data rows of a CSV source: field [i] of each row, the
    empty string where a row has no such field. *)
Definition csv_column (rows : list (list string)) (i : nat) : list string :=
  map (fun row => default EmptyString (row !! i)) rows.

(** ** Files to run the definitions on *)

Module Example.

Definition schema : list col_meta :=
  [{| cm_name := "id"; cm_type := "INT32" |};
   {| cm_name := "score"; cm_type := "FLOAT64" |};
   {| cm_name := "name"; cm_type := "STRING" |}].

(** The rows (1, 2.5, a) and (2, , bb), by column. *)
Definition table : list (list string) :=
  [["1"; "2"]; ["2.5"; EmptyString]; ["a"; "bb"]]%string.

Definition written (r : result bytes) : bytes :=
  match r with Ok f => f | Err _ => [] end.

(** A text of 65536 letters, and a column of 65536 such values: a payload of
    2^32 bytes. *)
Definition wide_text : string :=
  string_of_list_ascii (repeat "a"%char (Z.to_nat 65536)).

Definition wide_column : list string := replicate (Z.to_nat 65536) wide_text.

(** The file [write_cfile] emits for [schema] and [table] with the reference
    library. *)
Definition file : bytes :=
  Eval vm_compute in written (@Writer.write_cfile Ref.lib schema table).

(** A file with one INT32 column of two values whose header announces a single
    row: the file [write_cfile] emits for the column (1, 2), with the low
    byte of [num_rows] (at offset 16 + schema_len = 58) lowered from 2 to 1. *)
Definition short_count_file : bytes :=
  Eval vm_compute in
    <[58%nat := x01]>
      (written (@Writer.write_cfile Ref.lib
                  [{| cm_name := "id"; cm_type := "INT32" |}] [["1"; "2"]%string])).

(** The file written for two INT32 columns of different lengths: the column
    [a] holds 1 and 2, the column [b] holds 3 only. *)
Definition ragged_schema : list col_meta :=
  [{| cm_name := "a"; cm_type := "INT32" |}; {| cm_name := "b"; cm_type := "INT32" |}].

Definition ragged_table : list (list string) := [["1"; "2"]; ["3"]]%string.

(** The rows [csv.reader] yields for the source of the example table, and
    for a source with a header line only. *)
Definition csv : list (list string) :=
  [["id"; "score"; "name"]; ["1"; "2.5"; "a"]; ["2"; EmptyString; "bb"]]%string.

Definition header_only_csv : list (list string) := [["id"; "score"; "name"]%string].

Definition header_only_file : bytes :=
  Eval vm_compute in written (@Writer.main Ref.lib header_only_csv).

(** The example file with byte 300, inside the block of the second column,
    overwritten. *)
Definition damaged_file : bytes := Eval vm_compute in <[300%nat := xff]> file.

Definition ragged_file : bytes :=
  Eval vm_compute in written (@Writer.write_cfile Ref.lib ragged_schema ragged_table).

End Example.

Module ExampleReader.
Import Reader.

Definition id_column : ColumnMeta :=
  {| name := "id"; dtype := 0; block_offset := 256; compressed_size := 19;
     uncompressed_size := 8; num_values := 2 |}.

Definition score_column : ColumnMeta :=
  {| name := "score"; dtype := 1; block_offset := 280; compressed_size := 27;
     uncompressed_size := 16; num_values := 2 |}.

Definition name_column : ColumnMeta :=
  {| name := "name"; dtype := 2; block_offset := 312; compressed_size := 26;
     uncompressed_size := 15; num_values := 2 |}.

Definition entry (n t : string) : json := JObj [("name"%string, JStr n); ("type"%string, JStr t)].

(** The reader [CFileReader(path)] builds from [Example.file]. *)
Definition reader : CFileReader :=
  {| path := Example.file;
     schema := JArr [entry "id" "INT32"; entry "score" "FLOAT64"; entry "name" "STRING"];
     num_rows := 2; num_columns := 3;
     columns := [id_column; score_column; name_column] |}.

(** The same reader once the file has lost its last 24 bytes. *)
Definition reader_of_cut_file : CFileReader :=
  {| path := take 320 Example.file;
     schema := schema reader; num_rows := 2; num_columns := 3;
     columns := columns reader |}.

(** A directory entry for the last block that announces 16 bytes instead of
    the 15 the block inflates to. *)
Definition wrong_size_column : ColumnMeta :=
  {| name := "name"; dtype := 2; block_offset := 312; compressed_size := 26;
     uncompressed_size := 16; num_values := 2 |}.

(** The directory entry and the reader of [Example.short_count_file]. *)
Definition short_count_column : ColumnMeta :=
  {| name := "id"; dtype := 0; block_offset := 112; compressed_size := 19;
     uncompressed_size := 8; num_values := 2 |}.

Definition short_count_reader : CFileReader :=
  {| path := Example.short_count_file; schema := JArr [entry "id" "INT32"];
     num_rows := 1; num_columns := 1; columns := [short_count_column] |}.

(** The reader of [Example.damaged_file]: the header is that of the example
    file. *)
Definition damaged_reader : CFileReader :=
  {| path := Example.damaged_file; schema := schema reader; num_rows := 2;
     num_columns := 3; columns := columns reader |}.

End ExampleReader.
(** * Properties *)

(** ** Bytes and little-endian fields *)

Lemma Z_of_byte_range (b : byte) : 0 <= Z_of_byte b < 256.
Proof.
  unfold Z_of_byte. pose proof (Byte.to_N_bounded b). lia.
Qed.

Lemma Z_of_byte_of_Z (z : Z) : Z_of_byte (byte_of_Z z) = z mod 256.
Proof.
  unfold byte_of_Z, Z_of_byte.
  pose proof (Z.mod_pos_bound z 256 ltac:(lia)) as Hm.
  destruct (Byte.of_N (Z.to_N (z mod 256))) as [b|] eqn:E.
  - apply Byte.to_of_N in E. rewrite E. lia.
  - apply Byte.of_N_None_iff in E. lia.
Qed.

Lemma byte_of_Z_of_byte (b : byte) : byte_of_Z (Z_of_byte b) = b.
Proof.
  unfold byte_of_Z. pose proof (Z_of_byte_range b) as Hr.
  rewrite Z.mod_small by lia. unfold Z_of_byte. rewrite N2Z.id.
  by rewrite Byte.of_to_N.
Qed.

Lemma length_le_bytes n v : length (le_bytes n v) = n.
Proof. revert v; induction n as [|n IH]; intros v; simpl; [done|by rewrite IH]. Qed.

Lemma le_value_le_bytes n v :
  0 <= v < 256 ^ Z.of_nat n -> le_value (le_bytes n v) = v.
Proof.
  revert v; induction n as [|n IH]; intros v Hv.
  - simpl in *. lia.
  - cbn [le_bytes le_value]. rewrite Z_of_byte_of_Z.
    rewrite Nat2Z.inj_succ, Z.pow_succ_r in Hv by lia.
    rewrite IH.
    + pose proof (Z.div_mod v 256 ltac:(lia)). lia.
    + split; [apply Z.div_pos; lia|].
      apply Z.div_lt_upper_bound; lia.
Qed.

Lemma le_value_bound bs : 0 <= le_value bs < 256 ^ len bs.
Proof.
  unfold len. induction bs as [|b r IH]; [simpl; lia|].
  cbn [le_value length]. rewrite Nat2Z.inj_succ, Z.pow_succ_r by lia.
  pose proof (Z_of_byte_range b). lia.
Qed.

Lemma le_bytes_le_value bs : le_bytes (length bs) (le_value bs) = bs.
Proof.
  induction bs as [|b r IH]; [done|].
  cbn [le_value length le_bytes].
  pose proof (Z_of_byte_range b) as Hb.
  f_equal.
  - rewrite <- (byte_of_Z_of_byte b) at 2. unfold byte_of_Z.
    replace ((Z_of_byte b + 256 * le_value r) mod 256) with (Z_of_byte b mod 256); [done|].
    replace (Z_of_byte b + 256 * le_value r) with (Z_of_byte b + le_value r * 256) by lia.
    symmetry. apply Z.mod_add. lia.
  - replace ((Z_of_byte b + 256 * le_value r) / 256) with (le_value r); [done|].
    replace (Z_of_byte b + 256 * le_value r) with (Z_of_byte b + le_value r * 256) by lia.
    rewrite Z.div_add by lia.
    rewrite (Z.div_small (Z_of_byte b)) by lia. lia.
Qed.

(** ** The error monad *)

Lemma bind_Ok_inv {A B : Type} (m : result A) (k : A -> result B) (b : B) :
  bind m k = Ok b -> exists a, m = Ok a /\ k a = Ok b.
Proof. destruct m as [a|e]; cbn; [eauto|discriminate]. Qed.

Ltac inv_bind H :=
  let a := fresh "a" in
  let Ha := fresh "Ha" in
  apply bind_Ok_inv in H as (a & Ha & H).

Lemma mapM_Forall2 {A B : Type} (f : A -> result B) (xs : list A) (ys : list B) :
  mapM f xs = Ok ys <-> Forall2 (fun x y => f x = Ok y) xs ys.
Proof.
  revert ys; induction xs as [|x xs IH]; intros ys; cbn.
  - split; [intros [= <-]; constructor|intros Hf; by inversion Hf].
  - split.
    + intros Hm. inv_bind Hm. inv_bind Hm. injection Hm as <-.
      constructor; [done|by apply IH].
    + intros Hf. inversion Hf as [|? y ? ys' Hx Hr]; subst.
      rewrite Hx. cbn. apply IH in Hr. rewrite Hr. done.
Qed.

Lemma mapM_length {A B : Type} (f : A -> result B) (xs : list A) (ys : list B) :
  mapM f xs = Ok ys -> length ys = length xs.
Proof. intros Hm. apply mapM_Forall2 in Hm. symmetry. by eapply Forall2_length. Qed.

Lemma mapM_lookup {A B : Type} (f : A -> result B) (xs : list A) (ys : list B) i x :
  mapM f xs = Ok ys -> xs !! i = Some x -> exists y, ys !! i = Some y /\ f x = Ok y.
Proof.
  intros Hm Hx. apply mapM_Forall2 in Hm.
  destruct (Forall2_lookup_l _ _ _ _ _ Hm Hx) as (y & Hy & Hf). eauto.
Qed.

Lemma mapM_lookup_r {A B : Type} (f : A -> result B) (xs : list A) (ys : list B) i y :
  mapM f xs = Ok ys -> ys !! i = Some y -> exists x, xs !! i = Some x /\ f x = Ok y.
Proof.
  intros Hm Hy. apply mapM_Forall2 in Hm.
  destruct (Forall2_lookup_r _ _ _ _ _ Hm Hy) as (x & Hx & Hf). eauto.
Qed.

Lemma mapM_ext {A B : Type} (f g : A -> result B) (xs : list A) :
  (forall x, x ∈ xs -> f x = g x) -> mapM f xs = mapM g xs.
Proof.
  induction xs as [|x xs IH]; intros He; [done|]. cbn.
  rewrite He by left. destruct (g x); cbn; [|done].
  rewrite IH; [done|]. intros y Hy. apply He. by right.
Qed.

(** The first element that raises decides the exception. *)
Lemma mapM_Err {A B : Type} (f : A -> result B) (pre post : list A) (x : A) (e : exn) :
  Forall (fun y => is_ok (f y) = true) pre -> f x = Err e ->
  mapM f (pre ++ x :: post) = Err e.
Proof.
  induction pre as [|y pre IH]; intros Hpre Hx; cbn.
  - by rewrite Hx.
  - inversion Hpre as [|? ? Hy Hr]; subst. destruct (f y); [|done]. cbn.
    by rewrite IH.
Qed.

Lemma mapM_fails {A B : Type} (f : A -> result B) (xs : list A) (x : A) :
  x ∈ xs -> is_ok (f x) = false -> is_ok (mapM f xs) = false.
Proof.
  induction xs as [|y xs IH]; intros Hin Hx; [by apply elem_of_nil in Hin|].
  cbn. apply elem_of_cons in Hin as [->|Hin].
  - destruct (f y); [done|]. done.
  - destruct (f y); [|done]. cbn. specialize (IH Hin Hx).
    destruct (mapM f xs); [done|]. done.
Qed.

(** ** Blocks of fields of one size *)

Lemma length_concat_fixed {A : Type} (k : nat) (bs : list (list A)) :
  Forall (fun b => length b = k) bs -> length (concat bs) = (k * length bs)%nat.
Proof.
  induction 1 as [|b bs Hb _ IH]; cbn; [lia|]. rewrite length_app, IH, Hb. lia.
Qed.

Lemma drop_concat_fixed {A : Type} (k : nat) (bs : list (list A)) (tail : list A) :
  Forall (fun b => length b = k) bs ->
  forall (i : nat) (b : list A), bs !! i = Some b ->
  take k (drop (i * k) (concat bs ++ tail)) = b.
Proof.
  induction 1 as [|c bs Hc _ IH]; intros i b Hi; [done|].
  cbn [concat]. rewrite <- app_assoc.
  destruct i as [|i]; cbn in Hi.
  - injection Hi as <-. rewrite Nat.mul_0_l, drop_0. by rewrite take_app_length'.
  - replace (S i * k)%nat with (length c + i * k)%nat by lia.
    rewrite drop_app_add. by apply IH.
Qed.


(** ** [read_csv_columns] *)

Section CsvColumns.
Import Writer.

Lemma lookup_enumerate_fold (xs : list string) : forall (k : nat) (cols : list (list string)) (i : nat),
  foldl (fun cols iv => alter (fun c => c ++ [snd iv]) (fst iv) cols) cols
        (enumerate_from k xs) !! i
  = match xs !! (i - k)%nat with
    | Some x => if bool_decide (k <= i)%nat then (fun c => c ++ [x]) <$> cols !! i else cols !! i
    | None => cols !! i
    end.
Proof.
  induction xs as [|x r IH]; intros k cols i; [done|].
  cbn [enumerate_from foldl fst snd]. rewrite IH.
  destruct (decide (i = k)) as [->|Hne].
  - rewrite Nat.sub_diag. cbn [lookup list_lookup].
    replace (k - S k)%nat with 0%nat by lia.
    rewrite (bool_decide_true (k <= k)%nat) by lia.
    destruct r as [|y r']; cbn [lookup list_lookup];
      [|rewrite bool_decide_false by lia]; by rewrite list_lookup_alter_eq.
  - rewrite list_lookup_alter_ne by done.
    destruct (decide (k <= i)%nat) as [Hle|Hgt].
    + replace (i - k)%nat with (S (i - S k)) by lia. cbn [lookup list_lookup].
      destruct (r !! (i - S k)%nat); [|done].
      rewrite !bool_decide_true by lia. done.
    + replace (i - S k)%nat with 0%nat by lia. replace (i - k)%nat with 0%nat by lia.
      cbn [lookup list_lookup]. rewrite (bool_decide_false (k <= i)%nat) by lia.
      destruct r; cbn; [done|]. by rewrite bool_decide_false by lia.
Qed.

Lemma length_enumerate_fold (xs : list (nat * string)) : forall (cols : list (list string)),
  length (foldl (fun cols iv => alter (fun c => c ++ [snd iv]) (fst iv) cols) cols xs)
  = length cols.
Proof.
  induction xs as [|x r IH]; intros cols; [done|].
  cbn [foldl]. rewrite IH. apply length_alter.
Qed.

Lemma length_append_row w cols row : length (append_row w cols row) = length cols.
Proof. apply length_enumerate_fold. Qed.

Lemma lookup_append_row w cols row i :
  (i < w)%nat ->
  append_row w cols row !! i = (fun c => c ++ [default EmptyString (row !! i)]) <$> cols !! i.
Proof.
  intros Hi. unfold append_row, enumerate. rewrite lookup_enumerate_fold.
  rewrite Nat.sub_0_r, bool_decide_true by lia.
  rewrite lookup_take_lt by done.
  destruct (decide (i < length row)%nat) as [Hlt|Hge].
  - rewrite lookup_app_l by done.
    destruct (lookup_lt_is_Some_2 row i Hlt) as [x Hx]. by rewrite Hx.
  - rewrite lookup_app_r by lia. rewrite lookup_replicate_2 by lia.
    rewrite (lookup_ge_None_2 row i) by lia. done.
Qed.

Lemma lookup_append_rows w rows : forall cols i,
  (i < w)%nat ->
  foldl (append_row w) cols rows !! i
  = (fun c => c ++ map (fun row => default EmptyString (row !! i)) rows) <$> cols !! i.
Proof.
  induction rows as [|row rows IH]; intros cols i Hi.
  - cbn. destruct (cols !! i); cbn; [|done]. by rewrite app_nil_r.
  - cbn [foldl map]. rewrite IH by done. rewrite lookup_append_row by done.
    destruct (cols !! i); cbn; [|done]. by rewrite <- app_assoc.
Qed.

Lemma length_append_rows w rows : forall cols,
  length (foldl (append_row w) cols rows) = length cols.
Proof.
  induction rows as [|row rows IH]; intros cols; [done|].
  cbn [foldl]. rewrite IH. apply length_append_row.
Qed.

(** The columns [read_csv_columns] returns, in closed form. *)
Lemma read_csv_columns_eq (header : list string) (rows : list (list string)) :
  read_csv_columns (header :: rows)
  = Ok (header,
        map (fun i => map (fun row => default EmptyString (row !! i)) rows)
            (seq 0 (length header))).
Proof.
  unfold read_csv_columns. do 2 f_equal.
  apply list_eq. intros i.
  destruct (decide (i < length header)%nat) as [Hi|Hi].
  - rewrite lookup_append_rows by done.
    rewrite lookup_replicate_2 by done. cbn.
    rewrite list_lookup_fmap, lookup_seq_lt by done. done.
  - rewrite !lookup_ge_None_2; [done|rewrite length_map, length_seq; lia|].
    rewrite length_append_rows, length_replicate. lia.
Qed.

(** C10: for a CSV source with a header, [read_csv_columns] returns the
    header and one list per header column; every list has one entry per data
    row; the entry of column [i] in row [j] is the row's field [i], or the
    empty string when the row is shorter than the header; fields beyond the
    header's width are in no list. *)
Theorem read_csv_columns_rectangular (header : list string) (rows : list (list string)) :
  exists cols,
    read_csv_columns (header :: rows) = Ok (header, cols) /\
    length cols = length header /\
    Forall (fun col => length col = length rows) cols /\
    forall (i j : nat) (row : list string),
      (i < length header)%nat -> rows !! j = Some row ->
      exists col, cols !! i = Some col /\
                  col !! j = Some (default EmptyString (row !! i)).
Proof.
  eexists. split; [apply read_csv_columns_eq|].
  split; [by rewrite length_map, length_seq|].
  split.
  - apply Forall_forall. intros col Hin. apply list_elem_of_fmap in Hin as (i & -> & _).
    by rewrite length_map.
  - intros i j row Hi Hj. eexists. split.
    + rewrite list_lookup_fmap, lookup_seq_lt by done. done.
    + rewrite list_lookup_fmap, Hj. done.
Qed.
End CsvColumns.

(** ** Truncation of a double *)


Section Encoding.
Context `{PyLib}.
Import Writer.



Lemma build_INT32 values :
  build_uncompressed_block "INT32" values = (ba <- mapM encode_int32 values ;; Ok (concat ba)).
Proof. done. Qed.

Lemma build_FLOAT64 values :
  build_uncompressed_block "FLOAT64" values = (ba <- mapM encode_float64 values ;; Ok (concat ba)).
Proof. done. Qed.



Lemma encode_int32_malformed v :
  v <> EmptyString -> float_of_str v = None ->
  encode_int32 v = Err (ValueError "could not convert string to float").
Proof.
  intros Hne Hf. unfold encode_int32.
  destruct (String.eqb_spec v EmptyString); [done|]. by rewrite Hf.
Qed.

Lemma encode_float64_malformed v :
  v <> EmptyString -> float_of_str v = None ->
  encode_float64 v = Err (ValueError "could not convert string to float").
Proof.
  intros Hne Hf. unfold encode_float64.
  destruct (String.eqb_spec v EmptyString); [done|]. by rewrite Hf.
Qed.










End Encoding.



(** ** Schema inference *)

Section Inference.
Context `{PyLib}.
Import Writer.


End Inference.




(** ** Packing and unpacking *)

Lemma pack_unsigned_Ok (n : nat) (v : Z) :
  0 <= v < 256 ^ Z.of_nat n -> pack_unsigned n v = Ok (le_bytes n v).
Proof.
  intros Hv. unfold pack_unsigned.
  destruct (Z.leb_spec 0 v); [|lia]. destruct (Z.ltb_spec v (256 ^ Z.of_nat n)); [done|lia].
Qed.

Lemma pack_unsigned_inv (n : nat) (v : Z) (b : bytes) :
  pack_unsigned n v = Ok b -> 0 <= v < 256 ^ Z.of_nat n /\ b = le_bytes n v.
Proof.
  unfold pack_unsigned.
  destruct (Z.leb_spec 0 v); [|done]. destruct (Z.ltb_spec v (256 ^ Z.of_nat n)); [|done].
  intros [= <-]. done.
Qed.

Lemma mapM_pack_unsigned_inv (n : nat) (vs : list Z) (bs : list bytes) :
  mapM (pack_unsigned n) vs = Ok bs ->
  bs = map (le_bytes n) vs /\ Forall (fun v => 0 <= v < 256 ^ Z.of_nat n) vs.
Proof.
  revert bs. induction vs as [|v vs IH]; intros bs Hm; cbn in Hm.
  - injection Hm as <-. done.
  - inv_bind Hm. inv_bind Hm. injection Hm as <-.
    apply pack_unsigned_inv in Ha as [Hv ->]. destruct (IH _ Ha0) as [-> Hall].
    split; [done|by constructor].
Qed.

Lemma mapM_pack_unsigned_Ok (n : nat) (vs : list Z) :
  Forall (fun v => 0 <= v < 256 ^ Z.of_nat n) vs ->
  mapM (pack_unsigned n) vs = Ok (map (le_bytes n) vs).
Proof.
  induction 1 as [|v vs Hv _ IH]; [done|]. cbn.
  rewrite (pack_unsigned_Ok _ _ Hv). cbn. by rewrite IH.
Qed.

Lemma unpack_unsigned_le_bytes (n : nat) (v : Z) :
  0 <= v < 256 ^ Z.of_nat n -> unpack_unsigned n (le_bytes n v) = Ok v.
Proof.
  intros Hv. unfold unpack_unsigned. rewrite length_le_bytes, Nat.eqb_refl.
  by rewrite le_value_le_bytes.
Qed.

Lemma Forall_length_le_bytes (n : nat) (vs : list Z) :
  Forall (fun b : list byte => length b = n) (map (le_bytes n) vs).
Proof. apply Forall_forall. intros b Hb. apply list_elem_of_fmap in Hb as (v & -> & _). apply length_le_bytes. Qed.

(** Reading field [i] of a table of [n]-byte fields. *)
Lemma unpack_from_table (n : nat) (vs : list Z) (tail : bytes) (i : nat) (v : Z) :
  Forall (fun v => 0 <= v < 256 ^ Z.of_nat n) vs -> vs !! i = Some v ->
  unpack_from_unsigned n (concat (map (le_bytes n) vs) ++ tail) (i * n) = Ok v.
Proof.
  intros Hall Hi. unfold unpack_from_unsigned.
  rewrite (drop_concat_fixed n _ tail (Forall_length_le_bytes n vs) i (le_bytes n v)).
  - rewrite length_le_bytes, Nat.eqb_refl. rewrite le_value_le_bytes; [done|].
    eapply Forall_lookup_1 in Hall; [|done]. done.
  - by rewrite list_lookup_fmap, Hi.
Qed.

Lemma mapM_seq {A : Type} (f : nat -> result A) (l : list A) : forall start : nat,
  (forall i x, l !! i = Some x -> f (start + i)%nat = Ok x) ->
  mapM f (seq start (length l)) = Ok l.
Proof.
  induction l as [|x l IH]; intros start Hf; [done|]. cbn.
  rewrite <- (Nat.add_0_r start) at 1. rewrite (Hf 0%nat x eq_refl). cbn.
  rewrite IH; [done|]. intros i y Hy.
  replace (S start + i)%nat with (start + S i)%nat by lia. by apply Hf.
Qed.

Lemma for_range_Ok {A : Type} (f : nat -> result A) (l : list A) (n : Z) :
  n = len l -> (forall i x, l !! i = Some x -> f i = Ok x) -> Reader.for_range n f = Ok l.
Proof.
  intros -> Hf. unfold Reader.for_range, len. rewrite Nat2Z.id. by apply mapM_seq.
Qed.

Lemma for_range_inv {A : Type} (f : nat -> result A) (l : list A) (n : Z) :
  Reader.for_range n f = Ok l ->
  length l = Z.to_nat n /\ forall i x, l !! i = Some x -> f i = Ok x.
Proof.
  unfold Reader.for_range. intros Hm. split.
  - rewrite (mapM_length _ _ _ Hm). apply length_seq.
  - intros i x Hx. destruct (mapM_lookup_r _ _ _ _ _ Hm Hx) as (j & Hj & Hf).
    apply lookup_seq in Hj as [-> _]. done.
Qed.

(** ** Text *)

Lemma bytes_decode_encode (s : string) : is_text s -> bytes_decode (str_encode s) = Ok s.
Proof.
  unfold is_text, bytes_decode, str_encode. intros ->.
  by rewrite string_of_list_byte_of_string.
Qed.

Lemma bytes_decode_inv (bs : bytes) (s : string) :
  bytes_decode bs = Ok s -> str_encode s = bs /\ is_text s.
Proof.
  unfold bytes_decode, is_text, str_encode. destruct (valid_utf8 bs) eqn:Hv; [|done].
  intros [= <-]. by rewrite list_byte_of_string_of_list_byte.
Qed.

(** ** STRING blocks *)

Section StringBlock.
Context `{PyLib}.
Import Writer.

Lemma string_offsets_snd (values : list string) : forall cur,
  snd (string_offsets cur values) = payload_of values.
Proof.
  induction values as [|v r IH]; intros cur; [done|].
  cbn [string_offsets]. specialize (IH (cur + len (str_encode v))).
  destruct (string_offsets _ r) as [offs sb]. cbn in *. by rewrite IH.
Qed.

Lemma string_offsets_length (values : list string) : forall cur,
  length (fst (string_offsets cur values)) = S (length values).
Proof.
  induction values as [|v r IH]; intros cur; [done|].
  cbn [string_offsets]. specialize (IH (cur + len (str_encode v))).
  destruct (string_offsets _ r) as [offs sb]. cbn in *. by rewrite IH.
Qed.

Lemma string_offsets_lookup (values : list string) : forall cur (i : nat),
  (i <= length values)%nat ->
  fst (string_offsets cur values) !! i = Some (cur + len (payload_of (take i values))).
Proof.
  induction values as [|v r IH]; intros cur i Hi.
  - cbn in Hi. replace i with 0%nat by lia. cbn. f_equal. unfold len. cbn. lia.
  - cbn [string_offsets]. specialize (IH (cur + len (str_encode v))).
    destruct (string_offsets _ r) as [offs sb]. cbn [fst] in *.
    destruct i as [|i].
    + cbn. f_equal. unfold len. cbn. lia.
    + cbn [lookup list_lookup]. cbn in Hi. rewrite IH by lia. f_equal.
      unfold payload_of. cbn. unfold len. rewrite length_app. lia.
Qed.

Lemma payload_take_S (values : list string) (i : nat) (v : string) :
  values !! i = Some v ->
  payload_of (take (S i) values) = payload_of (take i values) ++ str_encode v.
Proof.
  intros Hv. unfold payload_of. rewrite (take_S_r _ _ _ Hv), map_app, concat_app.
  cbn. by rewrite app_nil_r.
Qed.

Lemma payload_split (values : list string) (i : nat) (v : string) :
  values !! i = Some v ->
  payload_of values
  = payload_of (take i values) ++ str_encode v ++ payload_of (drop (S i) values).
Proof.
  intros Hv. unfold payload_of.
  rewrite <- (take_drop_middle _ _ _ Hv) at 1. rewrite map_app, concat_app.
  done.
Qed.

Lemma payload_take_le (values : list string) (i : nat) :
  len (payload_of (take i values)) <= len (payload_of values).
Proof.
  unfold payload_of, len. rewrite <- (take_drop i values) at 2.
  rewrite map_app, concat_app, length_app. lia.
Qed.

End StringBlock.

Section StringBlockLayout.
Context `{PyLib}.
Import Writer.

Lemma build_STRING (values : list string) :
  build_uncompressed_block "STRING" values
  = (off_b <- mapM pack_u32 (fst (string_offsets 0 values)) ;;
     Ok (concat off_b ++ payload_of values)).
Proof.
  unfold build_uncompressed_block. cbn [String.eqb Ascii.eqb Bool.eqb].
  rewrite <- (string_offsets_snd values 0).
  by destruct (string_offsets 0 values).
Qed.

(** The block of a STRING column whose payload fits a 32-bit offset. *)
Lemma build_STRING_Ok (values : list string) :
  len (payload_of values) < 2 ^ 32 ->
  build_uncompressed_block "STRING" values
  = Ok (concat (map (le_bytes 4) (fst (string_offsets 0 values))) ++ payload_of values).
Proof.
  intros Hlen. rewrite build_STRING. unfold pack_u32.
  rewrite mapM_pack_unsigned_Ok; [done|].
  apply Forall_forall. intros o Ho. apply list_elem_of_lookup in Ho as [i Hi].
  pose proof (lookup_lt_Some _ _ _ Hi) as Hlt. rewrite string_offsets_length in Hlt.
  rewrite string_offsets_lookup in Hi by lia. injection Hi as <-.
  pose proof (payload_take_le values i). unfold len in *.
  change (256 ^ Z.of_nat 4) with (2 ^ 32). lia.
Qed.

Lemma build_STRING_inv (values : list string) (block : bytes) :
  build_uncompressed_block "STRING" values = Ok block ->
  len (payload_of values) < 2 ^ 32 /\
  block = concat (map (le_bytes 4) (fst (string_offsets 0 values))) ++ payload_of values.
Proof.
  intros Hb. rewrite build_STRING in Hb. inv_bind Hb. injection Hb as <-.
  apply mapM_pack_unsigned_inv in Ha as [-> Hall]. split; [|done].
  assert (Hl : fst (string_offsets 0 values) !! length values
               = Some (0 + len (payload_of (take (length values) values))))
    by (apply string_offsets_lookup; lia).
  rewrite firstn_all in Hl. eapply Forall_lookup_1 in Hall; [|exact Hl].
  change (256 ^ Z.of_nat 4) with (2 ^ 32) in Hall. lia.
Qed.

(** The decoder on the block of a STRING column. *)
Lemma decode_STRING_block (values : list string) (block : bytes) (meta : Reader.ColumnMeta) :
  build_uncompressed_block "STRING" values = Ok block ->
  Reader.dtype meta = DT_STRING ->
  Reader.num_values meta = len values ->
  Forall is_text values ->
  Reader.decode_values meta block = Ok (map VStr values).
Proof.
  intros Hb Hd Hn Htext. apply build_STRING_inv in Hb as [Hlen ->].
  set (offs := fst (string_offsets 0 values)).
  assert (Hoffs : forall i, (i <= length values)%nat ->
                    offs !! i = Some (len (payload_of (take i values)))).
  { intros i Hi. subst offs. by rewrite string_offsets_lookup by done. }
  assert (Hrange : Forall (fun v => 0 <= v < 256 ^ Z.of_nat 4) offs).
  { apply Forall_forall. intros o Ho. apply list_elem_of_lookup in Ho as [i Hi].
    pose proof (lookup_lt_Some _ _ _ Hi) as Hlt. subst offs.
    rewrite string_offsets_length in Hlt. rewrite Hoffs in Hi by lia. injection Hi as <-.
    pose proof (payload_take_le values i). unfold len in *.
    change (256 ^ Z.of_nat 4) with (2 ^ 32). lia. }
  unfold Reader.decode_values. rewrite Hd, Hn. cbn [Z.eqb DT_STRING DT_INT32 DT_FLOAT64 Pos.eqb].
  rewrite (for_range_Ok _ offs).
  - cbn [bind].
    replace (drop (Z.to_nat (4 * (len values + 1))) _) with (payload_of values).
    2:{ rewrite drop_app_length'; [done|].
        rewrite (length_concat_fixed 4) by apply Forall_length_le_bytes.
        rewrite length_map. subst offs. rewrite string_offsets_length. unfold len. lia. }
    apply for_range_Ok; [unfold len; by rewrite length_map|].
    intros i x Hx. rewrite list_lookup_fmap in Hx.
    destruct (values !! i) as [v|] eqn:Hv; [|done]. injection Hx as <-.
    pose proof (lookup_lt_Some _ _ _ Hv) as Hlt.
    unfold index. rewrite (Hoffs i) by lia. rewrite (Hoffs (i + 1)%nat) by lia. cbn [bind].
    replace (i + 1)%nat with (S i) by lia.
    rewrite (payload_take_S _ _ _ Hv). unfold slice, len. rewrite !Nat2Z.id.
    rewrite length_app.
    replace (length (payload_of (take i values)) + length (str_encode v)
             - length (payload_of (take i values)))%nat
      with (length (str_encode v)) by lia.
    rewrite (payload_split _ _ _ Hv), drop_app_length, take_app_length.
    rewrite bytes_decode_encode; [done|]. by eapply Forall_lookup_1 in Htext.
  - subst offs. unfold len. rewrite string_offsets_length. lia.
  - intros i x Hx. rewrite Nat.mul_comm. rewrite (Nat.mul_comm 4 i). by apply unpack_from_table.
Qed.

Lemma mapM_pack_unsigned_Err (n : nat) (vs : list Z) (e : exn) :
  mapM (pack_unsigned n) vs = Err e -> e = StructError.
Proof.
  induction vs as [|v vs IH]; [done|]. cbn [mapM]. unfold pack_unsigned at 1.
  destruct (_ && _); cbn [bind]; [|by intros [= <-]].
  destruct (mapM (pack_unsigned n) vs); [done|]. cbn. intros [= <-]. by apply IH.
Qed.

(** No block for a STRING column whose payload does not fit a 32-bit
    offset. *)
Lemma build_STRING_wide (values : list string) :
  2 ^ 32 <= len (payload_of values) ->
  build_uncompressed_block "STRING" values = Err StructError.
Proof.
  intros Hlen. destruct (build_uncompressed_block "STRING" values) as [block|e] eqn:Hb.
  - apply build_STRING_inv in Hb as [Hlt _]. lia.
  - rewrite build_STRING in Hb. unfold pack_u32 in Hb.
    destruct (mapM (pack_unsigned 4) _) eqn:Hm; [done|].
    cbn in Hb. injection Hb as <-. f_equal. by eapply mapM_pack_unsigned_Err.
Qed.

End StringBlockLayout.

Lemma length_encode_repeat (c : ascii) (k : nat) :
  length (str_encode (string_of_list_ascii (repeat c k))) = k.
Proof. induction k as [|k IH]; [done|]. cbn. by rewrite <- IH at 2. Qed.

Lemma len_payload_replicate (n : nat) (v : string) :
  len (payload_of (replicate n v)) = Z.of_nat n * len (str_encode v).
Proof.
  unfold payload_of, len. induction n as [|n IH]; [done|].
  cbn [replicate map concat]. rewrite length_app. lia.
Qed.

Lemma len_payload_wide_column : len (payload_of Example.wide_column) = 2 ^ 32.
Proof.
  unfold Example.wide_column, Example.wide_text.
  rewrite len_payload_replicate. unfold len. rewrite length_encode_repeat.
  rewrite Z2Nat.id by lia. reflexivity.
Qed.

(** A STRING column of 65536 values of 65536 letters each: the last offset
    is 2^32, which [struct.pack] refuses, and no block is built. *)
Lemma wide_string_column_is_not_encoded :
  len (payload_of Example.wide_column) = 2 ^ 32 /\
  @Writer.build_uncompressed_block Ref.lib "STRING" Example.wide_column = Err StructError /\
  ~ @string_column_encodes Ref.lib Example.wide_column.
Proof.
  assert (Hwide : @Writer.build_uncompressed_block Ref.lib "STRING" Example.wide_column
                  = Err StructError).
  { apply build_STRING_wide. rewrite len_payload_wide_column. lia. }
  split; [exact len_payload_wide_column|]. split; [exact Hwide|].
  intros (block & offs & Hb & _). rewrite Hwide in Hb. discriminate.
Qed.

(** C8, as the code has it.  The block of a STRING column is built exactly
    when the payload, the values' UTF-8 bytes together, is shorter than 2^32
    bytes; a longer payload makes [struct.pack] raise on an offset.  The
    block of [n] values is a table of [n + 1] little-endian 32-bit offsets
    followed by the payload; the table starts at 0, ends at the length of
    the payload and never decreases; offset [i] is the length of the first
    [i] values; the bytes of value [i] are the payload between offsets [i]
    and [i + 1]; and the reader's decoder, given that block and the count
    [n], returns the values. *)
Theorem string_block_layout (L : PyLib) (values : list string) :
  (len (payload_of values) < 2 ^ 32 ->
   exists block : bytes, Writer.build_uncompressed_block "STRING" values = Ok block) /\
  (2 ^ 32 <= len (payload_of values) ->
   Writer.build_uncompressed_block "STRING" values = Err StructError) /\
  forall block : bytes,
  Writer.build_uncompressed_block "STRING" values = Ok block ->
  exists offs : list Z,
    block = concat (map (le_bytes 4) offs) ++ payload_of values /\
    length offs = S (length values) /\
    Forall (fun o => 0 <= o < 2 ^ 32) offs /\
    offs !! 0%nat = Some 0 /\
    offs !! length values = Some (len (payload_of values)) /\
    (forall (i : nat) (a b : Z), offs !! i = Some a -> offs !! S i = Some b -> a <= b) /\
    (forall (i : nat) (v : string), values !! i = Some v ->
       exists a b : Z, offs !! i = Some a /\ offs !! S i = Some b /\
                       slice (payload_of values) (Z.to_nat a) (Z.to_nat b) = str_encode v) /\
    (forall meta : Reader.ColumnMeta,
       Reader.dtype meta = DT_STRING -> Reader.num_values meta = len values ->
       Forall is_text values ->
       Reader.decode_values meta block = Ok (map VStr values)) /\
    (forall i : nat, (i <= length values)%nat ->
       offs !! i = Some (len (payload_of (take i values)))).
Proof.
  split; [intros Hlt; eexists; by apply build_STRING_Ok|].
  split; [apply build_STRING_wide|].
  intros block Hb. pose proof (build_STRING_inv values block Hb) as [Hlen ->].
  set (offs := fst (Writer.string_offsets 0 values)).
  assert (Hoffs : forall i, (i <= length values)%nat ->
                    offs !! i = Some (len (payload_of (take i values)))).
  { intros i Hi. subst offs. by rewrite string_offsets_lookup by done. }
  assert (Hlenoffs : length offs = S (length values)) by apply string_offsets_length.
  exists offs. split; [done|]. split; [done|]. split.
  { apply Forall_forall. intros o Ho. apply list_elem_of_lookup in Ho as [i Hi].
    pose proof (lookup_lt_Some _ _ _ Hi) as Hlt.
    rewrite Hoffs in Hi by lia. injection Hi as <-.
    pose proof (payload_take_le values i). unfold len in *. lia. }
  split; [by rewrite Hoffs by lia|].
  split; [rewrite Hoffs by lia; by rewrite firstn_all|].
  split.
  { intros i a b Ha Hb'. pose proof (lookup_lt_Some _ _ _ Hb') as Hlt.
    rewrite Hoffs in Ha by lia. rewrite Hoffs in Hb' by lia.
    injection Ha as <-. injection Hb' as <-.
    destruct (lookup_lt_is_Some_2 values i ltac:(lia)) as [v Hv].
    rewrite (payload_take_S _ _ _ Hv). unfold len. rewrite length_app. lia. }
  split.
  { intros i v Hv. pose proof (lookup_lt_Some _ _ _ Hv) as Hlt.
    eexists _, _. split; [apply Hoffs; lia|]. split; [apply Hoffs; lia|].
    rewrite (payload_take_S _ _ _ Hv). unfold slice, len. rewrite !Nat2Z.id, length_app.
    replace (length (payload_of (take i values)) + length (str_encode v)
             - length (payload_of (take i values)))%nat
      with (length (str_encode v)) by lia.
    by rewrite (payload_split _ _ _ Hv), drop_app_length, take_app_length. }
  split; [|exact Hoffs].
  intros meta Hd Hn Ht. by apply decode_STRING_block.
Qed.

(** The layout on a column with an empty value, on the reference library. *)
Lemma string_block_layout_witness :
  @Writer.build_uncompressed_block Ref.lib "STRING" ["a"; EmptyString; "bb"]%string
  = Ok [x00; x00; x00; x00; x01; x00; x00; x00; x01; x00; x00; x00; x03; x00; x00; x00;
        x61; x62; x62] /\
  exists offs : list Z,
    [x00; x00; x00; x00; x01; x00; x00; x00; x01; x00; x00; x00; x03; x00; x00; x00;
     x61; x62; x62]
    = concat (map (le_bytes 4) offs) ++ payload_of ["a"; EmptyString; "bb"]%string /\
    offs !! 3%nat = Some 3.
Proof.
  destruct (string_block_layout Ref.lib ["a"; EmptyString; "bb"]%string)
    as (_ & _ & Hlayout).
  split; [reflexivity|].
  destruct (Hlayout
              [x00; x00; x00; x00; x01; x00; x00; x00; x01; x00; x00; x00;
               x03; x00; x00; x00; x61; x62; x62] eq_refl)
    as (offs & Hblock & _ & _ & _ & Hlast & _).
  exists offs. split; [exact Hblock|exact Hlast].
Defined.

(** ** Reading columns and rows *)

Lemma mapM_same_error {A B : Type} (f : A -> result B) (xs : list A) (E : exn) :
  (forall x e, x ∈ xs -> f x = Err e -> e = E) ->
  Exists (fun x => is_ok (f x) = false) xs ->
  mapM f xs = Err E.
Proof.
  induction xs as [|x xs IH]; intros Herr Hex; [by inversion Hex|].
  cbn. destruct (f x) as [y|e] eqn:Hfx.
  - cbn. rewrite IH; [done| |].
    + intros z e Hz. apply Herr. by right.
    + inversion Hex as [? ? Hx|]; subst; [|done]. by rewrite Hfx in Hx.
  - cbn. f_equal. eapply Herr; [left|done].
Qed.

Lemma mapM_is_ok {A B : Type} (f : A -> result B) (xs : list A) :
  (forall x, x ∈ xs -> is_ok (f x) = true) -> exists ys, mapM f xs = Ok ys.
Proof.
  induction xs as [|x xs IH]; intros Hok; [by eexists|]. cbn.
  pose proof (Hok x ltac:(left)) as Hx. destruct (f x) as [y|]; [|done]. cbn.
  destruct IH as [ys ->]; [intros z Hz; apply Hok; by right|]. by eexists.
Qed.

Lemma index_Ok {A : Type} (xs : list A) (i : nat) (x : A) :
  index xs i = Ok x <-> xs !! i = Some x.
Proof. unfold index. destruct (xs !! i); split; congruence. Qed.

Lemma index_Err {A : Type} (xs : list A) (i : nat) (e : exn) :
  index xs i = Err e -> e = IndexError /\ (length xs <= i)%nat.
Proof.
  unfold index. destruct (xs !! i) eqn:Hi; [done|]. intros [= <-].
  split; [done|]. by apply lookup_ge_None.
Qed.

Section Rows.
Context `{PyLib}.
Import Reader.

Lemma decode_values_length (meta : ColumnMeta) (data : bytes) (vals : list value) :
  decode_values meta data = Ok vals -> length vals = Z.to_nat (num_values meta).
Proof.
  unfold decode_values. intros Hd.
  destruct (dtype meta =? DT_INT32); [by apply for_range_inv in Hd as [? _]|].
  destruct (dtype meta =? DT_FLOAT64); [by apply for_range_inv in Hd as [? _]|].
  destruct (dtype meta =? DT_STRING); [|done].
  inv_bind Hd. by apply for_range_inv in Hd as [? _].
Qed.

Lemma read_column_find (self : CFileReader) (n : string) (vals : list value) :
  read_column self n = Ok vals ->
  exists meta, find (fun c => String.eqb (name c) n) (columns self) = Some meta /\
               meta ∈ columns self /\ name meta = n /\
               length vals = Z.to_nat (num_values meta).
Proof.
  unfold read_column. intros Hr.
  destruct (find _ (columns self)) as [meta|] eqn:Hf; [|done].
  exists meta. split; [done|]. apply find_some in Hf as [Hin Hn].
  apply String.eqb_eq in Hn. split; [by apply list_elem_of_In|]. split; [done|].
  inv_bind Hr. by eapply decode_values_length.
Qed.

(** [fill_row] raises nothing but [IndexError]. *)
Lemma fill_row_Err (cols : list (string * list value)) (i : nat) : forall row e,
  fill_row row cols i = Err e -> e = IndexError.
Proof.
  induction cols as [|[n vs] cols IH]; intros row e Hf; [done|].
  cbn in Hf. destruct (index vs i) as [v|e'] eqn:Hi; cbn in Hf.
  - by eapply IH.
  - injection Hf as <-. by apply index_Err in Hi as [-> _].
Qed.

Lemma fill_row_is_ok (cols : list (string * list value)) (i : nat) : forall row,
  is_ok (fill_row row cols i) = true <-> Forall (fun c => (i < length (snd c))%nat) cols.
Proof.
  induction cols as [|[n vs] cols IH]; intros row; cbn.
  - split; [constructor|done].
  - destruct (index vs i) as [v|e] eqn:Hi; cbn.
    + apply index_Ok, lookup_lt_Some in Hi. rewrite IH. split.
      * intros Hall. by constructor.
      * intros Hall. by inversion Hall.
    + apply index_Err in Hi as [_ Hge]. split; [done|].
      intros Hall. inversion Hall; subst. cbn in *. lia.
Qed.

(** The row [fill_row] builds: a name bound in [cols] maps to entry [i] of its
    values, when the lists bound to one name are all the same. *)
Lemma fill_row_lookup (g : string -> list value) (cols : list (string * list value))
      (i : nat) : forall row row',
  Forall (fun c => snd c = g (fst c)) cols ->
  fill_row row cols i = Ok row' ->
  forall n, row' !! n = if bool_decide (n ∈ map fst cols) then g n !! i else row !! n.
Proof.
  induction cols as [|[c vs] cols IH]; intros row row' Hg Hf n.
  - cbn in *. injection Hf as <-. rewrite bool_decide_false; [done|]. apply not_elem_of_nil.
  - cbn in Hf. inv_bind Hf. apply index_Ok in Ha.
    inversion Hg as [|? ? Hc Hg']; subst. cbn in Hc. subst vs.
    rewrite (IH _ _ Hg' Hf n). cbn [map fst].
    destruct (decide (n ∈ map fst cols)) as [Hin|Hnin].
    + rewrite !bool_decide_true; [done| |done]. by right.
    + rewrite (bool_decide_false _ Hnin).
      destruct (decide (n = c)) as [->|Hne].
      * rewrite bool_decide_true by left. by rewrite lookup_insert_eq.
      * rewrite bool_decide_false.
        -- by rewrite lookup_insert_ne.
        -- intros Hc. apply elem_of_cons in Hc as [?|?]; done.
Qed.

Lemma zip_names_data (self : CFileReader) (names : list string) (data : list (list value)) :
  mapM (read_column self) names = Ok data ->
  map fst (zip names data) = names /\
  Forall (fun c => read_column self (fst c) = Ok (snd c)) (zip names data).
Proof.
  intros Hm. apply mapM_Forall2 in Hm.
  induction Hm as [|n vs names data Hn _ [IH1 IH2]]; [done|].
  cbn. split; [by rewrite IH1|by constructor].
Qed.

End Rows.

Section ColumnReads.
Context `{PyLib}.
Import Reader.

Lemma read_column_uncompressed_eq (self : CFileReader) (col : ColumnMeta) :
  0 <= block_offset col < 2 ^ 63 -> 0 <= compressed_size col < 2 ^ 63 ->
  _read_column_uncompressed self col
  = let comp := take (Z.to_nat (compressed_size col))
                     (drop (Z.to_nat (block_offset col)) (path self)) in
    if negb (len comp =? compressed_size col) then Err TruncatedBlock
    else uncompressed <- zlib_decompress comp ;;
         if negb (len uncompressed =? uncompressed_size col) then Err SizeMismatch
         else Ok uncompressed.
Proof.
  intros Ho Hc. unfold _read_column_uncompressed, fh_open_seek, fh_read.
  destruct (Z.leb_spec (2 ^ 63) (block_offset col)); [lia|]. cbn [bind].
  destruct (Z.leb_spec (2 ^ 63) (compressed_size col)); [lia|]. done.
Qed.

End ColumnReads.

(** C9, on a platform.  For a directory entry whose offset and size fit the
    file interface, [_read_column_uncompressed] first lets the platform
    refuse the offset, then the size, with the platform's exception.  When
    the platform serves both, it raises the truncated-block error when the
    file holds fewer than [compressed_size] bytes from [block_offset] on,
    and the size-mismatch error when the span is complete and inflates to a
    length other than [uncompressed_size]; it returns the inflated bytes
    when the lengths agree, and is then the function of the platform without
    limits.  [read_column] passes every error on and returns no value. *)
Theorem read_column_size_checks (L : PyLib) (P : Platform) (self : Reader.CFileReader)
        (col : Reader.ColumnMeta) :
  0 <= Reader.block_offset col < 2 ^ 63 ->
  0 <= Reader.compressed_size col < 2 ^ 63 ->
  let comp := take (Z.to_nat (Reader.compressed_size col))
                   (drop (Z.to_nat (Reader.block_offset col)) (Reader.path self)) in
  (forall e : exn, seek_refuses (Reader.block_offset col) = Some e ->
     Reader._read_column_uncompressed_on self col = Err e) /\
  (forall e : exn, seek_refuses (Reader.block_offset col) = None ->
     read_refuses (Reader.compressed_size col) = Some e ->
     Reader._read_column_uncompressed_on self col = Err e) /\
  (seek_refuses (Reader.block_offset col) = None ->
   read_refuses (Reader.compressed_size col) = None ->
   (len comp < Reader.compressed_size col ->
    Reader._read_column_uncompressed_on self col = Err TruncatedBlock) /\
   (len comp = Reader.compressed_size col ->
    forall u : bytes, zlib_decompress comp = Ok u ->
      (len u <> Reader.uncompressed_size col ->
       Reader._read_column_uncompressed_on self col = Err SizeMismatch) /\
      (len u = Reader.uncompressed_size col ->
       Reader._read_column_uncompressed_on self col = Ok u)) /\
   Reader._read_column_uncompressed_on self col
   = Reader._read_column_uncompressed self col) /\
  (forall (n : string) (e : exn),
     find (fun c => String.eqb (Reader.name c) n) (Reader.columns self) = Some col ->
     Reader._read_column_uncompressed_on self col = Err e ->
     Reader.read_column_on self n = Err e).
Proof.
  intros Ho Hc comp.
  assert (Hoff : (2 ^ 63 <=? Reader.block_offset col) = false) by (apply Z.leb_gt; lia).
  assert (Hsize : (2 ^ 63 <=? Reader.compressed_size col) = false) by (apply Z.leb_gt; lia).
  split; [|split; [|split]].
  - intros e Hs. unfold Reader._read_column_uncompressed_on, fh_open_seek_on.
    by rewrite Hoff, Hs.
  - intros e Hs Hr. unfold Reader._read_column_uncompressed_on, fh_open_seek_on, fh_read_on.
    rewrite Hoff, Hs. cbn [bind]. by rewrite Hsize, Hr.
  - intros Hs Hr.
    assert (Heq : Reader._read_column_uncompressed_on self col
                  = Reader._read_column_uncompressed self col).
    { unfold Reader._read_column_uncompressed_on, Reader._read_column_uncompressed,
        fh_open_seek_on, fh_open_seek, fh_read_on, fh_read.
      rewrite Hoff, Hs. cbn [bind]. by rewrite Hsize, Hr. }
    rewrite Heq, read_column_uncompressed_eq by done. fold comp. cbv zeta.
    split; [|split; [|done]].
    + intros Hlt. destruct (Z.eqb_spec (len comp) (Reader.compressed_size col)); [lia|done].
    + intros Hlen u Hu. rewrite Hlen, Z.eqb_refl, Hu. cbn.
      split; intros Hne; destruct (Z.eqb_spec (len u) (Reader.uncompressed_size col)); done.
  - intros n e Hf He. unfold Reader.read_column_on. by rewrite Hf, He.
Qed.

(** The checks at work on a platform that addresses 2^43 bytes and allocates
    fewer than 2^31: the last block of the example file read after the file
    was cut, a block read through an entry that announces a wrong size, and
    two entries the platform refuses, one for its size and one for its
    offset. *)
Lemma read_column_size_checks_witness :
  @Reader.read_column_on Ref.lib Ref.platform ExampleReader.reader_of_cut_file "name"
  = Err TruncatedBlock /\
  @Reader._read_column_uncompressed_on Ref.lib Ref.platform ExampleReader.reader
     ExampleReader.wrong_size_column = Err SizeMismatch /\
  @Reader._read_column_uncompressed_on Ref.lib Ref.platform ExampleReader.reader
     {| Reader.name := "id"; Reader.dtype := 0; Reader.block_offset := 256;
        Reader.compressed_size := 2 ^ 34; Reader.uncompressed_size := 8;
        Reader.num_values := 2 |} = Err MemoryError /\
  @Reader._read_column_uncompressed_on Ref.lib Ref.platform ExampleReader.reader
     {| Reader.name := "id"; Reader.dtype := 0; Reader.block_offset := 2 ^ 45;
        Reader.compressed_size := 19; Reader.uncompressed_size := 8;
        Reader.num_values := 2 |} = Err OSError.
Proof.
  split; [|split; [|split]].
  - destruct (read_column_size_checks Ref.lib Ref.platform ExampleReader.reader_of_cut_file
                ExampleReader.name_column) as (_ & _ & Hserved & Hpass);
      [cbn; lia|cbn; lia|].
    apply Hpass; [reflexivity|].
    destruct (Hserved eq_refl eq_refl) as (Hcut & _).
    apply Hcut. vm_compute. reflexivity.
  - destruct (read_column_size_checks Ref.lib Ref.platform ExampleReader.reader
                ExampleReader.wrong_size_column) as (_ & _ & Hserved & _);
      [cbn; lia|cbn; lia|].
    destruct (Hserved eq_refl eq_refl) as (_ & Hsize & _).
    eapply Hsize; [vm_compute; reflexivity|vm_compute; reflexivity|vm_compute; discriminate].
  - destruct (read_column_size_checks Ref.lib Ref.platform ExampleReader.reader
                {| Reader.name := "id"; Reader.dtype := 0; Reader.block_offset := 256;
                   Reader.compressed_size := 2 ^ 34; Reader.uncompressed_size := 8;
                   Reader.num_values := 2 |}) as (_ & Hread & _);
      [cbn; lia|cbn; lia|].
    apply Hread; reflexivity.
  - destruct (read_column_size_checks Ref.lib Ref.platform ExampleReader.reader
                {| Reader.name := "id"; Reader.dtype := 0; Reader.block_offset := 2 ^ 45;
                   Reader.compressed_size := 19; Reader.uncompressed_size := 8;
                   Reader.num_values := 2 |}) as (Hseek & _);
      [cbn; lia|cbn; lia|].
    apply Hseek; reflexivity.
Defined.



(** ** Value counts and the row count *)

(** A file whose only column holds two values while the header announces one
    row: [read_all] returns one row and drops the second value. *)
Lemma read_all_accepts_count_mismatch :
  @Reader.CFileReader_init Ref.lib Example.short_count_file
  = Ok ExampleReader.short_count_reader /\
  ~ @rejects_count_mismatch Ref.lib ExampleReader.short_count_reader.
Proof.
  split; [vm_compute; reflexivity|].
  intros Hrej.
  specialize (Hrej ExampleReader.short_count_column [VInt 1; VInt 2]).
  assert (Hok : is_ok (@Reader.read_all Ref.lib ExampleReader.short_count_reader) = true)
    by (vm_compute; reflexivity).
  rewrite Hrej in Hok; [discriminate| | |].
  - left.
  - vm_compute. reflexivity.
  - vm_compute. discriminate.
Qed.

Section ReadAll.
Context `{PyLib}.
Import Reader.

(** The rows of [read_all] when every column holds at least [num_rows]
    values. *)
Lemma read_all_rows (self : CFileReader) (data : list (list value)) :
  mapM (read_column self) (map name (columns self)) = Ok data ->
  Forall (fun vals => num_rows self <= len vals) data ->
  exists rows : list (gmap string value),
    read_all self = Ok rows /\
    length rows = Z.to_nat (num_rows self) /\
    forall (i : nat) (row : gmap string value),
      rows !! i = Some row ->
      (forall (n : string) (vals : list value),
         n ∈ map name (columns self) -> read_column self n = Ok vals ->
         row !! n = vals !! i /\ is_Some (vals !! i)) /\
      (forall n : string, n ∉ map name (columns self) -> row !! n = None).
Proof.
  intros Hdata Hall. destruct (zip_names_data _ _ _ Hdata) as [Hfst Hzip].
  set (names := map name (columns self)) in *.
  set (g := fun m => match read_column self m with Ok v => v | Err _ => [] end).
  assert (Hg : Forall (fun c => snd c = g (fst c)) (zip names data)).
  { eapply Forall_impl; [exact Hzip|]. intros [m vs] Hm. cbn in *. subst g. cbn.
    by rewrite Hm. }
  unfold read_all. fold names. rewrite Hdata. cbn [bind].
  assert (Hok : forall i, (i < Z.to_nat (num_rows self))%nat ->
                  is_ok (fill_row ∅ (zip names data) i) = true).
  { intros i Hi. apply fill_row_is_ok. apply Forall_forall. intros [m vs] Hin.
    apply elem_of_zip_r in Hin. eapply Forall_forall in Hall; [|exact Hin].
    cbn. unfold len in Hall. lia. }
  destruct (mapM_is_ok (fun i => fill_row ∅ (zip names data) i)
              (seq 0 (Z.to_nat (num_rows self)))) as [rows Hrows].
  { intros i Hi. apply elem_of_seq in Hi. apply Hok. lia. }
  pose proof (mapM_length _ _ _ Hrows) as Hrl. rewrite length_seq in Hrl.
  exists rows. split; [done|]. split; [done|].
  intros i row Hi.
  apply for_range_inv in Hrows as [_ Hrow]. split.
  - intros n vals Hn Hvals.
    rewrite (fill_row_lookup g _ _ _ _ Hg (Hrow _ _ Hi) n), Hfst.
    rewrite bool_decide_true by done. subst g. cbn. rewrite Hvals. split; [done|].
    apply lookup_lt_is_Some_2.
    apply list_elem_of_lookup in Hn as [j Hj].
    destruct (mapM_lookup _ _ _ _ _ Hdata Hj) as (vals' & Hj' & Hv').
    rewrite Hvals in Hv'. injection Hv' as <-.
    eapply Forall_lookup_1 in Hall; [|exact Hj'].
    apply lookup_lt_Some in Hi. unfold len in Hall. lia.
  - intros n Hn.
    rewrite (fill_row_lookup g _ _ _ _ Hg (Hrow _ _ Hi) n), Hfst.
    by rewrite bool_decide_false by done.
Qed.

(** A column shorter than [num_rows] makes [read_all] raise [IndexError]. *)
Lemma read_all_short_column (self : CFileReader) (data : list (list value)) :
  mapM (read_column self) (map name (columns self)) = Ok data ->
  Exists (fun vals => len vals < num_rows self) data ->
  read_all self = Err IndexError.
Proof.
  intros Hdata Hex.
  pose proof (mapM_length _ _ _ Hdata) as Hlen.
  set (names := map name (columns self)) in *.
  unfold read_all. fold names. rewrite Hdata. cbn [bind].
  unfold for_range. apply mapM_same_error.
  - intros i e _ He. by eapply fill_row_Err.
  - apply Exists_exists in Hex as (vals & Hin & Hshort).
    apply Exists_exists. exists (length vals). split.
    + apply elem_of_seq. unfold len in Hshort. lia.
    + destruct (fill_row ∅ (zip names data) (length vals)) eqn:Hf; [|done].
      assert (Hok : is_ok (fill_row ∅ (zip names data) (length vals)) = true)
        by (by rewrite Hf).
      apply fill_row_is_ok in Hok.
      apply list_elem_of_lookup in Hin as [j Hj].
      destruct (lookup_lt_is_Some_2 names j) as [m Hm];
        [rewrite <- Hlen; by eapply lookup_lt_Some|].
      eapply Forall_lookup_1 in Hok; [|apply lookup_zip_Some; split; [exact Hm|exact Hj]].
      cbn in Hok. lia.
Qed.

End ReadAll.

(** C5, as the code has it: [read_all] compares no count.  Once every column
    of the directory has been read, it returns [num_rows] rows when every
    column holds at least [num_rows] values, each row binding a name to the
    value of that index, whatever the columns hold beyond; and it raises
    [IndexError] when some column holds fewer values than [num_rows]. *)
Theorem read_all_takes_num_rows_values (L : PyLib) (self : Reader.CFileReader)
        (data : list (list value)) :
  mapM (Reader.read_column self) (map Reader.name (Reader.columns self)) = Ok data ->
  (Forall (fun vals => Reader.num_rows self <= len vals) data ->
   exists rows : list (gmap string value),
     Reader.read_all self = Ok rows /\
     length rows = Z.to_nat (Reader.num_rows self) /\
     forall (i : nat) (row : gmap string value) (n : string) (vals : list value),
       rows !! i = Some row ->
       n ∈ map Reader.name (Reader.columns self) ->
       Reader.read_column self n = Ok vals ->
       row !! n = vals !! i /\ is_Some (vals !! i)) /\
  (Exists (fun vals => len vals < Reader.num_rows self) data ->
   Reader.read_all self = Err IndexError).
Proof.
  intros Hdata. split.
  - intros Hall. destruct (read_all_rows self data Hdata Hall) as (rows & Hr & Hl & Hrows).
    exists rows. split; [done|]. split; [done|].
    intros i row n vals Hi Hn Hv. by apply (Hrows i row Hi).
  - by apply read_all_short_column.
Qed.

(** The amended behaviour on the file with the lowered row count. *)
Lemma read_all_takes_num_rows_values_witness :
  exists rows : list (gmap string value),
    @Reader.read_column Ref.lib ExampleReader.short_count_reader "id"
    = Ok [VInt 1; VInt 2] /\
    @Reader.read_all Ref.lib ExampleReader.short_count_reader = Ok rows /\
    length rows = 1%nat.
Proof.
  destruct (read_all_takes_num_rows_values Ref.lib ExampleReader.short_count_reader
              [[VInt 1; VInt 2]]) as [Hge _].
  - vm_compute. reflexivity.
  - destruct (Hge ltac:(repeat constructor; vm_compute; discriminate))
      as (rows & Hrows & Hlen & _).
    exists rows. split; [vm_compute; reflexivity|]. split; [exact Hrows|exact Hlen].
Defined.

(** ** Reading back what was written: the header *)

Lemma fh_read_app (n : Z) (a rest : bytes) :
  n = len a -> n < 2 ^ 63 -> fh_read n (a ++ rest) = Ok (a, rest).
Proof.
  intros -> Hn. unfold fh_read, len in *.
  destruct (Z.leb_spec (2 ^ 63) (Z.of_nat (length a))); [lia|].
  rewrite Nat2Z.id, take_app_length, drop_app_length. done.
Qed.

Lemma io_bind_read {A : Type} (n : Z) (a rest : bytes) (k : bytes -> io A) :
  n = len a -> n < 2 ^ 63 -> io_bind (fh_read n) k (a ++ rest) = k a rest.
Proof. intros Hn Hlt. unfold io_bind. by rewrite fh_read_app. Qed.

Lemma io_bind_lift {A B : Type} (r : result A) (a : A) (k : A -> io B) (fh : bytes) :
  r = Ok a -> io_bind (io_lift r) k fh = k a fh.
Proof. intros ->. done. Qed.

Lemma len_le_bytes (n : nat) (v : Z) : len (le_bytes n v) = Z.of_nat n.
Proof. unfold len. by rewrite length_le_bytes. Qed.

Lemma len_app {A : Type} (xs ys : list A) : len (xs ++ ys) = len xs + len ys.
Proof. unfold len. rewrite length_app. lia. Qed.

Lemma len_nonneg {A : Type} (xs : list A) : 0 <= len xs.
Proof. unfold len. lia. Qed.

Lemma io_read_field {A : Type} (n : nat) (v : Z) (k : Z -> io A) (fh : bytes) :
  0 <= v < 256 ^ Z.of_nat n ->
  io_bind (io_lift (unpack_unsigned n (le_bytes n v))) k fh = k v fh.
Proof. intros Hv. by rewrite (io_bind_lift _ v) by by apply unpack_unsigned_le_bytes. Qed.

(** A read of [n] bytes followed by their [struct.unpack]. *)
Lemma io_read_unpack {A : Type} (n : nat) (v : Z) (k : Z -> io A) (rest : bytes) :
  0 <= v < 256 ^ Z.of_nat n -> Z.of_nat n < 2 ^ 63 ->
  io_bind (fh_read (Z.of_nat n))
          (fun b => io_bind (io_lift (unpack_unsigned n b)) k) (le_bytes n v ++ rest)
  = k v rest.
Proof.
  intros Hv Hn. rewrite io_bind_read by (rewrite ?len_le_bytes; lia).
  by apply io_read_field.
Qed.

Section Directory.
Context `{PyLib}.
Import Writer Reader.

Lemma dtype_of_typename_range (t : string) (d : Z) :
  dtype_of_typename t = Ok d -> 0 <= d < 3.
Proof.
  unfold dtype_of_typename.
  destruct (String.eqb t "INT32"); [intros [= <-]; lia|].
  destruct (String.eqb t "FLOAT64"); [intros [= <-]; lia|].
  destruct (String.eqb t "STRING"); [intros [= <-]; lia|done].
Qed.

(** The bytes of a directory entry, and the entry the reader parses from
    them. *)
Lemma directory_entry_inv (off csize usize : result Z) (nr : Z) (cm : col_meta) (e : bytes) :
  directory_entry off csize usize nr cm = Ok e ->
  exists d o c u,
    dtype_of_typename (cm_type cm) = Ok d /\ off = Ok o /\ csize = Ok c /\ usize = Ok u /\
    len (str_encode (cm_name cm)) < 2 ^ 16 /\
    0 <= o < 2 ^ 64 /\ 0 <= c < 2 ^ 64 /\ 0 <= u < 2 ^ 64 /\ 0 <= nr < 2 ^ 64 /\
    e = le_bytes 2 (len (str_encode (cm_name cm))) ++ str_encode (cm_name cm)
          ++ le_bytes 1 d ++ le_bytes 8 o ++ le_bytes 8 c ++ le_bytes 8 u ++ le_bytes 8 nr.
Proof.
  unfold directory_entry, pack_u16, pack_u8, pack_u64. intros He.
  inv_bind He. apply pack_unsigned_inv in Ha as [Hnl ->].
  inv_bind He. rename a into d, Ha into Hd.
  inv_bind He. apply pack_unsigned_inv in Ha as [_ ->].
  inv_bind He. inv_bind Ha. rename a0 into o, Ha0 into Ho.
  apply pack_unsigned_inv in Ha as [Ho' ->].
  inv_bind He. inv_bind Ha. rename a0 into c, Ha0 into Hc.
  apply pack_unsigned_inv in Ha as [Hc' ->].
  inv_bind He. inv_bind Ha. rename a0 into u, Ha0 into Hu.
  apply pack_unsigned_inv in Ha as [Hu' ->].
  inv_bind He. apply pack_unsigned_inv in Ha as [Hnr ->].
  injection He as <-.
  exists d, o, c, u. repeat (split; [first [done | lia]|]). done.
Qed.

Lemma parse_dir_entry_written (cm : col_meta) (d o c u nr : Z) (rest : bytes) :
  is_text (cm_name cm) ->
  len (str_encode (cm_name cm)) < 2 ^ 16 ->
  0 <= d < 256 -> 0 <= o < 2 ^ 64 -> 0 <= c < 2 ^ 64 -> 0 <= u < 2 ^ 64 ->
  0 <= nr < 2 ^ 64 ->
  parse_dir_entry
    ((le_bytes 2 (len (str_encode (cm_name cm))) ++ str_encode (cm_name cm)
        ++ le_bytes 1 d ++ le_bytes 8 o ++ le_bytes 8 c ++ le_bytes 8 u ++ le_bytes 8 nr)
       ++ rest)
  = Ok ({| name := cm_name cm; dtype := d; block_offset := o; compressed_size := c;
           uncompressed_size := u; num_values := nr |}, rest).
Proof.
  intros Htext Hname Hd Ho Hc Hu Hnr. unfold parse_dir_entry.
  pose proof (len_nonneg (str_encode (cm_name cm))) as Hn0.
  rewrite <- !app_assoc.
  rewrite io_bind_read by (rewrite ?len_le_bytes; lia).
  rewrite len_le_bytes. change (Z.of_nat 2 <? 2) with false. cbv iota.
  rewrite (io_read_field 2 (len (str_encode (cm_name cm)))) by done.
  rewrite io_bind_read by lia.
  rewrite (io_bind_lift _ _ _ _ (bytes_decode_encode _ Htext)).
  rewrite (io_read_unpack 1 d) by done.
  rewrite (io_read_unpack 8 o) by done.
  rewrite (io_read_unpack 8 c) by done.
  rewrite (io_read_unpack 8 u) by done.
  rewrite (io_read_unpack 8 nr) by done.
  done.
Qed.

Lemma parse_directory_written (off csize usize : nat -> result Z) (nr : Z) (rest : bytes)
      (schema : list col_meta) : forall (i : nat) (dir : bytes),
  Forall (fun cm => is_text (cm_name cm)) schema ->
  directory off csize usize nr i schema = Ok dir ->
  exists metas,
    parse_directory (length schema) (dir ++ rest) = Ok (metas, rest) /\
    length metas = length schema /\
    forall (j : nat) (cm : col_meta), schema !! j = Some cm ->
      exists meta, metas !! j = Some meta /\
                   entry_matches off csize usize nr (i + j) cm meta.
Proof.
  induction schema as [|cm schema IH]; intros i dir Htext Hdir.
  - cbn in Hdir. injection Hdir as <-. exists []. done.
  - cbn in Hdir. inv_bind Hdir. inv_bind Hdir. injection Hdir as <-.
    inversion Htext as [|? ? Hcm Htext']; subst.
    destruct (directory_entry_inv _ _ _ _ _ _ Ha)
      as (d & o & c & u & Hd & Ho & Hc & Hu & Hname & Ho' & Hc' & Hu' & Hnr & ->).
    destruct (IH _ _ Htext' Ha0) as (metas & Hparse & Hlen & Hmetas).
    pose proof (dtype_of_typename_range _ _ Hd) as Hdr.
    eexists (_ :: metas). split; [|split].
    + cbn [length parse_directory]. unfold io_bind at 1.
      rewrite <- app_assoc.
      rewrite (parse_dir_entry_written cm d o c u nr) by (first [done | lia]).
      unfold io_bind. rewrite Hparse. done.
    + cbn. by rewrite Hlen.
    + intros [|j] cm' Hj; cbn in Hj.
      * injection Hj as <-. eexists. split; [done|]. rewrite Nat.add_0_r.
        by exists d, o, c, u.
      * destruct (Hmetas j cm' Hj) as (meta & Hm & He). exists meta. split; [done|].
        by replace (i + S j)%nat with (S i + j)%nat by lia.
Qed.

(** The length of a directory does not depend on the values it records. *)
Lemma directory_length (off1 cs1 us1 off2 cs2 us2 : nat -> result Z) (nr1 nr2 : Z)
      (schema : list col_meta) : forall (i1 i2 : nat) (d1 d2 : bytes),
  directory off1 cs1 us1 nr1 i1 schema = Ok d1 ->
  directory off2 cs2 us2 nr2 i2 schema = Ok d2 ->
  length d1 = length d2.
Proof.
  induction schema as [|cm schema IH]; intros i1 i2 d1 d2 H1 H2.
  - cbn in *. by simplify_eq.
  - cbn in H1, H2. inv_bind H1. inv_bind H1. injection H1 as <-.
    inv_bind H2. inv_bind H2. injection H2 as <-.
    destruct (directory_entry_inv _ _ _ _ _ _ Ha) as (? & ? & ? & ? & _ & _ & _ & _ & _ & _ & _ & _ & _ & ->).
    destruct (directory_entry_inv _ _ _ _ _ _ Ha1) as (? & ? & ? & ? & _ & _ & _ & _ & _ & _ & _ & _ & _ & ->).
    rewrite !length_app, !length_le_bytes. rewrite (IH _ _ _ _ Ha0 Ha2). done.
Qed.

Lemma header_fixed_inv (sl : Z) (sj : bytes) (nr nc : Z) (fixed : bytes) :
  header_fixed sl sj nr nc = Ok fixed ->
  0 <= sl < 2 ^ 32 /\ 0 <= nr < 2 ^ 64 /\ 0 <= nc < 2 ^ 32 /\
  fixed = prefix12 ++ le_bytes 4 sl ++ sj ++ le_bytes 8 nr ++ le_bytes 4 nc.
Proof.
  unfold header_fixed. cbn [bind pack_u8 pack_u16 pack_unsigned VERSION ENDIANNESS RESERVED].
  intros Hf. inv_bind Hf. inv_bind Hf. inv_bind Hf. inv_bind Hf. inv_bind Hf. inv_bind Hf.
  injection Hf as <-.
  apply pack_unsigned_inv in Ha as [_ ->]. apply pack_unsigned_inv in Ha0 as [_ ->].
  apply pack_unsigned_inv in Ha1 as [_ ->].
  apply pack_unsigned_inv in Ha2 as [Hsl ->]. apply pack_unsigned_inv in Ha3 as [Hnr ->].
  apply pack_unsigned_inv in Ha4 as [Hnc ->].
  repeat (split; [done|]). done.
Qed.

Lemma parse_header_written (schema : list col_meta) (nr nc : Z)
      (rest : bytes) (members : list (string * json)) :
  is_text (json_dumps schema) ->
  json_loads (json_dumps schema) = Ok (JObj members) ->
  len (str_encode (json_dumps schema)) < 2 ^ 32 ->
  0 <= nr < 2 ^ 64 -> 0 <= nc < 2 ^ 32 ->
  header_fields
    ((prefix12 ++ le_bytes 4 (len (str_encode (json_dumps schema)))
        ++ str_encode (json_dumps schema) ++ le_bytes 8 nr ++ le_bytes 4 nc) ++ rest)
  = io_bind (parse_directory (Z.to_nat nc))
      (fun columns => io_ret (json_get "columns" (JArr []) members, nr, nc, columns)) rest.
Proof.
  intros Htext Hloads Hsl Hnr Hnc. unfold header_fields.
  pose proof (len_nonneg (str_encode (json_dumps schema))) as Hsl0.
  rewrite <- !app_assoc.
  rewrite (io_bind_read 12 prefix12) by done.
  change (len prefix12 <? 12) with false.
  change (negb (bytes_eqb (rstrip0 (slice prefix12 0 8)) (list_byte_of_string "CFILEv01")))
    with false.
  cbv iota.
  rewrite (io_bind_lift _ 1) by done.
  rewrite (io_bind_lift _ 0) by done.
  change (negb (1 =? 1)) with false. change (negb (0 =? 0)) with false. cbv iota.
  rewrite io_bind_read by (rewrite ?len_le_bytes; lia).
  rewrite len_le_bytes. change (Z.of_nat 4 <? 4) with false. cbv iota.
  rewrite (io_read_field 4) by done.
  rewrite io_bind_read by lia.
  rewrite Z.ltb_irrefl.
  rewrite (io_bind_lift _ _ _ _ (bytes_decode_encode _ Htext)).
  rewrite (io_bind_lift _ _ _ _ Hloads).
  rewrite (io_bind_lift _ (json_get "columns" (JArr []) members)) by done.
  rewrite (app_assoc (le_bytes 8 nr)).
  rewrite (io_bind_read 12 (le_bytes 8 nr ++ le_bytes 4 nc))
    by (rewrite ?len_app, ?len_le_bytes; lia).
  rewrite len_app, !len_le_bytes. change (Z.of_nat 8 + Z.of_nat 4 <? 12) with false.
  cbv iota.
  replace (slice (le_bytes 8 nr ++ le_bytes 4 nc) 0 8) with (le_bytes 8 nr)
    by (unfold slice; rewrite drop_0; by rewrite take_app_length').
  replace (slice (le_bytes 8 nr ++ le_bytes 4 nc) 8 12) with (le_bytes 4 nc)
    by (unfold slice; rewrite drop_app_length' by (by rewrite length_le_bytes);
        by rewrite firstn_all2 by (rewrite length_le_bytes; cbn; lia)).
  rewrite (io_read_field 8) by done.
  rewrite (io_read_field 4) by done.
  done.
Qed.

End Directory.

(** ** The layout of the blocks *)

Section Layout.
Import Writer.

Lemma align_up_eq (x : Z) : align_up x = x + (8 - x mod 8) mod 8.
Proof.
  unfold align_up. pose proof (Z.mod_pos_bound x 8 ltac:(lia)) as Hm.
  destruct (Z.eqb_spec (x mod 8) 0) as [E|E]; cbn [negb].
  - rewrite E. change ((8 - 0) mod 8) with 0. lia.
  - rewrite (Z.mod_small (8 - x mod 8)) by lia. done.
Qed.

Lemma align_up_aligned (x : Z) : align_up x mod 8 = 0.
Proof.
  unfold align_up. pose proof (Z.mod_pos_bound x 8 ltac:(lia)) as Hm.
  destruct (Z.eqb_spec (x mod 8) 0) as [E|E]; cbn [negb]; [done|].
  rewrite (Z.div_mod x 8) at 1 by lia.
  replace (8 * (x / 8) + x mod 8 + (8 - x mod 8)) with ((x / 8 + 1) * 8) by lia.
  apply Z.mod_mul. lia.
Qed.

Lemma align_up_bounds (x : Z) : x <= align_up x < x + 8.
Proof.
  rewrite align_up_eq. pose proof (Z.mod_pos_bound (8 - x mod 8) 8 ltac:(lia)). lia.
Qed.

(** The least multiple of 8 that is not below [x]. *)
Lemma align_up_least (x y : Z) : x <= y -> y mod 8 = 0 -> align_up x <= y.
Proof.
  intros Hxy Hy. pose proof (align_up_aligned x) as Ha. pose proof (align_up_bounds x) as Hb.
  apply Z.mod_divide in Hy as [q ->]; [|lia]. apply Z.mod_divide in Ha as [p Hp]; [|lia].
  rewrite Hp in *. nia.
Qed.

Lemma length_plan_offsets (comps : list bytes) : forall pos,
  length (plan_offsets pos comps) = length comps.
Proof. induction comps as [|c r IH]; intros pos; cbn; [done|by rewrite IH]. Qed.

Lemma plan_offsets_aligned (comps : list bytes) : forall pos,
  pos mod 8 = 0 -> Forall (fun off => off mod 8 = 0) (plan_offsets pos comps).
Proof.
  induction comps as [|c r IH]; intros pos Hpos; cbn; [constructor|].
  constructor; [done|]. apply IH, align_up_aligned.
Qed.

Lemma plan_offsets_next (comps : list bytes) : forall pos (j : nat) (off : Z) (comp : bytes),
  plan_offsets pos comps !! j = Some off -> comps !! j = Some comp ->
  (S j < length comps)%nat ->
  plan_offsets pos comps !! S j = Some (align_up (off + len comp)).
Proof.
  induction comps as [|c r IH]; intros pos j off comp Ho Hc Hlt; [done|].
  destruct j as [|j]; cbn in *.
  - simplify_eq. destruct r; cbn in *; [lia|done].
  - apply (IH _ _ _ _ Ho Hc). lia.
Qed.

(** Block [j] lies in the file at the offset planned for it. *)
Lemma write_blocks_at (comps : list bytes) : forall (pos : Z) (pre : bytes) (j : nat) (comp : bytes),
  pos = len pre -> comps !! j = Some comp ->
  exists off,
    plan_offsets pos comps !! j = Some off /\
    pos <= off /\
    off + len comp <= len (pre ++ write_blocks pos comps) /\
    take (length comp) (drop (Z.to_nat off) (pre ++ write_blocks pos comps)) = comp.
Proof.
  induction comps as [|c r IH]; intros pos pre j comp Hpos Hj; [done|].
  cbn [write_blocks plan_offsets].
  set (padb := (8 - (pos + len c) mod 8) mod 8).
  assert (Hpad : 0 <= padb < 8) by (apply Z.mod_pos_bound; lia).
  destruct j as [|j]; cbn in Hj.
  - injection Hj as ->. exists pos. split; [done|]. split; [lia|]. split.
    + rewrite !len_app.
      pose proof (len_nonneg (replicate (Z.to_nat padb) x00)).
      pose proof (len_nonneg (write_blocks (pos + len comp + padb) r)). lia.
    + rewrite Hpos. unfold len. rewrite Nat2Z.id, drop_app_length, take_app_length. done.
  - destruct (IH (align_up (pos + len c)) (pre ++ c ++ replicate (Z.to_nat padb) x00) j comp)
      as (off & Hoff & Hle & Hend & Htake); [|done|].
    + rewrite align_up_eq, !len_app. fold padb. unfold len at 4.
      rewrite length_replicate. lia.
    + rewrite align_up_eq in Hoff, Hle, Hend, Htake. fold padb in Hoff, Hle, Hend, Htake.
      rewrite <- !app_assoc in Hend, Htake.
      pose proof (len_nonneg c).
      exists off. split; [by rewrite align_up_eq|]. split; [lia|]. split; [done|done].
Qed.

End Layout.

(** ** The file [write_cfile] emits *)

Section Written.
Context `{PyLib}.
Import Writer.

Lemma write_cfile_inv (schema : list col_meta) (columns : list (list string)) (file : bytes) :
  write_cfile schema columns = Ok file ->
  exists (col0 : list string) (blocks : list (bytes * bytes)) (fixed dir : bytes),
    columns !! 0%nat = Some col0 /\
    mapM encode_column (zip schema columns) = Ok blocks /\
    header_fixed (len (str_encode (json_dumps schema))) (str_encode (json_dumps schema))
                 (len col0) (len schema) = Ok fixed /\
    directory
      (fun i => index (plan_offsets (len (fixed ++ dir) + (8 - len (fixed ++ dir) mod 8) mod 8)
                                    (map snd blocks)) i)
      (fun i => comp <- index (map snd blocks) i ;; Ok (len comp))
      (fun i => ub <- index (map fst blocks) i ;; Ok (len ub))
      (len col0) 0 schema = Ok dir /\
    file = (fixed ++ dir)
             ++ replicate (Z.to_nat ((8 - len (fixed ++ dir) mod 8) mod 8)) x00
             ++ write_blocks (len (fixed ++ dir) + (8 - len (fixed ++ dir) mod 8) mod 8)
                             (map snd blocks).
Proof.
  unfold write_cfile. intros Hw.
  inv_bind Hw. rename a into col0. apply index_Ok in Ha.
  inv_bind Hw. rename a into blocks, Ha0 into Hblocks.
  inv_bind Hw. rename a into fixed, Ha0 into Hfixed.
  inv_bind Hw. rename a into dir0, Ha0 into Hdir0.
  inv_bind Hw. rename a into dir, Ha0 into Hdir.
  injection Hw as <-.
  assert (Hlen : len (fixed ++ dir0) = len (fixed ++ dir)).
  { unfold len. rewrite !length_app. by rewrite (directory_length _ _ _ _ _ _ _ _ _ _ _ _ _ Hdir0 Hdir). }
  rewrite Hlen in Hdir |- *.
  exists col0, blocks, fixed, dir. done.
Qed.

(** The reader's view of a written file: the header is parsed in full, and
    every schema entry has the directory entry the writer planned for it. *)
Lemma reader_of_written (schema : list col_meta) (columns : list (list string))
      (file : bytes) :
  json_lossless ->
  Forall (fun cm => is_text (cm_name cm)) schema ->
  write_cfile schema columns = Ok file ->
  exists (col0 : list string) (blocks : list (bytes * bytes)) (header : bytes) (pad : Z)
         (self : Reader.CFileReader),
    columns !! 0%nat = Some col0 /\
    mapM encode_column (zip schema columns) = Ok blocks /\
    0 <= pad < 8 /\ (len header + pad) mod 8 = 0 /\
    file = header ++ replicate (Z.to_nat pad) x00
                  ++ write_blocks (len header + pad) (map snd blocks) /\
    Reader.header_fields file
    = Ok ((Reader.schema self, Reader.num_rows self, Reader.num_columns self,
           Reader.columns self),
          replicate (Z.to_nat pad) x00
            ++ write_blocks (len header + pad) (map snd blocks)) /\
    Reader.CFileReader_init file = Ok self /\
    Reader.path self = file /\
    Reader.num_rows self = len col0 /\
    Reader.num_columns self = len schema /\
    length (Reader.columns self) = length schema /\
    forall (j : nat) (cm : col_meta), schema !! j = Some cm ->
      exists (d off : Z) (ub comp : bytes),
        dtype_of_typename (cm_type cm) = Ok d /\
        blocks !! j = Some (ub, comp) /\
        plan_offsets (len header + pad) (map snd blocks) !! j = Some off /\
        0 <= off /\ off + len comp <= len file /\
        take (length comp) (drop (Z.to_nat off) file) = comp /\
        Reader.columns self !! j
        = Some {| Reader.name := cm_name cm; Reader.dtype := d; Reader.block_offset := off;
                  Reader.compressed_size := len comp; Reader.uncompressed_size := len ub;
                  Reader.num_values := len col0 |}.
Proof.
  intros Hjson Htext Hw.
  destruct (write_cfile_inv _ _ _ Hw) as (col0 & blocks & fixed & dir & Hcol0 & Hblocks
                                             & Hfixed & Hdir & Hfile).
  set (header := fixed ++ dir) in *.
  set (pad := (8 - len header mod 8) mod 8) in *.
  assert (Hpad : 0 <= pad < 8) by (apply Z.mod_pos_bound; lia).
  assert (Halign : (len header + pad) mod 8 = 0).
  { subst pad. rewrite <- align_up_eq. apply align_up_aligned. }
  destruct (header_fixed_inv _ _ _ _ _ Hfixed) as (Hsl & Hnr & Hnc & Hfx).
  destruct (Hjson schema) as (Hjt & members & Hloads).
  destruct (parse_directory_written _ _ _ _
              (replicate (Z.to_nat pad) x00 ++ write_blocks (len header + pad) (map snd blocks))
              schema 0%nat dir Htext Hdir) as (metas & Hparse & Hlen & Hmetas).
  exists col0, blocks, header, pad.
  eexists {| Reader.path := file; Reader.schema := json_get "columns" (JArr []) members;
             Reader.num_rows := len col0; Reader.num_columns := len schema;
             Reader.columns := metas |}.
  split; [done|]. split; [done|]. split; [done|]. split; [done|]. split; [done|].
  assert (Hfields : Reader.header_fields file
                    = Ok ((json_get "columns" (JArr []) members, len col0, len schema, metas),
                          replicate (Z.to_nat pad) x00
                            ++ write_blocks (len header + pad) (map snd blocks))).
  { set (tail := replicate (Z.to_nat pad) x00
                   ++ write_blocks (len header + pad) (map snd blocks)) in *.
    rewrite Hfile at 1. unfold header. rewrite Hfx.
    rewrite <- (app_assoc _ dir).
    rewrite (parse_header_written schema (len col0) (len schema) _ members)
      by (first [done | lia]).
    unfold io_bind. unfold len at 1. rewrite Nat2Z.id. rewrite Hparse. done. }
  split; [done|].
  split; [unfold Reader.CFileReader_init, Reader._parse_header; cbn [Reader.path];
          by rewrite Hfields|].
  repeat (split; [done|]).
  intros j cm Hj. destruct (Hmetas j cm Hj) as (meta & Hm & d & o & c & u & Hd & Ho & Hc & Hu & ->).
  cbn in Ho, Hc, Hu. apply index_Ok in Ho.
  inv_bind Hc. injection Hc as <-. apply index_Ok in Ha. rename a into comp.
  inv_bind Hu. injection Hu as <-. apply index_Ok in Ha0. rename a into ub.
  rewrite list_lookup_fmap in Ha, Ha0.
  destruct (blocks !! j) as [[ub' comp']|] eqn:Hb; [|done]. cbn in Ha, Ha0.
  injection Ha as <-. injection Ha0 as <-.
  exists d, o, ub', comp'. split; [done|]. split; [done|]. split; [done|].
  destruct (write_blocks_at (map snd blocks) (len header + pad)
              (header ++ replicate (Z.to_nat pad) x00) j comp')
    as (off & Hoff2 & Hge & Hend & Htake).
  { rewrite len_app. unfold len at 3. rewrite length_replicate. lia. }
  { rewrite list_lookup_fmap. exact (fmap_Some_2 snd _ _ Hb). }
  rewrite Ho in Hoff2. injection Hoff2 as <-.
  rewrite <- app_assoc in Hend, Htake. rewrite <- Hfile in Hend, Htake.
  pose proof (len_nonneg header). split; [lia|]. done.
Qed.

End Written.

(** C2: in a file [write_cfile] emits, the header the reader parses is
    followed by fewer than eight zero bytes and then by the blocks; every
    offset of the directory is a multiple of 8; the first one is the length
    of the header plus the padding; each next one is the multiple of 8 at or
    after the end of the block before it, and within 7 bytes of that end; and
    the bytes of the file at a directory entry's offset are that column's
    compressed block. *)
Theorem written_blocks_aligned (L : PyLib) (schema : list col_meta)
        (columns : list (list string)) (file : bytes) :
  json_lossless ->
  Forall (fun cm => is_text (cm_name cm)) schema ->
  Writer.write_cfile schema columns = Ok file ->
  exists (self : Reader.CFileReader) (header body : bytes) (pad : Z)
         (blocks : list (bytes * bytes)),
    Reader.CFileReader_init file = Ok self /\
    file = header ++ replicate (Z.to_nat pad) x00 ++ body /\
    Reader.header_fields file
    = Ok ((Reader.schema self, Reader.num_rows self, Reader.num_columns self,
           Reader.columns self), replicate (Z.to_nat pad) x00 ++ body) /\
    0 <= pad < 8 /\
    mapM Writer.encode_column (zip schema columns) = Ok blocks /\
    length (Reader.columns self) = length schema /\
    Forall (fun c => Reader.block_offset c mod 8 = 0) (Reader.columns self) /\
    (forall c, Reader.columns self !! 0%nat = Some c ->
               Reader.block_offset c = len header + pad) /\
    (forall (j : nat) (c c' : Reader.ColumnMeta),
       Reader.columns self !! j = Some c -> Reader.columns self !! S j = Some c' ->
       Reader.block_offset c + Reader.compressed_size c <= Reader.block_offset c'
       < Reader.block_offset c + Reader.compressed_size c + 8) /\
    (forall (j : nat) (c : Reader.ColumnMeta),
       Reader.columns self !! j = Some c ->
       exists ub : bytes,
         blocks !! j
         = Some (ub, take (Z.to_nat (Reader.compressed_size c))
                          (drop (Z.to_nat (Reader.block_offset c)) file))).
Proof.
  intros Hjson Htext Hw.
  destruct (reader_of_written _ _ _ Hjson Htext Hw)
    as (col0 & blocks & header & pad & self & Hcol0 & Hblocks & Hpad & Halign & Hfile
        & Hparse & Hinit & Hpath & Hnr & Hnc & Hlen & Hcols).
  set (start := len header + pad) in *.
  set (comps := map snd blocks) in *.
  assert (Hmeta : forall j c, Reader.columns self !! j = Some c ->
            exists ub comp,
              blocks !! j = Some (ub, comp) /\
              Writer.plan_offsets start comps !! j = Some (Reader.block_offset c) /\
              Reader.compressed_size c = len comp).
  { intros j c Hc.
    destruct (lookup_lt_is_Some_2 schema j) as [cm Hcm];
      [rewrite <- Hlen; by eapply lookup_lt_Some|].
    destruct (Hcols j cm Hcm) as (d & off & ub & comp & _ & Hb & Hoff & _ & _ & _ & Hc').
    rewrite Hc in Hc'. injection Hc' as ->. exists ub, comp. done. }
  exists self, header, (Writer.write_blocks start comps), pad, blocks.
  split; [done|].
  split; [done|]. split; [done|]. split; [done|]. split; [done|]. split; [done|].
  split; [|split; [|split]].
  - apply Forall_forall. intros c Hc. apply list_elem_of_lookup in Hc as [j Hj].
    destruct (Hmeta j c Hj) as (ub & comp & _ & Hoff & _).
    pose proof (plan_offsets_aligned comps start Halign) as Hall.
    by eapply Forall_lookup_1 in Hall.
  - intros c Hc. destruct (Hmeta _ _ Hc) as (ub & comp & Hb & Hoff & _).
    destruct comps as [|c0 r]; cbn in Hoff; [done|]. by injection Hoff as <-.
  - intros j c c' Hc Hc'.
    destruct (Hmeta _ _ Hc) as (ub & comp & Hb & Hoff & Hsize).
    destruct (Hmeta _ _ Hc') as (ub' & comp' & Hb' & Hoff' & _).
    assert (Hcomp : comps !! j = Some comp) by (subst comps; rewrite list_lookup_fmap; exact (fmap_Some_2 snd _ _ Hb)).
    rewrite (plan_offsets_next comps start j _ comp Hoff Hcomp) in Hoff'.
    + injection Hoff' as <-. rewrite Hsize. apply align_up_bounds.
    + apply lookup_lt_Some in Hb'. subst comps. by rewrite length_map.
  - intros j c Hc. destruct (Hmeta _ _ Hc) as (ub & comp & Hb & Hoff & Hsize).
    exists ub. rewrite Hb. do 2 f_equal.
    assert (Hcomp : comps !! j = Some comp) by (subst comps; rewrite list_lookup_fmap; exact (fmap_Some_2 snd _ _ Hb)).
    destruct (write_blocks_at comps start (header ++ replicate (Z.to_nat pad) x00) j comp)
      as (off & Hoff2 & _ & _ & Htake); [|done|].
    + rewrite len_app. unfold len at 2. rewrite length_replicate. subst start. lia.
    + rewrite Hoff in Hoff2. injection Hoff2 as <-.
      rewrite <- app_assoc in Htake. rewrite <- Hfile in Htake.
      rewrite Hsize. unfold len. by rewrite Nat2Z.id.
Qed.

(** ** The round trip of a column *)

Lemma signed32_wrap (z : Z) : - 2 ^ 31 <= z < 2 ^ 31 -> signed32 (z mod 2 ^ 32) = z.
Proof.
  intros Hz. unfold signed32.
  destruct (Z.leb_spec 0 z) as [Hpos|Hneg].
  - rewrite Z.mod_small by lia. destruct (Z.ltb_spec z (2 ^ 31)); lia.
  - replace (z mod 2 ^ 32) with (z + 2 ^ 32).
    + destruct (Z.ltb_spec (z + 2 ^ 32) (2 ^ 31)); lia.
    + rewrite <- (Z.mod_small (z + 2 ^ 32) (2 ^ 32)) by lia.
      replace (z + 2 ^ 32) with (z + 1 * 2 ^ 32) by lia. apply Z.mod_add. lia.
Qed.

Section ColumnRoundTrip.
Context `{PyLib}.
Import Writer Reader.

Lemma encode_int32_coerce (v : string) (b : bytes) :
  encode_int32 v = Ok b ->
  exists z, coerce "INT32" v = Ok (VInt z) /\ - 2 ^ 31 <= z < 2 ^ 31 /\
            b = le_bytes 4 (z mod 2 ^ 32).
Proof.
  unfold encode_int32, pack_i32, coerce. cbn [String.eqb Ascii.eqb Bool.eqb].
  intros Hb. inv_bind Hb. rename a into z.
  destruct (Z.leb_spec (- 2 ^ 31) z); [|done]. destruct (Z.ltb_spec z (2 ^ 31)); [|done].
  injection Hb as <-. exists z.
  destruct (String.eqb v EmptyString).
  - injection Ha as <-. done.
  - destruct (float_of_str v); [|done]. rewrite Ha. done.
Qed.

Lemma encode_float64_coerce (v : string) (b : bytes) :
  floats_are_doubles ->
  encode_float64 v = Ok b ->
  exists f, coerce "FLOAT64" v = Ok (VFloat f) /\ 0 <= f < 2 ^ 64 /\ b = le_bytes 8 f.
Proof.
  unfold encode_float64, pack_d, coerce. cbn [String.eqb Ascii.eqb Bool.eqb].
  intros Hd Hb. inv_bind Hb. rename a into f. injection Hb as <-. exists f.
  destruct (String.eqb v EmptyString).
  - injection Ha as <-. split; [done|]. split; [lia|done].
  - destruct (float_of_str v) as [f'|] eqn:Hf; [|done]. injection Ha as ->.
    pose proof (Hd _ _ Hf) as Hr. split; [done|]. split; [done|].
    by rewrite Z.mod_small.
Qed.

Lemma mapM_encode_int32 (values : list string) : forall bs,
  mapM encode_int32 values = Ok bs ->
  exists zs, mapM (coerce "INT32") values = Ok (map VInt zs) /\
             Forall (fun z => - 2 ^ 31 <= z < 2 ^ 31) zs /\
             bs = map (le_bytes 4) (map (fun z => z mod 2 ^ 32) zs).
Proof.
  induction values as [|v values IH]; intros bs Hm; cbn in Hm.
  - injection Hm as <-. by exists [].
  - inv_bind Hm. inv_bind Hm. injection Hm as <-.
    destruct (encode_int32_coerce _ _ Ha) as (z & Hc & Hz & ->).
    destruct (IH _ Ha0) as (zs & Hcs & Hzs & ->).
    exists (z :: zs). split; [|split; [by constructor|done]].
    cbn [mapM]. rewrite Hc. cbn [bind]. rewrite Hcs. done.
Qed.

Lemma mapM_encode_float64 (values : list string) : forall bs,
  floats_are_doubles ->
  mapM encode_float64 values = Ok bs ->
  exists fs, mapM (coerce "FLOAT64") values = Ok (map VFloat fs) /\
             Forall (fun f => 0 <= f < 2 ^ 64) fs /\
             bs = map (le_bytes 8) fs.
Proof.
  induction values as [|v values IH]; intros bs Hd Hm; cbn in Hm.
  - injection Hm as <-. by exists [].
  - inv_bind Hm. inv_bind Hm. injection Hm as <-.
    destruct (encode_float64_coerce _ _ Hd Ha) as (f & Hc & Hf & ->).
    destruct (IH _ Hd Ha0) as (fs & Hcs & Hfs & ->).
    exists (f :: fs). split; [|split; [by constructor|done]].
    cbn [mapM]. rewrite Hc. cbn [bind]. rewrite Hcs. done.
Qed.

Lemma mapM_coerce_STRING (values : list string) :
  mapM (coerce "STRING") values = Ok (map VStr values).
Proof.
  induction values as [|v values IH]; [done|]. cbn [mapM map].
  rewrite IH. done.
Qed.

Lemma dtype_of_typename_inv (ty : string) (d : Z) :
  dtype_of_typename ty = Ok d ->
  (ty = "INT32"%string /\ d = 0) \/ (ty = "FLOAT64"%string /\ d = 1)
  \/ (ty = "STRING"%string /\ d = 2).
Proof.
  unfold dtype_of_typename.
  destruct (String.eqb_spec ty "INT32"); [intros [= <-]; by left|].
  destruct (String.eqb_spec ty "FLOAT64"); [intros [= <-]; right; by left|].
  destruct (String.eqb_spec ty "STRING"); [intros [= <-]; right; by right|done].
Qed.

(** Decoding the block built for a column gives the coerced values. *)
Lemma decode_built_block (ty : string) (values : list string) (ub : bytes)
      (meta : ColumnMeta) :
  floats_are_doubles ->
  Forall is_text values ->
  build_uncompressed_block ty values = Ok ub ->
  dtype_of_typename ty = Ok (dtype meta) ->
  num_values meta = len values ->
  exists vals, mapM (coerce ty) values = Ok vals /\ decode_values meta ub = Ok vals.
Proof.
  intros Hd Htext Hb Hty Hn.
  destruct (dtype_of_typename_inv _ _ Hty) as [[-> Hdt]|[[-> Hdt]|[-> Hdt]]].
  - rewrite build_INT32 in Hb. inv_bind Hb. injection Hb as <-.
    destruct (mapM_encode_int32 _ _ Ha) as (zs & Hc & Hzs & ->).
    exists (map VInt zs). split; [done|].
    unfold decode_values. rewrite Hdt, Hn. cbn [Z.eqb DT_INT32].
    apply for_range_Ok.
    + unfold len. rewrite length_map. f_equal.
      apply mapM_length in Hc. by rewrite length_map in Hc.
    + intros i x Hx. rewrite list_lookup_fmap in Hx.
      destruct (zs !! i) as [z|] eqn:Hz; [|done]. injection Hx as <-.
      rewrite <- (app_nil_r (concat _)).
      rewrite (unpack_from_table 4 _ [] i (z mod 2 ^ 32)).
      * cbn [bind]. rewrite signed32_wrap; [done|]. by eapply Forall_lookup_1 in Hzs.
      * apply Forall_forall. intros y Hy. apply list_elem_of_fmap in Hy as (z' & -> & _).
        change (256 ^ Z.of_nat 4) with (2 ^ 32). apply Z.mod_pos_bound. lia.
      * by rewrite list_lookup_fmap, Hz.
  - rewrite build_FLOAT64 in Hb. inv_bind Hb. injection Hb as <-.
    destruct (mapM_encode_float64 _ _ Hd Ha) as (fs & Hc & Hfs & ->).
    exists (map VFloat fs). split; [done|].
    unfold decode_values. rewrite Hdt, Hn. cbn [Z.eqb DT_INT32 DT_FLOAT64 Pos.eqb].
    apply for_range_Ok.
    + unfold len. rewrite length_map. f_equal.
      apply mapM_length in Hc. by rewrite length_map in Hc.
    + intros i x Hx. rewrite list_lookup_fmap in Hx.
      destruct (fs !! i) as [f|] eqn:Hf; [|done]. injection Hx as <-.
      rewrite <- (app_nil_r (concat _)).
      rewrite (unpack_from_table 8 _ [] i f); [done| |done].
      by change (256 ^ Z.of_nat 8) with (2 ^ 64).
  - exists (map VStr values). split; [apply mapM_coerce_STRING|].
    by apply decode_STRING_block.
Qed.

End ColumnRoundTrip.

(** ** The round trip of a table *)

Section TableRoundTrip.
Context `{PyLib}.
Import Writer Reader.

Lemma find_first_of_name (cols : list ColumnMeta) : forall (j : nat) (c : ColumnMeta),
  NoDup (map name cols) -> cols !! j = Some c ->
  find (fun c' => String.eqb (name c') (name c)) cols = Some c.
Proof.
  induction cols as [|c0 cols IH]; intros j c Hnd Hj; [done|].
  apply NoDup_cons in Hnd as [Hnin Hnd]. cbn [find].
  destruct j as [|j]; cbn in Hj.
  - injection Hj as ->. by rewrite String.eqb_refl.
  - destruct (String.eqb_spec (name c0) (name c)) as [E|E].
    + exfalso. apply Hnin. rewrite E. apply list_elem_of_fmap. exists c. split; [done|].
      by eapply list_elem_of_lookup_2.
    + by eapply IH.
Qed.

Lemma encode_column_inv (cm : col_meta) (col : list string) (ub comp : bytes) :
  encode_column (cm, col) = Ok (ub, comp) ->
  build_uncompressed_block (cm_type cm) col = Ok ub /\ comp = zlib_compress ub.
Proof.
  unfold encode_column. cbn [fst snd]. intros He. inv_bind He. by injection He as <- <-.
Qed.

(** Everything the reader needs to read back column [j] of a written file. *)
Lemma read_column_written (schema : list col_meta) (table : list (list string)) (n : nat)
      (file : bytes) :
  zlib_lossless -> json_lossless -> floats_are_doubles ->
  table_of schema table n ->
  write_cfile schema table = Ok file ->
  len file < 2 ^ 63 ->
  exists self : CFileReader,
    CFileReader_init file = Ok self /\
    num_rows self = Z.of_nat n /\
    map name (columns self) = map cm_name schema /\
    forall (j : nat) (cm : col_meta) (col : list string),
      schema !! j = Some cm -> table !! j = Some col ->
      exists vals, read_column self (cm_name cm) = Ok vals /\
                   mapM (coerce (cm_type cm)) col = Ok vals.
Proof.
  intros Hzlib Hjson Hdbl (Hlen & Hrect & Hnd & Hnames & Htext) Hw Hsize.
  destruct (reader_of_written _ _ _ Hjson Hnames Hw)
    as (col0 & blocks & header & pad & self & Hcol0 & Hblocks & Hpad & Halign & Hfile
        & Hparse & Hinit & Hpath & Hnr & Hnc & Hclen & Hcols).
  assert (Hn : length col0 = n) by (by eapply Forall_lookup_1 in Hrect).
  assert (Hmap : map name (columns self) = map cm_name schema).
  { apply list_eq. intros j. rewrite !list_lookup_fmap.
    destruct (schema !! j) as [cm|] eqn:Hcm.
    - destruct (Hcols j cm Hcm) as (d & off & ub & comp & _ & _ & _ & _ & _ & _ & ->). done.
    - apply lookup_ge_None in Hcm. rewrite (lookup_ge_None_2 (columns self) j) by lia. done. }
  exists self. split; [done|].
  split; [rewrite Hnr; unfold len; by rewrite Hn|]. split; [done|].
  intros j cm col Hcm Hcol.
  destruct (Hcols j cm Hcm)
    as (d & off & ub & comp & Hd & Hb & Hoff & Hoff0 & Hend & Htake & Hmeta).
  assert (Hzip : zip schema table !! j = Some (cm, col))
    by (apply lookup_zip_Some; by split).
  destruct (mapM_lookup _ _ _ _ _ Hblocks Hzip) as (b & Hb' & Henc).
  rewrite Hb in Hb'. injection Hb' as <-.
  apply encode_column_inv in Henc as [Hbuild ->].
  set (meta := {| name := cm_name cm; dtype := d; block_offset := off;
                  compressed_size := len (zlib_compress ub);
                  uncompressed_size := len ub; num_values := len col0 |}) in *.
  destruct (decode_built_block (cm_type cm) col ub meta) as (vals & Hvals & Hdec).
  { done. }
  { by eapply Forall_lookup_1 in Htext. }
  { done. }
  { done. }
  { cbn. unfold len. f_equal. eapply Forall_lookup_1 in Hrect; [|exact Hcol]. lia. }
  exists vals. split; [|done].
  unfold read_column.
  assert (Hfind : find (fun c' => String.eqb (name c') (cm_name cm)) (columns self)
                  = Some meta)
    by (apply (find_first_of_name (columns self) j meta); [by rewrite Hmap|done]).
  rewrite Hfind.
  pose proof (len_nonneg (zlib_compress ub)) as Hc0.
  rewrite read_column_uncompressed_eq by (cbn; lia).
  cbn [block_offset compressed_size uncompressed_size meta].
  rewrite Hpath.
  replace (Z.to_nat (len (zlib_compress ub))) with (length (zlib_compress ub))
    by (unfold len; by rewrite Nat2Z.id).
  rewrite Htake.
  cbv zeta. rewrite Z.eqb_refl. cbn [negb]. rewrite Hzlib. cbn [bind].
  rewrite Z.eqb_refl. cbn [negb bind]. done.
Qed.

End TableRoundTrip.

(** ** The reference library honours the contracts *)

Module RefFacts.

(** *** Doubles *)

Lemma sign_bit_range (s : bool) : 0 <= Ref.sign_bit s <= 2 ^ 63.
Proof. destruct s; cbn; lia. Qed.

Lemma bits_of_spec_float_range (x : spec_float) : 0 <= Ref.bits_of_spec_float x < 2 ^ 64.
Proof.
  destruct x as [s|s| |s m e]; cbn [Ref.bits_of_spec_float].
  - pose proof (sign_bit_range s). destruct s; cbn; lia.
  - destruct s; cbn; lia.
  - cbn. lia.
  - pose proof (Z.mod_pos_bound (Z.pos m) (2 ^ 52) ltac:(lia)).
    pose proof (Z.mod_pos_bound (e + 1075) 2048 ltac:(lia)).
    assert (Hs : Ref.sign_bit s = 0 \/ Ref.sign_bit s = 2 ^ 63) by (destruct s; cbn; lia).
    destruct (Z.pos (digits2_pos m) =? 53); lia.
Qed.

Lemma float_of_str_range : @floats_are_doubles Ref.lib.
Proof.
  intros s f. change (Ref.float_of_str s = Some f -> 0 <= f < 2 ^ 64). unfold Ref.float_of_str.
  destruct (Ref.sign (Ref.strip (Ref.chars s))) as [neg cs].
  destruct (_ || _).
  - intros [= <-]. apply (bits_of_spec_float_range (S754_infinity neg)).
  - destruct (bool_decide _).
    + intros [= <-]. destruct neg; cbn; lia.
    + destruct (Ref.floatnumber cs) as [[[ip fd] x]|]; [|done].
      intros [= <-]. apply bits_of_spec_float_range.
Qed.

(** *** zlib *)

Lemma bytes_eqb_refl (bs : bytes) : bytes_eqb bs bs = true.
Proof.
  induction bs as [|b bs IH]; [done|]. cbn [bytes_eqb]. rewrite IH.
  by rewrite (Byte.byte_dec_lb eq_refl).
Qed.

Lemma le_bytes_2 (v : Z) : le_bytes 2 v = [byte_of_Z v; byte_of_Z (v / 256)].
Proof. done. Qed.

Lemma le_value_2 (v : Z) :
  0 <= v < 65536 -> le_value [byte_of_Z v; byte_of_Z (v / 256)] = v.
Proof. intros Hv. rewrite <- le_bytes_2. by apply le_value_le_bytes. Qed.

Lemma inflate_stored_blocks (k : nat) : forall (data tail : bytes) (f : nat),
  (length data < k)%nat -> (k <= f)%nat ->
  Ref.inflate_stored f (Ref.stored_blocks k data ++ tail) = Ok (data, tail).
Proof.
  induction k as [|k IH]; intros data tail f Hk Hf; [lia|].
  destruct f as [|f]; [lia|].
  cbn [Ref.stored_blocks].
  destruct (Z.leb_spec (len data) 65535) as [Hsmall|Hbig].
  - rewrite !le_bytes_2. cbn [app Ref.inflate_stored].
    pose proof (len_nonneg data).
    rewrite !le_value_2 by lia.
    change (Z_of_byte x01) with 1.
    change (negb (Z.land (Z.shiftr 1 1) 3 =? 0)) with false. cbv iota.
    replace (len data + (65535 - len data) =? 65535) with true by (symmetry; apply Z.eqb_eq; lia).
    cbn [negb].
    replace (Z.to_nat (len data)) with (length data) by (unfold len; by rewrite Nat2Z.id).
    rewrite take_app_length, drop_app_length.
    rewrite Z.ltb_irrefl. done.
  - rewrite !le_bytes_2. cbn [app Ref.inflate_stored].
    rewrite !le_value_2 by lia.
    change (Z_of_byte x00) with 0.
    change (negb (Z.land (Z.shiftr 0 1) 3 =? 0)) with false. cbv iota.
    change (negb (65535 + 0 =? 65535)) with false. cbv iota.
    change (Z.to_nat 65535) with Ref.chunk.
    assert (Hchunk : Z.of_nat Ref.chunk = 65535) by (unfold Ref.chunk; lia).
    assert (Hlt : length (take Ref.chunk data) = Ref.chunk).
    { rewrite length_take. unfold len in Hbig. lia. }
    rewrite <- app_assoc.
    rewrite !take_app_length' by done. rewrite !drop_app_length' by done.
    unfold len at 1. rewrite Hlt, Hchunk. change (65535 <? 65535) with false.
    change (Z.odd 0) with false. cbv iota.
    rewrite IH.
    + cbn [bind fst snd]. by rewrite take_drop.
    + rewrite length_drop. unfold len in Hbig. lia.
    + lia.
Qed.

Lemma length_stored_blocks (k : nat) : forall data : bytes,
  (length data < k)%nat -> (length data <= length (Ref.stored_blocks k data))%nat.
Proof.
  induction k as [|k IH]; intros data Hk; [lia|].
  cbn [Ref.stored_blocks]. destruct (Z.leb_spec (len data) 65535) as [Hsmall|Hbig].
  - cbn [length]. rewrite !length_app. lia.
  - cbn [length]. rewrite !length_app, length_take.
    assert (Hchunk : Z.of_nat Ref.chunk = 65535) by (unfold Ref.chunk; lia).
    unfold len in Hbig.
    specialize (IH (drop Ref.chunk data)). rewrite length_drop in IH.
    specialize (IH ltac:(lia)). lia.
Qed.

Lemma decompress_compress : @zlib_lossless Ref.lib.
Proof.
  intros data. change (Ref.zlib_decompress (Ref.zlib_compress data) = Ok data).
  unfold Ref.zlib_compress, Ref.zlib_decompress. cbn [app].
  change (Z_of_byte x78) with 120. change (Z_of_byte x01) with 1.
  change (negb _) with false at 1. cbv iota.
  rewrite (inflate_stored_blocks (S (length data))).
  - cbn [bind fst snd]. rewrite firstn_all2; [by rewrite bytes_eqb_refl|].
    unfold Ref.be_bytes. rewrite length_rev, length_le_bytes. lia.
  - lia.
  - cbn [length]. rewrite length_app.
    pose proof (length_stored_blocks (S (length data)) data ltac:(lia)). lia.
Qed.

(** *** JSON *)

Lemma valid_utf8_ascii (bs : bytes) :
  Forall (fun b => Z_of_byte b < 128) bs -> valid_utf8 bs = true.
Proof.
  unfold valid_utf8. induction 1 as [|b bs Hb _ IH]; [done|].
  cbn [utf8_code_points]. destruct (Z.ltb_spec (Z_of_byte b) 128); [|lia].
  by destruct (utf8_code_points bs).
Qed.

Lemma scanned_nil : Ref.scanned [].
Proof. split; [constructor|]. by intros. Qed.

Lemma scanned_app (e1 e2 : bytes) : Ref.scanned e1 -> Ref.scanned e2 -> Ref.scanned (e1 ++ e2).
Proof.
  intros [Ha1 H1] [Ha2 H2]. split; [by apply Forall_app|].
  intros rest tok rest' Hs. rewrite <- !app_assoc. by apply H1, H2.
Qed.

Lemma scanned_plain (b : byte) : Ref.plain b -> Ref.scanned [b].
Proof.
  intros (Ha & Hq & Hb). split; [by repeat constructor|].
  intros rest tok rest' Hs. cbn [app Ref.scan_string].
  destruct (Byte.eqb b Ref.quote) eqn:E1; [apply Byte.byte_dec_bl in E1; by subst|].
  destruct (Byte.eqb b Ref.backslash) eqn:E2; [apply Byte.byte_dec_bl in E2; by subst|].
  by rewrite Hs.
Qed.

Lemma scanned_escape (c : byte) : Z_of_byte c < 128 -> Ref.scanned [Ref.backslash; c].
Proof.
  intros Hc. split; [constructor; [done|]; constructor; [done|constructor]|].
  intros rest tok rest' Hs. cbn [app Ref.scan_string].
  change (Byte.eqb Ref.backslash Ref.quote) with false.
  change (Byte.eqb Ref.backslash Ref.backslash) with true. cbv iota.
  by rewrite Hs.
Qed.

Lemma plain_byte_of_Z (v : Z) :
  0 <= v < 128 -> v <> 34 -> v <> 92 -> Ref.plain (byte_of_Z v).
Proof.
  intros Hv Hq Hb. unfold Ref.plain. rewrite Z_of_byte_of_Z, Z.mod_small by lia. lia.
Qed.

Lemma plain_hex_digit (d : Z) : 0 <= d < 16 -> Ref.plain (Ref.hex_digit d).
Proof.
  intros Hd. unfold Ref.hex_digit. destruct (Z.ltb_spec d 10); apply plain_byte_of_Z; lia.
Qed.

Lemma scanned_u_escape (v : Z) : Ref.scanned (Ref.u_escape v).
Proof.
  unfold Ref.u_escape, Ref.hex4.
  assert (Hm : forall x, 0 <= x mod 16 < 16) by (intros x; apply Z.mod_pos_bound; lia).
  change (Ref.backslash :: x75 :: ?l) with ([Ref.backslash; x75] ++ l).
  apply scanned_app; [by apply scanned_escape|].
  apply (scanned_app [_]); [apply scanned_plain, plain_hex_digit, Hm|].
  apply (scanned_app [_]); [apply scanned_plain, plain_hex_digit, Hm|].
  apply (scanned_app [_]); [apply scanned_plain, plain_hex_digit, Hm|].
  apply scanned_plain, plain_hex_digit, Hm.
Qed.

Lemma scanned_json_escape (cp : Z) : Ref.scanned (Ref.json_escape cp).
Proof.
  unfold Ref.json_escape.
  destruct (Z.eqb_spec cp 34); [by apply scanned_escape|].
  destruct (Z.eqb_spec cp 92); [by apply scanned_escape|].
  destruct (cp =? 10); [by apply scanned_escape|].
  destruct (cp =? 13); [by apply scanned_escape|].
  destruct (cp =? 9); [by apply scanned_escape|].
  destruct (cp =? 8); [by apply scanned_escape|].
  destruct (cp =? 12); [by apply scanned_escape|].
  destruct (Z.leb_spec 32 cp); cbn [andb].
  - destruct (Z.leb_spec cp 126).
    + apply scanned_plain, plain_byte_of_Z; lia.
    + destruct (cp <? 65536); [apply scanned_u_escape|].
      apply scanned_app; apply scanned_u_escape.
  - destruct (cp <? 65536); [apply scanned_u_escape|].
    apply scanned_app; apply scanned_u_escape.
Qed.

Lemma scanned_flat_map (cps : list Z) : Ref.scanned (flat_map Ref.json_escape cps).
Proof.
  induction cps as [|cp cps IH]; [apply scanned_nil|].
  cbn [flat_map]. apply scanned_app; [apply scanned_json_escape|done].
Qed.

(** A JSON string is its opening quote, a run the scanner passes over, and
    the closing quote. *)
Lemma json_string_shape (s : string) :
  exists body, Ref.json_string s = Ref.quote :: body ++ [Ref.quote] /\ Ref.scanned body.
Proof. eexists. split; [reflexivity|apply scanned_flat_map]. Qed.

Lemma scan_string_body (body rest : bytes) :
  Ref.scanned body -> Ref.scan_string (body ++ Ref.quote :: rest) = Some (body, rest).
Proof.
  intros [_ Hs]. rewrite <- (app_nil_r body) at 2. apply Hs. done.
Qed.

Lemma expect_app (lit rest : bytes) : Ref.expect lit (lit ++ rest) = Some rest.
Proof.
  induction lit as [|c lit IH]; [done|]. cbn [app Ref.expect].
  by rewrite (Byte.byte_dec_lb eq_refl).
Qed.

Lemma ascii_lit (s : string) :
  Forall (fun b => Z_of_byte b < 128) (list_byte_of_string s) ->
  Forall (fun b => Z_of_byte b < 128) (Ref.lit s).
Proof.
  unfold Ref.lit. intros Hall. apply Forall_forall. intros b Hb.
  apply list_elem_of_fmap in Hb as (c & -> & Hc).
  destruct (Byte.eqb c x27); [done|]. by eapply Forall_forall in Hall.
Qed.

Lemma parse_entry_json_entry (cm : col_meta) (rest : bytes) :
  exists e, Ref.parse_entry (Ref.json_entry cm ++ rest) = Some (e, rest).
Proof.
  destruct (json_string_shape (cm_name cm)) as (bn & Hn & Hsn).
  destruct (json_string_shape (cm_type cm)) as (bt & Ht & Hst).
  unfold Ref.json_entry, Ref.parse_entry. rewrite Hn, Ht.
  change (Ref.lit "{'name':'") with (Ref.lit "{'name':" ++ [Ref.quote]).
  change (Ref.lit ",'type':'") with (Ref.lit ",'type':" ++ [Ref.quote]).
  replace ((Ref.lit "{'name':" ++ (Ref.quote :: bn ++ [Ref.quote])
              ++ Ref.lit ",'type':" ++ (Ref.quote :: bt ++ [Ref.quote]) ++ Ref.lit "}") ++ rest)
    with ((Ref.lit "{'name':" ++ [Ref.quote])
            ++ bn ++ Ref.quote :: (Ref.lit ",'type':" ++ [Ref.quote])
            ++ bt ++ Ref.quote :: Ref.lit "}" ++ rest).
  2:{ rewrite <- !app_assoc. cbn [app]. rewrite <- !app_assoc. cbn [app]. done. }
  rewrite expect_app. cbn [mbind option_bind].
  rewrite (scan_string_body bn _ Hsn). cbn [mbind option_bind].
  rewrite expect_app. cbn [mbind option_bind].
  rewrite (scan_string_body bt _ Hst). cbn [mbind option_bind].
  rewrite expect_app. cbn [mbind option_bind]. by eexists.
Qed.

Lemma parse_entries_json_entries (schema : list col_meta) :
  forall (cm : col_meta) (rest : bytes) (fuel : nat),
    (length schema < fuel)%nat ->
    exists es, Ref.parse_entries fuel (Ref.json_entries (cm :: schema) ++ x5d :: rest)
               = Some (es, rest).
Proof.
  induction schema as [|cm' schema IH]; intros cm rest fuel Hfuel;
    (destruct fuel as [|fuel]; [lia|]); cbn [Ref.parse_entries].
  - cbn [Ref.json_entries].
    destruct (parse_entry_json_entry cm (x5d :: rest)) as (e & ->). by eexists.
  - change (Ref.json_entries (cm :: cm' :: schema))
      with (Ref.json_entry cm ++ x2c :: Ref.json_entries (cm' :: schema)).
    rewrite <- app_assoc. cbn [app].
    destruct (parse_entry_json_entry cm
                (x2c :: Ref.json_entries (cm' :: schema) ++ x5d :: rest)) as (e & ->).
    change (Byte.eqb x2c x2c) with true. cbv iota.
    destruct (IH cm' rest fuel ltac:(cbn in Hfuel; lia)) as (es & ->). by eexists.
Qed.

Lemma ascii_json_string (s : string) :
  Forall (fun b => Z_of_byte b < 128) (Ref.json_string s).
Proof.
  destruct (json_string_shape s) as (body & -> & [Hb _]).
  constructor; [done|]. apply Forall_app. split; [done|]. by repeat constructor.
Qed.

Lemma ascii_json_entries (schema : list col_meta) :
  Forall (fun b => Z_of_byte b < 128) (Ref.json_entries schema).
Proof.
  assert (He : forall cm, Forall (fun b => Z_of_byte b < 128) (Ref.json_entry cm)).
  { intros cm. unfold Ref.json_entry.
    repeat (apply Forall_app; split);
      first [apply ascii_json_string | apply ascii_lit; by repeat constructor]. }
  induction schema as [|cm schema IH]; [constructor|].
  destruct schema as [|cm' schema]; [apply He|].
  change (Ref.json_entries (cm :: cm' :: schema))
    with (Ref.json_entry cm ++ x2c :: Ref.json_entries (cm' :: schema)).
  apply Forall_app. split; [apply He|]. by constructor.
Qed.

Lemma length_json_entries (schema : list col_meta) :
  (length schema <= length (Ref.json_entries schema))%nat.
Proof.
  induction schema as [|cm schema IH]; [done|].
  destruct schema as [|cm' schema].
  - cbn [Ref.json_entries length]. unfold Ref.json_entry. rewrite length_app.
    change (length (Ref.lit "{'name':")) with 8%nat. lia.
  - change (Ref.json_entries (cm :: cm' :: schema))
      with (Ref.json_entry cm ++ x2c :: Ref.json_entries (cm' :: schema)).
    rewrite length_app. cbn [length] in *. lia.
Qed.

Lemma loads_dumps : @json_lossless Ref.lib.
Proof.
  intros schema.
  change (is_text (Ref.json_dumps schema) /\
          exists members, Ref.json_loads (Ref.json_dumps schema) = Ok (JObj members)).
  unfold Ref.json_dumps, Ref.json_loads, is_text, str_encode.
  rewrite list_byte_of_string_of_list_byte. split.
  - apply valid_utf8_ascii. repeat (apply Forall_app; split);
      first [apply ascii_json_entries | apply ascii_lit; by repeat constructor].
  - rewrite expect_app.
    destruct schema as [|cm schema].
    + by eexists.
    + destruct (json_string_shape (cm_name cm)) as (bn & Hn & _).
      change (Ref.lit "]}") with [x5d; x7d].
      remember (Ref.json_entries (cm :: schema) ++ [x5d; x7d]) as r eqn:Hr.
      assert (Hlen : (length schema < length r)%nat).
      { rewrite Hr, length_app. pose proof (length_json_entries (cm :: schema)).
        cbn [length] in *. lia. }
      destruct (parse_entries_json_entries schema cm [x7d] (length r) Hlen) as (es & Hes).
      rewrite <- Hr in Hes.
      assert (Hhead : exists r', r = x7b :: r').
      { rewrite Hr. destruct schema; cbn [Ref.json_entries]; unfold Ref.json_entry;
          by eexists. }
      destruct Hhead as (r' & Hr'). clear Hr.
      destruct r as [|c r0]; [discriminate|]. injection Hr' as -> _.
      change (Byte.eqb x7b x5d) with false. cbv iota.
      rewrite Hes. by eexists.
Qed.

End RefFacts.

(** ** Cut headers *)

Section Strict.
Context {A B : Type}.

Lemma strict_ret (a : A) : strict (io_ret a).
Proof.
  intros fh a' rest [= <- <-]. exists []. split; [done|]. split; [cbn; lia|done].
Qed.

Lemma strict_raise (e : exn) : strict (@io_raise A e).
Proof. intros fh a rest H. discriminate. Qed.

Lemma strict_lift (r : result A) : strict (io_lift r).
Proof.
  intros fh a rest H. unfold io_lift in *. destruct r as [a'|]; [|done].
  injection H as <- <-. exists []. split; [done|]. split; [cbn; lia|done].
Qed.

Lemma strict_if (c : bool) (m1 m2 : io A) : strict m1 -> strict m2 -> strict (if c then m1 else m2).
Proof. by destruct c. Qed.

Lemma strict_bind (m : io A) (f : A -> io B) :
  strict m -> (forall a, strict (f a)) -> strict (io_bind m f).
Proof.
  intros Hm Hf fh b rest Hb. unfold io_bind in Hb.
  destruct (m fh) as [[a r1]|] eqn:H1; [|done].
  destruct (Hm _ _ _ H1) as (u1 & Hfh & Hcut1 & Hfr1).
  destruct (Hf a _ _ _ Hb) as (u2 & Hr1 & Hcut2 & Hfr2).
  exists (u1 ++ u2). split; [by rewrite <- app_assoc, <- Hr1|]. split.
  - intros k Hk. unfold io_bind. destruct (decide (k < length u1)%nat) as [Hlt|Hge].
    + specialize (Hcut1 k Hlt). by destruct (m (take k fh)) as [[? ?]|].
    + rewrite Hfh at 1. rewrite take_app_ge by lia. rewrite Hfr1.
      apply Hcut2. rewrite length_app in Hk. lia.
  - intros tail. unfold io_bind. rewrite <- app_assoc, Hfr1. apply Hfr2.
Qed.

End Strict.

Lemma unpack_unsigned_length (n : nat) (data : bytes) (v : Z) :
  unpack_unsigned n data = Ok v -> length data = n.
Proof.
  unfold unpack_unsigned. destruct (Nat.eqb_spec (length data) n); [done|discriminate].
Qed.

Section StrictReads.
Context {A : Type}.

(** A read whose length is checked. *)
Lemma strict_read_checked (n : Z) (e : exn) (K : bytes -> io A) :
  (forall x, strict (K x)) ->
  strict (io_bind (fh_read n) (fun x => if len x <? n then io_raise e else K x)).
Proof.
  intros HK fh a rest H. unfold io_bind, fh_read in H.
  destruct (2 ^ 63 <=? n) eqn:Hn; [done|].
  set (N := Z.to_nat n) in *.
  destruct (Z.ltb_spec (len (take N fh)) n) as [Hlt|Hge]; [done|].
  assert (HN : length (take N fh) = N).
  { unfold len in Hge. rewrite length_take in *. lia. }
  destruct (HK _ _ _ _ H) as (u2 & Hd & Hcut & Hfr).
  exists (take N fh ++ u2). split; [by rewrite <- app_assoc, <- Hd, take_drop|]. split.
  - intros k Hk. rewrite length_app, HN in Hk.
    unfold io_bind, fh_read. rewrite Hn. fold N.
    destruct (decide (k < N)%nat) as [Hlt|Hge'].
    + rewrite take_take, Nat.min_r by lia.
      rewrite length_take in HN.
      destruct (Z.ltb_spec (len (take k fh)) n) as [|Hge2]; [done|].
      unfold len in Hge2. rewrite length_take in Hge2. lia.
    + rewrite take_take, Nat.min_l by lia.
      destruct (Z.ltb_spec (len (take N fh)) n) as [|_]; [lia|].
      rewrite skipn_firstn_comm. apply Hcut. lia.
  - intros tail. unfold io_bind, fh_read. rewrite Hn. fold N. rewrite <- app_assoc.
    rewrite take_app_length' by done. rewrite drop_app_length' by done.
    destruct (Z.ltb_spec (len (take N fh)) n) as [|_]; [lia|]. apply Hfr.
Qed.

(** A read that is unpacked at once: [struct.unpack] checks the length. *)
Lemma strict_read_unpack (n : nat) (K : Z -> io A) :
  (forall v, strict (K v)) ->
  strict (io_bind (fh_read (Z.of_nat n))
            (fun x => io_bind (io_lift (unpack_unsigned n x)) K)).
Proof.
  intros HK fh a rest H. unfold io_bind, fh_read, io_lift in H.
  destruct (2 ^ 63 <=? Z.of_nat n) eqn:Hn; [done|].
  rewrite Nat2Z.id in H.
  destruct (unpack_unsigned n (take n fh)) as [v|] eqn:Hv; [|done].
  assert (HN : length (take n fh) = n) by exact (unpack_unsigned_length _ _ _ Hv).
  destruct (HK _ _ _ _ H) as (u2 & Hd & Hcut & Hfr).
  exists (take n fh ++ u2). split; [by rewrite <- app_assoc, <- Hd, take_drop|]. split.
  - intros k Hk. rewrite length_app, HN in Hk.
    unfold io_bind, fh_read, io_lift. rewrite Hn, Nat2Z.id.
    destruct (decide (k < n)%nat) as [Hlt|Hge'].
    + rewrite take_take, Nat.min_r by lia.
      destruct (unpack_unsigned n (take k fh)) as [v'|] eqn:Hv'; [|done].
      apply unpack_unsigned_length in Hv'. rewrite length_take in Hv', HN. lia.
    + rewrite take_take, Nat.min_l by lia. rewrite Hv.
      rewrite skipn_firstn_comm. apply Hcut. lia.
  - intros tail. unfold io_bind, fh_read, io_lift. rewrite Hn, Nat2Z.id, <- app_assoc.
    rewrite take_app_length' by done. rewrite drop_app_length' by done.
    rewrite Hv. apply Hfr.
Qed.

(** A read whose length is not checked, followed by a program that fails at
    the end of the file. *)
Lemma strict_read_unchecked {X : Type} (n : Z) (f : bytes -> result X) (K : X -> io A) :
  (forall y, strict (K y)) ->
  (forall y, is_ok (K y []) = false) ->
  strict (io_bind (fh_read n) (fun x => io_bind (io_lift (f x)) K)).
Proof.
  intros HK Hend fh a rest H. unfold io_bind, fh_read, io_lift in H.
  destruct (2 ^ 63 <=? n) eqn:Hn; [done|].
  set (N := Z.to_nat n) in *.
  destruct (f (take N fh)) as [y|] eqn:Hy; [|done].
  assert (HN : length (take N fh) = N).
  { rewrite length_take. destruct (decide (N <= length fh)%nat) as [|Hshort]; [lia|].
    rewrite drop_ge in H by lia. specialize (Hend y). rewrite H in Hend. done. }
  destruct (HK _ _ _ _ H) as (u2 & Hd & Hcut & Hfr).
  exists (take N fh ++ u2). split; [by rewrite <- app_assoc, <- Hd, take_drop|]. split.
  - intros k Hk. rewrite length_app, HN in Hk.
    unfold io_bind, fh_read, io_lift. rewrite Hn. fold N.
    destruct (decide (k < N)%nat) as [Hlt|Hge'].
    + rewrite (drop_ge (take k fh)) by (rewrite length_take; lia).
      destruct (f (take N (take k fh))) as [y'|]; [apply Hend|done].
    + rewrite take_take, Nat.min_l by lia. rewrite Hy.
      rewrite skipn_firstn_comm. apply Hcut. lia.
  - intros tail. unfold io_bind, fh_read, io_lift. rewrite Hn. fold N. rewrite <- app_assoc.
    rewrite take_app_length' by done. rewrite drop_app_length' by done.
    rewrite Hy. apply Hfr.
Qed.

End StrictReads.

Lemma strict_parse_dir_entry : strict Reader.parse_dir_entry.
Proof.
  unfold Reader.parse_dir_entry.
  apply strict_read_checked; intros nl_bytes.
  apply strict_bind; [apply strict_lift|intros name_len].
  apply strict_read_unchecked; [intros name|reflexivity].
  apply (strict_read_unpack 1); intros dtype.
  apply (strict_read_unpack 8); intros block_offset.
  apply (strict_read_unpack 8); intros compressed_size.
  apply (strict_read_unpack 8); intros uncompressed_size.
  apply (strict_read_unpack 8); intros num_values.
  apply strict_ret.
Qed.

Lemma strict_parse_directory (n : nat) : strict (Reader.parse_directory n).
Proof.
  induction n as [|n IH]; cbn [Reader.parse_directory]; [apply strict_ret|].
  apply strict_bind; [apply strict_parse_dir_entry|intros c].
  apply strict_bind; [apply IH|intros cs]. apply strict_ret.
Qed.

Section StrictHeader.
Context `{PyLib}.

Lemma strict_header_fields : strict Reader.header_fields.
Proof.
  unfold Reader.header_fields.
  apply strict_read_checked; intros prefix. cbv zeta.
  apply strict_if; [apply strict_raise|].
  apply strict_bind; [apply strict_lift|intros version].
  apply strict_bind; [apply strict_lift|intros endianness].
  apply strict_if; [apply strict_raise|].
  apply strict_if; [apply strict_raise|].
  apply strict_read_checked; intros rest.
  apply strict_bind; [apply strict_lift|intros schema_len].
  apply strict_read_checked; intros schema_json.
  apply strict_bind; [apply strict_lift|intros text].
  apply strict_bind; [apply strict_lift|intros schema_obj].
  apply strict_bind; [apply strict_lift|intros schema].
  apply strict_read_checked; intros gm.
  apply strict_bind; [apply strict_lift|intros num_rows].
  apply strict_bind; [apply strict_lift|intros num_columns].
  apply strict_bind; [apply strict_parse_directory|intros columns].
  apply strict_ret.
Qed.

(** No reader is built from a header that stops early: when the header of
    [file] parses and leaves [rest] unread, every cut of [file] inside the
    header makes the constructor raise. *)
Lemma cut_header_raises (file : bytes) fields (rest : bytes) (k : nat) :
  Reader.header_fields file = Ok (fields, rest) ->
  (k < length file - length rest)%nat ->
  is_ok (Reader.CFileReader_init (take k file)) = false.
Proof.
  intros Hh Hk. destruct (strict_header_fields _ _ _ Hh) as (used & Hfile & Hcut & _).
  assert (Hu : (k < length used)%nat).
  { rewrite Hfile, length_app in Hk. lia. }
  specialize (Hcut k Hu).
  unfold Reader.CFileReader_init, Reader._parse_header. cbn [Reader.path bind].
  by destruct (Reader.header_fields (take k file)) as [[[[[? ?] ?] ?] ?]|].
Qed.

End StrictHeader.

(** ** The round trip *)

(** An INT32 field that is a number, and a table for its schema, but whose
    value does not fit 32 bits: [write_cfile] raises and nothing is read
    back. *)
Lemma wide_integer_does_not_round_trip :
  table_of [{| cm_name := "x"; cm_type := "INT32" |}] [["3000000000"%string]] 1 /\
  @coerce Ref.lib "INT32" "3000000000" = Ok (VInt 3000000000) /\
  @Writer.write_cfile Ref.lib [{| cm_name := "x"; cm_type := "INT32" |}]
                      [["3000000000"%string]] = Err StructError /\
  ~ @round_trips Ref.lib [{| cm_name := "x"; cm_type := "INT32" |}]
                 [["3000000000"%string]] 1.
Proof.
  split; [|split; [|split]].
  - unfold table_of. split; [done|]. split; [by repeat constructor|].
    split; [repeat constructor; by intros ?%elem_of_nil|].
    split; by repeat constructor.
  - vm_compute. reflexivity.
  - vm_compute. reflexivity.
  - intros (file & self & rows & Hw & _). vm_compute in Hw. discriminate.
Qed.

(** C1, as the code has it: when [zlib] and [json] are lossless and [float]
    returns doubles, a table for a schema with distinct names that
    [write_cfile] accepts, into a file of fewer than 2^63 bytes, reads back:
    the reader opens the file, and [read_all] returns one row per table row,
    binding exactly the schema's names, each to the coerced field: the parsed
    number under INT32 (truncated toward zero) and FLOAT64 (as the same
    double, bit for bit), 0 and 0.0 for an empty field, and the text itself
    under STRING. *)
Theorem written_table_round_trips (L : PyLib) (schema : list col_meta)
        (table : list (list string)) (n : nat) (file : bytes) :
  zlib_lossless -> json_lossless -> floats_are_doubles ->
  table_of schema table n ->
  Writer.write_cfile schema table = Ok file ->
  len file < 2 ^ 63 ->
  round_trips schema table n.
Proof.
  intros Hzlib Hjson Hdbl Htable Hw Hsize.
  destruct (read_column_written schema table n file Hzlib Hjson Hdbl Htable Hw Hsize)
    as (self & Hinit & Hnr & Hnames & Hcols).
  destruct Htable as (Hlen & Hrect & Hnd & Htext & Hvals).
  assert (Hread : forall nm, nm ∈ map Reader.name (Reader.columns self) ->
            exists j cm col vals,
              schema !! j = Some cm /\ table !! j = Some col /\ cm_name cm = nm /\
              Reader.read_column self nm = Ok vals /\
              mapM (coerce (cm_type cm)) col = Ok vals).
  { intros nm Hin. rewrite Hnames in Hin. apply list_elem_of_fmap in Hin as (cm & -> & Hcm).
    apply list_elem_of_lookup in Hcm as [j Hj].
    destruct (lookup_lt_is_Some_2 table j) as [col Hcol];
      [rewrite Hlen; by eapply lookup_lt_Some|].
    destruct (Hcols j cm col Hj Hcol) as (vals & Hr & Hc).
    by exists j, cm, col, vals. }
  destruct (mapM_is_ok (Reader.read_column self) (map Reader.name (Reader.columns self)))
    as [data Hdata].
  { intros nm Hin. destruct (Hread nm Hin) as (j & cm & col & vals & _ & _ & _ & -> & _).
    done. }
  destruct (read_all_rows self data Hdata) as (rows & Hrows & Hrl & Hrow).
  { apply Forall_forall. intros vals Hin. apply list_elem_of_lookup in Hin as [k Hk].
    destruct (mapM_lookup_r _ _ _ _ _ Hdata Hk) as (nm & Hnm & Hv).
    destruct (Hread nm (list_elem_of_lookup_2 _ _ _ Hnm))
      as (j & cm & col & vals' & _ & Hcol & _ & Hv' & Hc).
    rewrite Hv in Hv'. injection Hv' as <-.
    apply mapM_length in Hc.
    eapply Forall_lookup_1 in Hrect; [|exact Hcol].
    rewrite Hnr. unfold len. lia. }
  exists file, self, rows. split; [done|]. split; [done|]. split; [done|].
  split; [rewrite Hrl, Hnr; lia|].
  intros i row Hi. destruct (Hrow i row Hi) as [Hbound Hother]. split.
  - intros j cm col v Hcm Hcol Hv.
    destruct (Hcols j cm col Hcm Hcol) as (vals & Hr & Hc).
    destruct (mapM_lookup _ _ _ _ _ Hc Hv) as (x & Hx & Hcx).
    exists x. split; [done|].
    destruct (Hbound (cm_name cm) vals) as [-> _]; [|done|done].
    rewrite Hnames. apply list_elem_of_fmap. exists cm. split; [done|].
    by eapply list_elem_of_lookup_2.
  - intros k Hk. rewrite <- Hnames.
    destruct (decide (k ∈ map Reader.name (Reader.columns self))) as [Hin|Hnin]; [done|].
    rewrite (Hother k Hnin) in Hk. by destruct Hk.
Qed.

(** The example of the specification: the rows (1, 2.5, a) and (2, , bb) read
    back as (1, 2.5, a) and (2, 0.0, bb). *)
Lemma written_table_round_trips_witness :
  @round_trips Ref.lib Example.schema Example.table 2.
Proof.
  apply (written_table_round_trips Ref.lib Example.schema Example.table 2 Example.file).
  - exact RefFacts.decompress_compress.
  - exact RefFacts.loads_dumps.
  - exact RefFacts.float_of_str_range.
  - unfold table_of. split; [done|]. split; [by repeat constructor|].
    split.
    + repeat constructor; rewrite ?elem_of_cons, ?elem_of_nil; intros Hin;
        repeat (destruct Hin as [Hin|Hin]; [discriminate|]); done.
    + split; by repeat constructor.
  - vm_compute. reflexivity.
  - vm_compute. reflexivity.
Defined.

(** The layout of the example file: blocks at 256, 280 and 312 after a header
    of 252 bytes and 4 bytes of padding. *)
Lemma written_blocks_aligned_witness :
  exists (self : Reader.CFileReader) (header body : bytes) (pad : Z),
    @Reader.CFileReader_init Ref.lib Example.file = Ok self /\
    Example.file = header ++ replicate (Z.to_nat pad) x00 ++ body /\
    Forall (fun c => Reader.block_offset c mod 8 = 0) (Reader.columns self).
Proof.
  destruct (written_blocks_aligned Ref.lib Example.schema Example.table Example.file)
    as (self & header & body & pad & blocks & Hinit & Hfile & _ & _ & _ & _ & Hal & _).
  - exact RefFacts.loads_dumps.
  - by repeat constructor.
  - vm_compute. reflexivity.
  - exists self, header, body, pad. done.
Defined.

(** ** Truncated headers *)

(** C4: header parsing never recovers from a file that stops early, but the
    error it raises depends on where the file stops.  Whenever the header of
    a file parses, every cut of the file inside that header makes the
    constructor raise (the example file has such a header, 252 bytes long).
    A cut in the two bytes of a name length is reported by the parser's own
    check (cut after 137 bytes).  A cut further inside a directory entry is
    not: after 139 bytes, inside the name of the first entry, the read of
    the name returns one byte instead of two and is not checked, the read of
    the dtype then returns nothing and [struct.unpack] raises
    [struct.error], which is none of the truncation errors of the parser;
    the same happens for a cut in an offset (141 bytes) and inside the
    second entry (172 bytes). *)
Theorem cut_directory_entry_raises_struct_error :
  (forall (lib : PyLib) (file : bytes) fields (rest : bytes) (k : nat),
     @Reader.header_fields lib file = Ok (fields, rest) ->
     (k < length file - length rest)%nat ->
     is_ok (@Reader.CFileReader_init lib (take k file)) = false) /\
  (exists fields rest,
     @Reader.header_fields Ref.lib Example.file = Ok (fields, rest) /\
     length Example.file = 344%nat /\ length rest = 92%nat) /\
  @Reader.CFileReader_init Ref.lib (take 139 Example.file) = Err StructError /\
  ~ is_TruncatedFile StructError /\
  @Reader.CFileReader_init Ref.lib (take 137 Example.file)
  = Err (ValueError "truncated dir") /\
  @Reader.CFileReader_init Ref.lib (take 141 Example.file) = Err StructError /\
  @Reader.CFileReader_init Ref.lib (take 172 Example.file) = Err StructError.
Proof.
  split; [intros lib file fields rest k; apply cut_header_raises|].
  split; [do 2 eexists; split; [vm_compute; reflexivity|split; reflexivity]|].
  split; [vm_compute; reflexivity|]. split.
  - unfold is_TruncatedFile. rewrite !elem_of_cons, elem_of_nil.
    intros Hin. repeat (destruct Hin as [Hin|Hin]; [discriminate|]). done.
  - repeat split; vm_compute; reflexivity.
Qed.

(** * More of the reader *)

(** ** The field readers *)

Lemma unpack_from_at_field (n : nat) (pre post : bytes) (v : Z) :
  0 <= v < 256 ^ Z.of_nat n -> len pre < 2 ^ 63 ->
  Reader.unpack_from_at n (pre ++ le_bytes n v ++ post) (len pre) = Ok v.
Proof.
  intros Hv Hpre. unfold Reader.unpack_from_at. pose proof (len_nonneg pre).
  destruct (Z.ltb_spec (len pre) (- 2 ^ 63)); [lia|].
  destruct (Z.leb_spec (2 ^ 63) (len pre)); [lia|]. cbn [orb].
  destruct (Z.ltb_spec (len pre) 0); [lia|]. cbv zeta.
  destruct (Z.ltb_spec (len pre) 0); [lia|].
  unfold unpack_from_unsigned, len. rewrite Nat2Z.id, drop_app_length.
  rewrite take_app_length' by (by rewrite length_le_bytes).
  rewrite length_le_bytes, Nat.eqb_refl. rewrite le_value_le_bytes; done.
Qed.

Lemma unpack_from_at_last (n : nat) (pre : bytes) (v : Z) :
  0 <= v < 256 ^ Z.of_nat n -> (0 < n)%nat -> Z.of_nat n <= 2 ^ 63 ->
  Reader.unpack_from_at n (pre ++ le_bytes n v) (- Z.of_nat n) = Ok v.
Proof.
  intros Hv Hn Hn'. unfold Reader.unpack_from_at.
  destruct (Z.ltb_spec (- Z.of_nat n) (- 2 ^ 63)); [lia|].
  destruct (Z.leb_spec (2 ^ 63) (- Z.of_nat n)); [lia|]. cbn [orb].
  destruct (Z.ltb_spec (- Z.of_nat n) 0); [|lia]. cbv zeta.
  rewrite len_app, len_le_bytes.
  replace (- Z.of_nat n + (len pre + Z.of_nat n)) with (len pre) by lia.
  pose proof (len_nonneg pre). destruct (Z.ltb_spec (len pre) 0); [lia|].
  unfold unpack_from_unsigned, len. rewrite Nat2Z.id, drop_app_length.
  rewrite take_ge by (rewrite length_le_bytes; lia).
  rewrite length_le_bytes, Nat.eqb_refl. rewrite le_value_le_bytes; done.
Qed.

Lemma unpack_from_at_short (n : nat) (b : bytes) (offset : Z) :
  (0 < n)%nat -> 0 <= offset -> len b < offset + Z.of_nat n ->
  is_ok (Reader.unpack_from_at n b offset) = false.
Proof.
  intros Hn Ho Hshort. unfold Reader.unpack_from_at.
  destruct (_ || _); [done|]. destruct (Z.ltb_spec offset 0); [lia|]. cbv zeta.
  destruct (Z.ltb_spec offset 0); [lia|].
  unfold unpack_from_unsigned.
  destruct (Nat.eqb_spec (length (take n (drop (Z.to_nat offset) b))) n) as [Heq|]; [|done].
  rewrite length_take, length_drop in Heq. unfold len in Hshort. lia.
Qed.

(** X1: the field readers of the reader undo the packers of the writer.  A
    value packed by [pack_u8], [pack_u16], [pack_u32] or [pack_u64] and
    placed anywhere in a buffer is read back by the reader of the same width
    at that offset, together with the offset just after the field; read from
    the end with a negative offset, the same value comes with the offset 0;
    and a field that runs over the end of the buffer is an error. *)
Theorem read_u_inverts_pack_u (pre post b : bytes) (v : Z) :
  len pre < 2 ^ 63 ->
  (pack_u8 v = Ok b ->
   Reader.read_u8 (pre ++ b ++ post) (len pre) = Ok (v, len pre + 1) /\
   Reader.read_u8 (pre ++ b) (- 1) = Ok (v, 0)) /\
  (pack_u16 v = Ok b ->
   Reader.read_u16 (pre ++ b ++ post) (len pre) = Ok (v, len pre + 2) /\
   Reader.read_u16 (pre ++ b) (- 2) = Ok (v, 0)) /\
  (pack_u32 v = Ok b ->
   Reader.read_u32 (pre ++ b ++ post) (len pre) = Ok (v, len pre + 4) /\
   Reader.read_u32 (pre ++ b) (- 4) = Ok (v, 0)) /\
  (pack_u64 v = Ok b ->
   Reader.read_u64 (pre ++ b ++ post) (len pre) = Ok (v, len pre + 8) /\
   Reader.read_u64 (pre ++ b) (- 8) = Ok (v, 0)) /\
  (forall (data : bytes) (offset : Z),
     0 <= offset ->
     (len data < offset + 1 -> is_ok (Reader.read_u8 data offset) = false) /\
     (len data < offset + 2 -> is_ok (Reader.read_u16 data offset) = false) /\
     (len data < offset + 4 -> is_ok (Reader.read_u32 data offset) = false) /\
     (len data < offset + 8 -> is_ok (Reader.read_u64 data offset) = false)).
Proof.
  intros Hpre.
  assert (Hfield : forall n : nat, (0 < n)%nat -> Z.of_nat n <= 2 ^ 63 ->
            pack_unsigned n v = Ok b ->
            Reader.unpack_from_at n (pre ++ b ++ post) (len pre) = Ok v /\
            Reader.unpack_from_at n (pre ++ b) (- Z.of_nat n) = Ok v).
  { intros n Hn Hn' Hp. apply pack_unsigned_inv in Hp as [Hv ->].
    split; [by apply unpack_from_at_field|by apply unpack_from_at_last]. }
  split; [|split; [|split; [|split]]].
  - intros Hp. destruct (Hfield 1%nat) as [H1 H2]; [lia|lia|done|].
    change (- Z.of_nat 1) with (- 1) in H2.
    unfold Reader.read_u8. by rewrite H1, H2.
  - intros Hp. destruct (Hfield 2%nat) as [H1 H2]; [lia|lia|done|].
    change (- Z.of_nat 2) with (- 2) in H2.
    unfold Reader.read_u16. by rewrite H1, H2.
  - intros Hp. destruct (Hfield 4%nat) as [H1 H2]; [lia|lia|done|].
    change (- Z.of_nat 4) with (- 4) in H2.
    unfold Reader.read_u32. by rewrite H1, H2.
  - intros Hp. destruct (Hfield 8%nat) as [H1 H2]; [lia|lia|done|].
    change (- Z.of_nat 8) with (- 8) in H2.
    unfold Reader.read_u64. by rewrite H1, H2.
  - intros data offset Ho.
    assert (Hs : forall n : nat, (0 < n)%nat -> len data < offset + Z.of_nat n ->
              forall k : Z, is_ok (v' <- Reader.unpack_from_at n data offset ;; Ok (v', k)) = false).
    { intros n Hn0 Hn k. pose proof (unpack_from_at_short n data offset Hn0 Ho Hn) as Hu.
      by destruct (Reader.unpack_from_at n data offset). }
    repeat split; intros Hlen; apply Hs; lia.
Qed.

(** The 16-bit value 513 after three bytes, and then at the end of a
    buffer. *)
Lemma read_u_inverts_pack_u_witness :
  Reader.read_u16 ([x07; x08; x09] ++ [x01; x02] ++ [x0a]) 3 = Ok (513, 5) /\
  Reader.read_u16 ([x07; x08; x09] ++ [x01; x02]) (- 2) = Ok (513, 0).
Proof.
  destruct (read_u_inverts_pack_u [x07; x08; x09] [x0a] [x01; x02] 513)
    as (_ & H16 & _); [reflexivity|].
  exact (H16 eq_refl).
Defined.

(** ** The checks on the first twelve bytes *)

Lemma bytes_eqb_eq (xs ys : bytes) : bytes_eqb xs ys = true <-> xs = ys.
Proof.
  revert ys. induction xs as [|x xs IH]; intros [|y ys]; cbn; try done.
  rewrite andb_true_iff, IH. split.
  - intros [Hxy ->]. f_equal. by apply Byte.byte_dec_bl.
  - intros [= -> ->]. split; [by apply Byte.byte_dec_lb|done].
Qed.

Lemma lstrip0_suffix (bs : bytes) :
  exists zs, bs = zs ++ Reader.lstrip0 bs.
Proof.
  induction bs as [|b bs [zs IH]]; [by exists []|]. cbn.
  destruct (Byte.eqb b x00); [|by exists []].
  exists (b :: zs). cbn. by f_equal.
Qed.

Lemma rstrip0_magic (magic : bytes) :
  length magic = 8%nat ->
  bytes_eqb (Reader.rstrip0 magic) (list_byte_of_string "CFILEv01") = true <-> magic = MAGIC.
Proof.
  intros Hlen. rewrite bytes_eqb_eq. split; [|by intros ->].
  unfold Reader.rstrip0. intros Hr.
  destruct (lstrip0_suffix (rev magic)) as [zs Hz].
  assert (Hl : Reader.lstrip0 (rev magic) = rev (list_byte_of_string "CFILEv01")).
  { by rewrite <- Hr, rev_involutive. }
  rewrite Hl in Hz.
  assert (Hzs : zs = []).
  { apply (f_equal length) in Hz. rewrite length_rev, length_app, Hlen in Hz.
    cbn in Hz. destruct zs; [done|]. cbn in Hz. lia. }
  subst zs. cbn [app] in Hz. apply (f_equal (@rev byte)) in Hz.
  by rewrite !rev_involutive in Hz.
Qed.

Section HeaderChecks.
Context `{PyLib}.
Import Reader.

Lemma init_raises (file : bytes) (e : exn) :
  header_fields file = Err e -> CFileReader_init file = Err e.
Proof.
  intros He. unfold CFileReader_init, _parse_header. cbn [path]. by rewrite He.
Qed.

(** The parser after a prefix of twelve bytes has been read and found
    long enough. *)
Lemma header_fields_prefix (file : bytes) :
  12 <= len file ->
  header_fields file
  = (let prefix := take 12 file in
     let magic := take 8 file in
     if negb (bytes_eqb (rstrip0 magic) (list_byte_of_string "CFILEv01"))
     then Err (ValueError "bad magic") else
     match file !! 8%nat, file !! 9%nat with
     | Some v, Some e =>
       if negb (Z_of_byte v =? 1) then Err (ValueError "unsupported version") else
       if negb (Z_of_byte e =? 0) then Err (ValueError "unsupported endianness") else
       header_fields (MAGIC ++ [x01; x00; x00; x00] ++ drop 12 file)
     | _, _ => Err IndexError
     end).
Proof.
  intros Hlen. cbv zeta. unfold len in Hlen.
  assert (Hp : length (take 12 file) = 12%nat) by (rewrite length_take; lia).
  assert (Hbody : forall pre : bytes, length pre = 12%nat ->
            header_fields (pre ++ drop 12 file)
            = (if negb (bytes_eqb (rstrip0 (take 8 pre)) (list_byte_of_string "CFILEv01"))
               then Err (ValueError "bad magic") else
               match pre !! 8%nat, pre !! 9%nat with
               | Some v, Some e =>
                 if negb (Z_of_byte v =? 1) then Err (ValueError "unsupported version") else
                 if negb (Z_of_byte e =? 0) then Err (ValueError "unsupported endianness")
                 else
                   io_bind (fh_read 4) (fun rest =>
                     if len rest <? 4 then io_raise (ValueError "truncated schema length") else
                     schema_len <~ io_lift (unpack_unsigned 4 rest) ;;
                     schema_json <~ fh_read schema_len ;;
                     if len schema_json <? schema_len
                     then io_raise (ValueError "truncated schema json") else
                     text <~ io_lift (bytes_decode schema_json) ;;
                     schema_obj <~ io_lift (json_loads text) ;;
                     schema <~ io_lift (match schema_obj with
                                        | JObj members =>
                                          Ok (json_get "columns" (JArr []) members)
                                        | _ => Err AttributeError
                                        end) ;;
                     gm <~ fh_read 12 ;;
                     if len gm <? 12 then io_raise (ValueError "truncated global metadata")
                     else
                     num_rows <~ io_lift (unpack_unsigned 8 (slice gm 0 8)) ;;
                     num_columns <~ io_lift (unpack_unsigned 4 (slice gm 8 12)) ;;
                     columns <~ parse_directory (Z.to_nat num_columns) ;;
                     io_ret (schema, num_rows, num_columns, columns)) (drop 12 file)
               | _, _ => Err IndexError
               end)).
  { intros pre Hpre. unfold header_fields.
    rewrite io_bind_read by (unfold len; rewrite ?Hpre; lia).
    unfold len at 1. rewrite Hpre. change (Z.of_nat 12 <? 12) with false. cbv iota zeta. unfold slice at 1. cbn [drop Nat.sub].
    destruct (negb (bytes_eqb _ _)); [done|].
    unfold io_bind at 1, io_lift at 1, index. unfold bytes in *.
    destruct (pre !! 8%nat) as [v|]; cbn [bind]; [|done].
    unfold io_bind at 1, io_lift at 1.
    destruct (pre !! 9%nat) as [e|]; cbn [bind]; [|done].
    destruct (negb (Z_of_byte v =? 1)); [done|].
    destruct (negb (Z_of_byte e =? 0)); [done|]. done. }
  rewrite <- (take_drop 12 file) at 1. rewrite (Hbody (take 12 file) Hp).
  rewrite take_take. change (8 `min` 12)%nat with 8%nat.
  unfold bytes in *. rewrite !lookup_take_lt by lia.
  destruct (negb (bytes_eqb _ _)); [done|].
  destruct (file !! 8%nat) as [v|]; [|done]. destruct (file !! 9%nat) as [e|]; [|done].
  destruct (negb (Z_of_byte v =? 1)); [done|].
  destruct (negb (Z_of_byte e =? 0)); [done|].
  change (MAGIC ++ [x01; x00; x00; x00] ++ drop 12 file)
    with ((MAGIC ++ [x01; x00; x00; x00]) ++ drop 12 file).
  rewrite (Hbody (MAGIC ++ [x01; x00; x00; x00]) eq_refl). done.
Qed.

End HeaderChecks.

Lemma Z_of_byte_inj (b c : byte) : Z_of_byte b = Z_of_byte c -> b = c.
Proof. intros Hbc. by rewrite <- (byte_of_Z_of_byte b), Hbc, byte_of_Z_of_byte. Qed.

(** X2: the checks of [_parse_header] on the first twelve bytes, in their
    order.  A file of fewer than twelve bytes is too small; otherwise the
    first eight bytes must be the magic itself (stripping zero bytes from an
    eight-byte field can give the eight-byte magic in no other way), then
    byte 8 must be 1 and byte 9 must be 0, each failure with its own error.
    Bytes 10 and 11, the reserved field, are never looked at: a file that
    passes parses as it would with zeros there. *)
Theorem header_prefix_checks (L : PyLib) (file : bytes) :
  (len file < 12 ->
   Reader.CFileReader_init file = Err (ValueError "file too small")) /\
  (12 <= len file -> take 8 file <> MAGIC ->
   Reader.CFileReader_init file = Err (ValueError "bad magic")) /\
  (12 <= len file -> take 8 file = MAGIC -> file !! 8%nat <> Some x01 ->
   Reader.CFileReader_init file = Err (ValueError "unsupported version")) /\
  (12 <= len file -> take 8 file = MAGIC -> file !! 8%nat = Some x01 ->
   file !! 9%nat <> Some x00 ->
   Reader.CFileReader_init file = Err (ValueError "unsupported endianness")) /\
  (12 <= len file -> take 8 file = MAGIC -> file !! 8%nat = Some x01 ->
   file !! 9%nat = Some x00 ->
   Reader.header_fields file = Reader.header_fields (prefix12 ++ drop 12 file)).
Proof.
  split.
  { intros Hlen. apply init_raises. unfold Reader.header_fields, io_bind, fh_read.
    change (2 ^ 63 <=? 12) with false. cbv iota.
    destruct (Z.ltb_spec (len (take (Z.to_nat 12) file)) 12) as [|Hge]; [done|].
    unfold len in Hge, Hlen. rewrite length_take in Hge. lia. }
  assert (Hmagic : 12 <= len file ->
            bytes_eqb (Reader.rstrip0 (take 8 file)) (list_byte_of_string "CFILEv01") = true
            <-> take 8 file = MAGIC).
  { intros Hlen. apply rstrip0_magic. unfold len in Hlen. rewrite length_take. lia. }
  assert (Hlook : forall i : nat, 12 <= len file -> (i < 12)%nat -> is_Some (file !! i)).
  { intros i Hlen Hi. apply lookup_lt_is_Some. unfold len in Hlen. lia. }
  split; [|split; [|split]].
  - intros Hlen Hne. apply init_raises. rewrite header_fields_prefix by done. cbv zeta.
    destruct (Hmagic Hlen) as [Hm1 _].
    destruct (bytes_eqb _ _); [|done]. by specialize (Hm1 eq_refl).
  - intros Hlen Hm Hv. apply init_raises. rewrite header_fields_prefix by done. cbv zeta.
    apply Hmagic in Hm; [|done]. rewrite Hm. cbn [negb].
    destruct (Hlook 8%nat Hlen ltac:(lia)) as [v Hv8].
    destruct (Hlook 9%nat Hlen ltac:(lia)) as [e He9].
    unfold bytes in *. rewrite Hv8, He9.
    destruct (Z.eqb_spec (Z_of_byte v) 1) as [H1|]; [|done].
    apply (Z_of_byte_inj v x01) in H1. by subst v.
  - intros Hlen Hm Hv He. apply init_raises. rewrite header_fields_prefix by done. cbv zeta.
    apply Hmagic in Hm; [|done]. rewrite Hm. cbn [negb].
    destruct (Hlook 9%nat Hlen ltac:(lia)) as [e He9].
    unfold bytes in *. rewrite Hv, He9. cbn [negb Z.eqb Z_of_byte].
    change (Z_of_byte x01 =? 1) with true. cbn [negb].
    destruct (Z.eqb_spec (Z_of_byte e) 0) as [H0|]; [|done].
    apply (Z_of_byte_inj e x00) in H0. by subst e.
  - intros Hlen Hm Hv He. rewrite header_fields_prefix by done. cbv zeta.
    apply Hmagic in Hm; [|done]. rewrite Hm. cbn [negb].
    unfold bytes in *. rewrite Hv, He. done.
Qed.

(** ** What a parsed header tells *)

Lemma io_bind_lift_inv {A B : Type} (r : result A) (K : A -> io B) (fh : bytes) (x : B * bytes) :
  io_bind (io_lift r) K fh = Ok x -> exists a, r = Ok a /\ K a fh = Ok x.
Proof. unfold io_bind, io_lift. destruct r as [a|]; [|done]. intros HK. by exists a. Qed.

Lemma read_checked_inv {A : Type} (n : Z) (e : exn) (K : bytes -> io A) (fh : bytes)
      (r : A * bytes) :
  0 <= n ->
  io_bind (fh_read n) (fun x => if len x <? n then io_raise e else K x) fh = Ok r ->
  exists x tail, fh = x ++ tail /\ len x = n /\ K x tail = Ok r.
Proof.
  intros Hn. unfold io_bind, fh_read. destruct (2 ^ 63 <=? n); [done|].
  destruct (Z.ltb_spec (len (take (Z.to_nat n) fh)) n) as [|Hge]; [done|].
  intros HK. exists (take (Z.to_nat n) fh), (drop (Z.to_nat n) fh).
  split; [by rewrite take_drop|]. split; [|done].
  unfold len in *. rewrite length_take in *. lia.
Qed.

Lemma read_unpack_inv {A : Type} (n : nat) (K : Z -> io A) (fh : bytes) (r : A * bytes) :
  io_bind (fh_read (Z.of_nat n)) (fun x => io_bind (io_lift (unpack_unsigned n x)) K) fh
  = Ok r ->
  exists v tail, 0 <= v < 256 ^ Z.of_nat n /\ fh = le_bytes n v ++ tail /\ K v tail = Ok r.
Proof.
  unfold io_bind at 1, fh_read. destruct (2 ^ 63 <=? Z.of_nat n); [done|].
  rewrite Nat2Z.id. intros HK. apply io_bind_lift_inv in HK as (v & Hv & HK).
  exists v, (drop n fh). unfold unpack_unsigned in Hv.
  destruct (Nat.eqb_spec (length (take n fh)) n) as [Hl|]; [|done]. injection Hv as <-.
  split; [|split; [|done]].
  - pose proof (le_value_bound (take n fh)) as Hb. unfold len in Hb. by rewrite Hl in Hb.
  - rewrite <- Hl at 1. by rewrite le_bytes_le_value, take_drop.
Qed.

Section ParsedHeader.
Context `{PyLib}.
Import Reader.

Lemma parse_dir_entry_inv (fh rest : bytes) (c : ColumnMeta) :
  parse_dir_entry fh = Ok (c, rest) ->
  fh = entry_bytes c ++ rest /\ entry_in_range c.
Proof.
  unfold parse_dir_entry. intros Hp.
  apply read_checked_inv in Hp as (nl & t1 & -> & Hnl & Hp); [|lia].
  apply io_bind_lift_inv in Hp as (name_len & Hlen & Hp).
  unfold unpack_unsigned in Hlen.
  destruct (Nat.eqb_spec (length nl) 2) as [Hl2|]; [|done]. injection Hlen as <-.
  pose proof (le_value_bound nl) as Hb. rewrite Hnl in Hb.
  unfold io_bind at 1, fh_read in Hp.
  destruct (2 ^ 63 <=? le_value nl); [done|].
  apply io_bind_lift_inv in Hp as (nm & Hnm & Hp).
  apply bytes_decode_inv in Hnm as [Henc Htext].
  apply (read_unpack_inv 1) in Hp as (d & t2 & Hd & Ht2 & Hp).
  apply (read_unpack_inv 8) in Hp as (o & t3 & Ho & -> & Hp).
  apply (read_unpack_inv 8) in Hp as (cs & t4 & Hcs & -> & Hp).
  apply (read_unpack_inv 8) in Hp as (us & t5 & Hus & -> & Hp).
  apply (read_unpack_inv 8) in Hp as (nv & t6 & Hnv & -> & Hp).
  injection Hp as <- <-.
  assert (Hfull : length (take (Z.to_nat (le_value nl)) t1) = Z.to_nat (le_value nl)).
  { rewrite length_take. apply Nat.min_l.
    destruct (decide (Z.to_nat (le_value nl) <= length t1)%nat) as [|Hshort]; [done|].
    rewrite drop_ge in Ht2 by lia. by destruct (le_bytes 1 d) eqn:Hd1. }
  unfold entry_bytes, entry_in_range. cbn [name dtype block_offset compressed_size
                                           uncompressed_size num_values].
  assert (Hlen : len (str_encode nm) = le_value nl).
  { rewrite Henc. unfold len. rewrite Hfull. lia. }
  rewrite Hlen. split.
  - assert (Hnlb : le_bytes 2 (le_value nl) = nl) by (by rewrite <- Hl2, le_bytes_le_value).
    rewrite Hnlb. rewrite <- !app_assoc. f_equal.
    rewrite Henc, <- Ht2. by rewrite take_drop.
  - change (256 ^ 2) with (2 ^ 16) in Hb.
    change (256 ^ Z.of_nat 1) with (2 ^ 8) in Hd.
    change (256 ^ Z.of_nat 8) with (2 ^ 64) in *. repeat split; lia || done.
Qed.

Lemma parse_directory_inv (n : nat) : forall (fh rest : bytes) (cs : list ColumnMeta),
  parse_directory n fh = Ok (cs, rest) ->
  length cs = n /\ fh = concat (map entry_bytes cs) ++ rest /\ Forall entry_in_range cs.
Proof.
  induction n as [|n IH]; intros fh rest cs Hp; cbn [parse_directory] in Hp.
  - injection Hp as <- <-. done.
  - unfold io_bind at 1 in Hp.
    destruct (parse_dir_entry fh) as [[c t1]|] eqn:Hc; [|done].
    unfold io_bind at 1 in Hp.
    destruct (parse_directory n t1) as [[cs' t2]|] eqn:Hcs; [|done].
    injection Hp as <- <-.
    apply parse_dir_entry_inv in Hc as [-> Hr].
    destruct (IH _ _ _ Hcs) as (Hlen & -> & Hall).
    split; [cbn; by rewrite Hlen|]. split; [cbn; by rewrite <- !app_assoc|].
    by constructor.
Qed.

Lemma length_entry_bytes (c : ColumnMeta) :
  len (entry_bytes c) = 35 + len (str_encode (name c)).
Proof. unfold entry_bytes. rewrite !len_app, !len_le_bytes. lia. Qed.

Lemma length_directory_bytes (cs : list ColumnMeta) :
  35 * len cs <= len (concat (map entry_bytes cs)).
Proof.
  induction cs as [|c cs IH]; [done|]. cbn [map concat].
  rewrite len_app, length_entry_bytes. pose proof (len_nonneg (str_encode (name c))).
  unfold len in *. cbn [length]. lia.
Qed.

Lemma header_fields_inv (file rest : bytes) (sch : json) (nr nc : Z) (cs : list ColumnMeta) :
  header_fields file = Ok ((sch, nr, nc, cs), rest) ->
  0 <= nr < 2 ^ 64 /\ 0 <= nc < 2 ^ 32 /\ len cs = nc /\ Forall entry_in_range cs /\
  exists (pre : bytes),
    file = pre ++ concat (map entry_bytes cs) ++ rest /\ 28 <= len pre /\
    take 10 pre = MAGIC ++ [x01; x00].
Proof.
  unfold header_fields. intros Hp.
  apply read_checked_inv in Hp as (prefix & t1 & -> & Hpl & Hp); [|lia]. cbv zeta in Hp.
  destruct (bytes_eqb _ _) eqn:Hmagic; [|done]. cbn [negb] in Hp.
  apply io_bind_lift_inv in Hp as (version & Hv & Hp).
  apply io_bind_lift_inv in Hp as (endianness & He & Hp).
  destruct (Z.eqb_spec version 1) as [->|]; [|done].
  destruct (Z.eqb_spec endianness 0) as [->|]; [|done]. cbn [negb] in Hp.
  apply read_checked_inv in Hp as (sl & t2 & -> & Hsl & Hp); [|lia].
  apply io_bind_lift_inv in Hp as (schema_len & Hslen & Hp).
  unfold unpack_unsigned in Hslen. destruct (Nat.eqb (length sl) 4); [|done].
  injection Hslen as <-.
  apply read_checked_inv in Hp as (sj & t3 & -> & Hsj & Hp);
    [|by destruct (le_value_bound sl)].
  apply io_bind_lift_inv in Hp as (text & _ & Hp).
  apply io_bind_lift_inv in Hp as (schema_obj & _ & Hp).
  apply io_bind_lift_inv in Hp as (schema' & _ & Hp).
  apply read_checked_inv in Hp as (gm & t4 & -> & Hgm & Hp); [|lia].
  apply io_bind_lift_inv in Hp as (num_rows' & Hnr & Hp).
  apply io_bind_lift_inv in Hp as (num_columns' & Hnc & Hp).
  unfold io_bind at 1 in Hp.
  destruct (parse_directory (Z.to_nat num_columns') t4) as [[cols t5]|] eqn:Hdir; [|done].
  injection Hp as <- <- <- <- <-.
  apply parse_directory_inv in Hdir as (Hlen & -> & Hall).
  unfold unpack_unsigned in Hnr, Hnc.
  destruct (Nat.eqb_spec (length (slice gm 0 8)) 8) as [H8|]; [|done].
  destruct (Nat.eqb_spec (length (slice gm 8 12)) 4) as [H4|]; [|done].
  injection Hnr as <-. injection Hnc as <-.
  pose proof (le_value_bound (slice gm 0 8)) as Hb8.
  pose proof (le_value_bound (slice gm 8 12)) as Hb4.
  unfold len in Hb8, Hb4. rewrite H8 in Hb8. rewrite H4 in Hb4.
  change (256 ^ Z.of_nat 8) with (2 ^ 64) in Hb8.
  change (256 ^ Z.of_nat 4) with (2 ^ 32) in Hb4.
  split; [done|]. split; [done|]. split; [unfold len; lia|]. split; [done|].
  exists (prefix ++ sl ++ sj ++ gm). split; [by rewrite <- !app_assoc|].
  split.
  - rewrite !len_app. pose proof (len_nonneg sj). lia.
  - apply rstrip0_magic in Hmagic.
    2:{ unfold slice. rewrite length_take, length_drop. unfold len in Hpl. lia. }
    unfold slice in Hmagic. change (take (8 - 0) (drop 0 prefix)) with (take 8 prefix) in Hmagic.
    rewrite take_app_le by (unfold len in Hpl; lia).
    unfold index in Hv, He.
    destruct (prefix !! 8%nat) as [v|] eqn:Hv8; [|done].
    destruct (prefix !! 9%nat) as [e|] eqn:He9; [|done].
    cbn [bind] in Hv, He. injection Hv as Hv. injection He as He.
    apply (Z_of_byte_inj v x01) in Hv. apply (Z_of_byte_inj e x00) in He. subst v e.
    rewrite <- (take_drop 8 (take 10 prefix)). rewrite take_take. change (8 `min` 10)%nat with 8%nat.
    rewrite Hmagic. f_equal.
    apply list_eq. intros i. rewrite lookup_drop.
    destruct i as [|[|i]]; cbn [Nat.add].
    + rewrite lookup_take_lt by lia. done.
    + rewrite lookup_take_lt by lia. done.
    + rewrite lookup_take_ge by lia. done.
Qed.

End ParsedHeader.

(** X3: what holds of every reader the constructor returns, whatever the
    file.  The reader keeps the path; its list of columns has [num_columns]
    entries; the counts and every field of every entry are in the range of
    their format, and the names are text; the file starts with the magic,
    version 1 and endianness 0, and is at least 28 bytes long plus 35 bytes
    for each column. *)
Theorem opened_reader_invariants (L : PyLib) (file : bytes) (self : Reader.CFileReader) :
  Reader.CFileReader_init file = Ok self ->
  Reader.path self = file /\
  len (Reader.columns self) = Reader.num_columns self /\
  0 <= Reader.num_rows self < 2 ^ 64 /\
  0 <= Reader.num_columns self < 2 ^ 32 /\
  Forall entry_in_range (Reader.columns self) /\
  take 10 file = MAGIC ++ [x01; x00] /\
  28 + 35 * Reader.num_columns self <= len file.
Proof.
  unfold Reader.CFileReader_init, Reader._parse_header. cbn [Reader.path]. intros Hi.
  destruct (Reader.header_fields file) as [[[[[sch nr] nc] cs] rest]|] eqn:Hh; [|done].
  cbn in Hi. injection Hi as <-. cbn.
  destruct (header_fields_inv _ _ _ _ _ _ Hh) as (Hnr & Hnc & Hlen & Hall & pre & -> & Hpre & Hm).
  split; [done|]. split; [done|]. split; [done|]. split; [done|]. split; [done|].
  split.
  - rewrite take_app_le by (unfold len in Hpre; lia). done.
  - rewrite !len_app. pose proof (length_directory_bytes cs). pose proof (len_nonneg rest).
    lia.
Qed.

(** The reader of the example file: three columns, two rows, 344 bytes. *)
Lemma opened_reader_invariants_witness :
  len (Reader.columns ExampleReader.reader) = 3 /\
  Forall entry_in_range (Reader.columns ExampleReader.reader) /\
  28 + 35 * 3 <= len Example.file.
Proof.
  destruct (opened_reader_invariants Ref.lib Example.file ExampleReader.reader)
    as (_ & Hn & _ & _ & Hall & _ & Hlen).
  - vm_compute. reflexivity.
  - exact (conj Hn (conj Hall Hlen)).
Defined.

(** X4: a directory entry has one encoding.  The reader parses an entry from
    the front of a handle exactly when the handle starts with the entry's
    bytes (name length, name, dtype, offset, sizes and count, little-endian)
    and the fields are in range; and the bytes the writer emits for an entry
    parse back to the entry's name, the code of its type and the numbers
    written. *)
Theorem directory_entry_canonical :
  (forall (fh rest : bytes) (c : Reader.ColumnMeta),
     Reader.parse_dir_entry fh = Ok (c, rest)
     <-> fh = entry_bytes c ++ rest /\ entry_in_range c) /\
  (forall (cm : col_meta) (o cs us nv : Z) (e tail : bytes),
     is_text (cm_name cm) ->
     Writer.directory_entry (Ok o) (Ok cs) (Ok us) nv cm = Ok e ->
     exists d : Z,
       Writer.dtype_of_typename (cm_type cm) = Ok d /\
       Reader.parse_dir_entry (e ++ tail)
       = Ok ({| Reader.name := cm_name cm; Reader.dtype := d; Reader.block_offset := o;
                Reader.compressed_size := cs; Reader.uncompressed_size := us;
                Reader.num_values := nv |}, tail)).
Proof.
  split.
  - intros fh rest c. split; [apply parse_dir_entry_inv|].
    intros [-> (Htext & Hname & Hd & Ho & Hc & Hu & Hn)]. destruct c as [nm d o cs us nv].
    cbn in *.
    exact (parse_dir_entry_written {| cm_name := nm; cm_type := EmptyString |}
             d o cs us nv rest Htext Hname Hd Ho Hc Hu Hn).
  - intros cm o cs us nv e tail Htext He.
    destruct (directory_entry_inv _ _ _ _ _ _ He)
      as (d & o' & c' & u' & Hd & [= <-] & [= <-] & [= <-] & Hname & Ho & Hc & Hu & Hn & ->).
    exists d. split; [done|].
    pose proof (dtype_of_typename_range _ _ Hd).
    apply parse_dir_entry_written; first [done | lia].
Qed.

(** ** Reading several columns *)

Section ReadColumns.
Context `{PyLib}.
Import Reader.

Lemma read_column_missing (self : CFileReader) (n : string) :
  n ∉ map name (columns self) -> read_column self n = Err (KeyError "no such column").
Proof.
  intros Hn. unfold read_column.
  destruct (find _ (columns self)) as [meta|] eqn:Hf; [|done].
  apply find_some in Hf as [Hin Heq]. apply String.eqb_eq in Heq. subst n.
  elim Hn. apply list_elem_of_fmap. exists meta. split; [done|]. by apply list_elem_of_In.
Qed.

(** The loop of [read_columns], started from any dict. *)
Lemma read_columns_loop (self : CFileReader) (names : list string) :
  forall acc : gmap string (list value),
    foldl (fun acc n => result <- acc ;; vals <- read_column self n ;;
                        Ok (<[n := vals]> result)) (Ok acc) names
    = (data <- mapM (read_column self) names ;;
       Ok (foldl (fun acc nv => <[fst nv := snd nv]> acc) acc (zip names data))).
Proof.
  induction names as [|n names IH]; intros acc; [done|]. cbn [foldl mapM bind].
  destruct (read_column self n) as [vals|e]; cbn [bind].
  - rewrite IH. by destruct (mapM (read_column self) names).
  - clear IH. induction names as [|k names IH]; [done|]. by cbn.
Qed.

Lemma insert_all_lookup (g : string -> list value) (cols : list (string * list value)) :
  forall (acc : gmap string (list value)) (k : string),
    Forall (fun c => snd c = g (fst c)) cols ->
    foldl (fun acc nv => <[fst nv := snd nv]> acc) acc cols !! k
    = if bool_decide (k ∈ map fst cols) then Some (g k) else acc !! k.
Proof.
  induction cols as [|[c vs] cols IH]; intros acc k Hg; cbn [foldl map fst snd].
  - rewrite bool_decide_false; [done|]. apply not_elem_of_nil.
  - inversion Hg as [|? ? Hc Hg']; subst. cbn in Hc. subst vs. rewrite (IH _ _ Hg').
    destruct (decide (k ∈ map fst cols)) as [Hin|Hnin].
    + rewrite !bool_decide_true; [done| |done]. by right.
    + rewrite (bool_decide_false _ Hnin). destruct (decide (k = c)) as [->|Hne].
      * rewrite bool_decide_true by left. by rewrite lookup_insert_eq.
      * rewrite bool_decide_false.
        -- by rewrite lookup_insert_ne.
        -- intros Hc. apply elem_of_cons in Hc as [?|?]; done.
Qed.

Lemma read_columns_Ok (self : CFileReader) (names : list string)
      (result : gmap string (list value)) :
  read_columns self names = Ok result ->
  forall k : string,
    result !! k = if bool_decide (k ∈ names)
                  then match read_column self k with Ok vals => Some vals | Err _ => None end
                  else None.
Proof.
  unfold read_columns. rewrite read_columns_loop. intros Hr. inv_bind Hr.
  injection Hr as <-. rename a into data. intros k.
  destruct (zip_names_data _ _ _ Ha) as [Hfst Hall].
  set (g := fun m => match read_column self m with Ok v => v | Err _ => [] end).
  rewrite (insert_all_lookup g).
  - rewrite Hfst. destruct (decide (k ∈ names)) as [Hin|Hnin].
    + rewrite !bool_decide_true by done. subst g. cbn.
      apply list_elem_of_lookup in Hin as [i Hi].
      destruct (mapM_lookup _ _ _ _ _ Ha Hi) as (vals & _ & ->). done.
    + by rewrite !bool_decide_false.
  - eapply Forall_impl; [exact Hall|]. intros [m vs] Hm. cbn in *. subst g. cbn.
    by rewrite Hm.
Qed.

End ReadColumns.

(** X5: [read_columns] reads each requested name with [read_column].  When
    it returns, the dict has exactly the requested names as keys, each bound
    to what [read_column] returns for it; it returns whenever every name can
    be read; otherwise it raises the error of the first name that cannot,
    and for a name that is not in the directory that error is the
    [KeyError] of [read_column]. *)
Theorem read_columns_reads_each_name (L : PyLib) (self : Reader.CFileReader)
        (names : list string) :
  (forall result : gmap string (list value),
     Reader.read_columns self names = Ok result ->
     (forall n, n ∈ names ->
        exists vals, Reader.read_column self n = Ok vals /\ result !! n = Some vals) /\
     (forall n, is_Some (result !! n) -> n ∈ names)) /\
  ((forall n, n ∈ names -> is_ok (Reader.read_column self n) = true) ->
   is_ok (Reader.read_columns self names) = true) /\
  (forall (pre post : list string) (n : string) (e : exn),
     names = pre ++ n :: post ->
     Forall (fun k => is_ok (Reader.read_column self k) = true) pre ->
     Reader.read_column self n = Err e ->
     Reader.read_columns self names = Err e) /\
  (forall n : string,
     n ∉ map Reader.name (Reader.columns self) ->
     Reader.read_column self n = Err (KeyError "no such column")).
Proof.
  split; [|split; [|split]].
  - intros result Hr. pose proof (read_columns_Ok self names result Hr) as Hlook.
    unfold Reader.read_columns in Hr. rewrite read_columns_loop in Hr. inv_bind Hr.
    split.
    + intros n Hn. apply list_elem_of_lookup in Hn as [i Hi].
      destruct (mapM_lookup _ _ _ _ _ Ha Hi) as (vals & _ & Hv).
      exists vals. split; [done|]. rewrite Hlook, bool_decide_true, Hv; [done|].
      by eapply list_elem_of_lookup_2.
    + intros n [vals Hn]. rewrite Hlook in Hn.
      destruct (decide (n ∈ names)); [done|]. by rewrite bool_decide_false in Hn.
  - intros Hall. unfold Reader.read_columns. rewrite read_columns_loop.
    destruct (mapM_is_ok (Reader.read_column self) names Hall) as [data ->]. done.
  - intros pre post n e -> Hpre Hn. unfold Reader.read_columns. rewrite read_columns_loop.
    by rewrite (mapM_Err _ pre post n e Hpre Hn).
  - apply read_column_missing.
Qed.

(** ** The rows of [read_all] *)

(** X8: the shape of what [read_all] returns, for any reader.  When it
    returns, it returns [num_rows] rows; every column of the directory was
    read without error, also when there is no row to fill; and the keys of
    every row are exactly the names of the directory. *)
Theorem read_all_row_shape (L : PyLib) (self : Reader.CFileReader)
        (rows : list (gmap string value)) :
  Reader.read_all self = Ok rows ->
  length rows = Z.to_nat (Reader.num_rows self) /\
  (forall n, n ∈ map Reader.name (Reader.columns self) ->
             is_ok (Reader.read_column self n) = true) /\
  (forall (i : nat) (row : gmap string value),
     rows !! i = Some row ->
     forall k : string, is_Some (row !! k) <-> k ∈ map Reader.name (Reader.columns self)).
Proof.
  unfold Reader.read_all. intros Hr. inv_bind Hr. rename a into data.
  apply for_range_inv in Hr as [Hlen Hrow].
  destruct (zip_names_data _ _ _ Ha) as [Hfst Hzip].
  set (names := map Reader.name (Reader.columns self)) in *.
  split; [done|]. split.
  - intros n Hn. apply list_elem_of_lookup in Hn as [j Hj].
    destruct (mapM_lookup _ _ _ _ _ Ha Hj) as (vals & _ & ->). done.
  - intros i row Hi k. specialize (Hrow i row Hi).
    set (g := fun m => match Reader.read_column self m with Ok v => v | Err _ => [] end).
    assert (Hg : Forall (fun c => snd c = g (fst c)) (zip names data)).
    { eapply Forall_impl; [exact Hzip|]. intros [m vs] Hm. cbn in *. subst g. cbn.
      by rewrite Hm. }
    rewrite (fill_row_lookup g _ _ _ _ Hg Hrow k), Hfst.
    destruct (decide (k ∈ names)) as [Hin|Hnin].
    + rewrite bool_decide_true by done. split; [done|]. intros _.
      assert (Hok : is_ok (Reader.fill_row ∅ (zip names data) i) = true) by by rewrite Hrow.
      apply fill_row_is_ok in Hok. rewrite Forall_forall in Hok.
      apply lookup_lt_is_Some.
      rewrite <- Hfst in Hin. apply list_elem_of_fmap in Hin as ([m vs] & -> & Hin).
      specialize (Hok _ Hin). rewrite Forall_forall in Hg. specialize (Hg _ Hin).
      cbn in *. by subst vs.
    + rewrite bool_decide_false by done. rewrite lookup_empty. split; [by intros [? ?]|done].
Qed.

(** The two rows of the example file bind the three names of its
    directory. *)
Lemma read_all_row_shape_witness :
  exists rows : list (gmap string value),
    @Reader.read_all Ref.lib ExampleReader.reader = Ok rows /\
    length rows = 2%nat /\
    forall i row, rows !! i = Some row ->
      forall k : string, is_Some (row !! k) <-> k ∈ ["id"; "score"; "name"]%string.
Proof.
  assert (Hex : exists rows, @Reader.read_all Ref.lib ExampleReader.reader = Ok rows)
    by (eexists; vm_compute; reflexivity).
  destruct Hex as [rows Hrows].
  destruct (read_all_row_shape Ref.lib ExampleReader.reader rows Hrows) as (Hlen & _ & Hkeys).
  exists rows. exact (conj Hrows (conj Hlen Hkeys)).
Defined.

(** ** Decoding a block that nobody checked *)

Lemma unpack_from_enough (n : nat) (data : bytes) (off : nat) :
  (off + n <= length data)%nat ->
  unpack_from_unsigned n data off = Ok (le_value (slice data off (off + n))).
Proof.
  intros Hlen. unfold unpack_from_unsigned, slice.
  replace (off + n - off)%nat with n by lia.
  rewrite length_take, length_drop, Nat.min_l by lia. by rewrite Nat.eqb_refl.
Qed.

Lemma unpack_from_short (n : nat) (data : bytes) (off : nat) :
  (0 < n)%nat -> (length data < off + n)%nat ->
  unpack_from_unsigned n data off = Err StructError.
Proof.
  intros Hn Hlen. unfold unpack_from_unsigned.
  rewrite length_take, length_drop.
  destruct (Nat.eqb_spec (n `min` (length data - off)) n); [lia|done].
Qed.

Lemma slice_app_l {A : Type} (xs ys : list A) (a b : nat) :
  (b <= length xs)%nat -> slice (xs ++ ys) a b = slice xs a b.
Proof.
  intros Hb. unfold slice. destruct (decide (a <= b)%nat) as [Hab|Hab].
  - rewrite drop_app_le by lia. rewrite take_app_le; [done|]. rewrite length_drop. lia.
  - replace (b - a)%nat with 0%nat by lia. done.
Qed.

(** A loop over [range(n)] whose body succeeds from index 0 up to a bound and
    raises [e] from there on. *)
Lemma for_range_closed {A : Type} (f : nat -> result A) (g : nat -> A) (n : Z) :
  (forall i : nat, (i < Z.to_nat n)%nat -> f i = Ok (g i)) ->
  Reader.for_range n f = Ok (map g (seq 0 (Z.to_nat n))).
Proof.
  intros Hf. unfold Reader.for_range.
  assert (Hgen : forall (k start : nat),
            (forall i, (start <= i < start + k)%nat -> f i = Ok (g i)) ->
            mapM f (seq start k) = Ok (map g (seq start k))).
  { induction k as [|k IH]; intros start Hk; [done|]. cbn [seq mapM map].
    rewrite Hk by lia. cbn [bind]. rewrite IH; [done|]. intros i Hi. apply Hk. lia. }
  apply Hgen. intros i Hi. apply Hf. lia.
Qed.

Lemma for_range_raises {A : Type} (f : nat -> result A) (n : Z) (e : exn) (k : nat) :
  (k < Z.to_nat n)%nat ->
  (forall i : nat, (i < k)%nat -> is_ok (f i) = true) ->
  f k = Err e ->
  Reader.for_range n f = Err e.
Proof.
  intros Hk Hok Hfk. unfold Reader.for_range.
  replace (seq 0 (Z.to_nat n)) with (seq 0 k ++ k :: seq (S k) (Z.to_nat n - S k)).
  - apply mapM_Err; [|done]. apply Forall_forall. intros i Hi.
    apply elem_of_seq in Hi. apply Hok. lia.
  - change (k :: seq (S k) (Z.to_nat n - S k)) with (seq k (S (Z.to_nat n - S k))).
    rewrite <- seq_app. f_equal. lia.
Qed.

Lemma signed32_range (v : Z) : 0 <= v < 2 ^ 32 -> - 2 ^ 31 <= signed32 v < 2 ^ 31.
Proof. intros Hv. unfold signed32. destruct (Z.ltb_spec v (2 ^ 31)); lia. Qed.

Lemma le_value_slice_bound (data : bytes) (a : nat) (n : nat) :
  0 <= le_value (slice data a (a + n)) < 256 ^ Z.of_nat n.
Proof.
  pose proof (le_value_bound (slice data a (a + n))) as Hb.
  assert (Hl : len (slice data a (a + n)) <= Z.of_nat n).
  { unfold len, slice. rewrite length_take. lia. }
  split; [lia|]. eapply Z.lt_le_trans; [apply Hb|].
  apply Z.pow_le_mono_r; [lia|]. done.
Qed.

Section FixedWidth.
Context `{PyLib}.
Import Reader.

(** The loop of the INT32 and FLOAT64 branches, for a field of [w] bytes. *)
Lemma decode_fields {A : Type} (w : nat) (mk : Z -> A) (n : Z) (data : bytes) :
  (0 < w)%nat -> 0 <= n ->
  (len data < Z.of_nat w * n ->
   for_range n (fun i => v <- unpack_from_unsigned w data (i * w) ;; Ok (mk v))
   = Err StructError) /\
  (Z.of_nat w * n <= len data ->
   for_range n (fun i => v <- unpack_from_unsigned w data (i * w) ;; Ok (mk v))
   = Ok (map (fun i : nat => mk (le_value (slice data (i * w) (i * w + w))))
             (seq 0 (Z.to_nat n)))).
Proof.
  intros Hw Hn. unfold len. split; intros Hlen.
  - apply (for_range_raises _ n StructError (length data / w)%nat).
    + apply Nat.Div0.div_lt_upper_bound. nia.
    + intros i Hi. rewrite unpack_from_enough; [done|].
      assert (S i <= length data / w)%nat as Hle by lia.
      pose proof (Nat.Div0.mul_div_le (length data) w).
      assert (S i * w <= length data / w * w)%nat by (apply Nat.mul_le_mono_r; lia). nia.
    + rewrite unpack_from_short; [done|done|].
      pose proof (Nat.mod_upper_bound (length data) w ltac:(lia)) as Hm.
      pose proof (Nat.div_mod_eq (length data) w). nia.
  - apply for_range_closed. intros i Hi. rewrite unpack_from_enough; [done|]. nia.
Qed.

End FixedWidth.

(** X6: how [read_column] decodes an INT32 or FLOAT64 block it was handed,
    whatever the block holds.  With [num_values] values announced, a block
    shorter than 4 (or 8) bytes per value raises [struct.error]; a block at
    least that long decodes to the little-endian fields in order (an INT32
    field read as a signed 32-bit number), and what follows the last field is
    ignored: no check compares the length of the block with the count. *)
Theorem fixed_width_decode (meta : Reader.ColumnMeta) (data : bytes) :
  0 <= Reader.num_values meta ->
  (Reader.dtype meta = DT_INT32 ->
   (len data < 4 * Reader.num_values meta ->
    Reader.decode_values meta data = Err StructError) /\
   (4 * Reader.num_values meta <= len data ->
    Reader.decode_values meta data
    = Ok (map (fun i : nat => VInt (signed32 (le_value (slice data (i * 4) (i * 4 + 4)))))
              (seq 0 (Z.to_nat (Reader.num_values meta)))) /\
    (forall i : nat, - 2 ^ 31 <= signed32 (le_value (slice data (i * 4) (i * 4 + 4))) < 2 ^ 31) /\
    (forall junk : bytes,
       Reader.decode_values meta (data ++ junk) = Reader.decode_values meta data))) /\
  (Reader.dtype meta = DT_FLOAT64 ->
   (len data < 8 * Reader.num_values meta ->
    Reader.decode_values meta data = Err StructError) /\
   (8 * Reader.num_values meta <= len data ->
    Reader.decode_values meta data
    = Ok (map (fun i : nat => VFloat (le_value (slice data (i * 8) (i * 8 + 8))))
              (seq 0 (Z.to_nat (Reader.num_values meta)))) /\
    (forall i : nat, 0 <= le_value (slice data (i * 8) (i * 8 + 8)) < 2 ^ 64) /\
    (forall junk : bytes,
       Reader.decode_values meta (data ++ junk) = Reader.decode_values meta data))).
Proof.
  intros Hn. split; intros Hd; unfold Reader.decode_values; rewrite Hd;
    cbn [Z.eqb DT_INT32 DT_FLOAT64 Pos.eqb].
  - destruct (decode_fields 4 (fun v => VInt (signed32 v)) (Reader.num_values meta) data
                ltac:(lia) Hn) as [Hshort Hlong].
    split; [exact Hshort|]. intros Hlen. split; [by apply Hlong|]. split.
    + intros i. apply signed32_range. apply (le_value_slice_bound data (i * 4) 4).
    + intros junk.
      destruct (decode_fields 4 (fun v => VInt (signed32 v)) (Reader.num_values meta)
                  (data ++ junk) ltac:(lia) Hn) as [_ Hlong'].
      rewrite Hlong by done. rewrite Hlong' by (rewrite len_app; pose proof (len_nonneg junk); lia).
      f_equal. apply map_ext_in. intros i Hi. apply in_seq in Hi.
      rewrite slice_app_l; [done|]. unfold len in Hlen. lia.
  - destruct (decode_fields 8 VFloat (Reader.num_values meta) data ltac:(lia) Hn)
      as [Hshort Hlong].
    split; [exact Hshort|]. intros Hlen. split; [by apply Hlong|]. split.
    + intros i. apply (le_value_slice_bound data (i * 8) 8).
    + intros junk.
      destruct (decode_fields 8 VFloat (Reader.num_values meta)
                  (data ++ junk) ltac:(lia) Hn) as [_ Hlong'].
      rewrite Hlong by done. rewrite Hlong' by (rewrite len_app; pose proof (len_nonneg junk); lia).
      f_equal. apply map_ext_in. intros i Hi. apply in_seq in Hi.
      rewrite slice_app_l; [done|]. unfold len in Hlen. lia.
Qed.

(** Two INT32 values announced: the block of the example file's first
    column, then the same block with a byte of junk, then seven bytes only. *)
Lemma fixed_width_decode_witness :
  Reader.decode_values ExampleReader.id_column [x01; x00; x00; x00; x02; x00; x00; x00]
  = Ok [VInt 1; VInt 2] /\
  Reader.decode_values ExampleReader.id_column
    ([x01; x00; x00; x00; x02; x00; x00; x00] ++ [xff])
  = Ok [VInt 1; VInt 2] /\
  Reader.decode_values ExampleReader.id_column [x01; x00; x00; x00; x02; x00; x00]
  = Err StructError.
Proof.
  destruct (fixed_width_decode ExampleReader.id_column
              [x01; x00; x00; x00; x02; x00; x00; x00] ltac:(done)) as [Hint _].
  destruct (Hint eq_refl) as [_ Hlong].
  destruct (Hlong ltac:(done)) as (Hvals & _ & Hjunk).
  destruct (fixed_width_decode ExampleReader.id_column
              [x01; x00; x00; x00; x02; x00; x00] ltac:(done)) as [Hint' _].
  destruct (Hint' eq_refl) as [Hshort _].
  split; [exact Hvals|]. split; [by rewrite Hjunk|]. exact (Hshort ltac:(done)).
Defined.

Section StringDecode.
Context `{PyLib}.
Import Reader.

(** The second loop of the STRING branch, once the offsets are read. *)
Lemma decode_strings (n : nat) (offs : list Z) (sblob : bytes) :
  length offs = S n ->
  let piece := fun i : nat =>
    slice sblob (Z.to_nat (default 0 (offs !! i))) (Z.to_nat (default 0 (offs !! (i + 1)%nat))) in
  (Forall (fun i => valid_utf8 (piece i) = true) (seq 0 n) ->
   for_range (Z.of_nat n) (fun i =>
     a <- index offs i ;; b <- index offs (i + 1) ;;
     s <- bytes_decode (slice sblob (Z.to_nat a) (Z.to_nat b)) ;; Ok (VStr s))
   = Ok (map (fun i => VStr (string_of_list_byte (piece i))) (seq 0 n))) /\
  (Exists (fun i => valid_utf8 (piece i) = false) (seq 0 n) ->
   for_range (Z.of_nat n) (fun i =>
     a <- index offs i ;; b <- index offs (i + 1) ;;
     s <- bytes_decode (slice sblob (Z.to_nat a) (Z.to_nat b)) ;; Ok (VStr s))
   = Err UnicodeDecodeError).
Proof.
  intros Hlen piece.
  assert (Hbody : forall i : nat, (i < n)%nat ->
            (a <- index offs i ;; b <- index offs (i + 1) ;;
             s <- bytes_decode (slice sblob (Z.to_nat a) (Z.to_nat b)) ;; Ok (VStr s))
            = if valid_utf8 (piece i) then Ok (VStr (string_of_list_byte (piece i)))
              else Err UnicodeDecodeError).
  { intros i Hi. subst piece. cbv beta. unfold index.
    destruct (lookup_lt_is_Some_2 offs i ltac:(lia)) as [a ->].
    destruct (lookup_lt_is_Some_2 offs (i + 1) ltac:(lia)) as [b ->].
    cbn [bind default]. unfold bytes_decode. by destruct (valid_utf8 _). }
  split.
  - intros Hall. rewrite <- (Nat2Z.id n) at 2. apply for_range_closed.
    intros i Hi. rewrite Nat2Z.id in Hi. rewrite Hbody by done.
    rewrite Forall_forall in Hall. rewrite Hall; [done|]. apply elem_of_seq. lia.
  - intros Hex. unfold for_range. rewrite Nat2Z.id. apply mapM_same_error.
    + intros i e Hi He. apply elem_of_seq in Hi. rewrite Hbody in He by lia.
      destruct (valid_utf8 (piece i)); [done|]. by injection He as <-.
    + eapply Exists_impl; [exact Hex|]. intros i Hi. cbv beta in Hi.
      apply Exists_exists in Hex. 
      destruct (decide (i < n)%nat) as [Hlt|Hge].
      * rewrite Hbody by done. by rewrite Hi.
      * unfold index. rewrite (lookup_ge_None_2 offs (i + 1)) by lia.
        by destruct (offs !! i).
Qed.

End StringDecode.

(** X7: how [read_column] decodes a STRING block it was handed, whatever the
    block holds.  With [n] values announced the block must hold [n + 1]
    offsets of four bytes, or [struct.error] is raised.  After that, value
    [i] is the text of the payload bytes between offset [i] and offset
    [i + 1] as Python slices them: no offset is compared with the length of
    the payload or with its neighbour, so an offset past the end shortens
    the value and a decreasing pair gives the empty string.  The only error
    left is a slice that is not UTF-8. *)
Theorem string_decode_trusts_offsets (meta : Reader.ColumnMeta) (data : bytes) :
  0 <= Reader.num_values meta ->
  Reader.dtype meta = DT_STRING ->
  let n := Z.to_nat (Reader.num_values meta) in
  let off := fun i : nat => Z.to_nat (le_value (slice data (i * 4) (i * 4 + 4))) in
  let payload := drop (4 * (n + 1)) data in
  (len data < 4 * (Reader.num_values meta + 1) ->
   Reader.decode_values meta data = Err StructError) /\
  (4 * (Reader.num_values meta + 1) <= len data ->
   (Forall (fun i => valid_utf8 (slice payload (off i) (off (i + 1)%nat)) = true) (seq 0 n) ->
    Reader.decode_values meta data
    = Ok (map (fun i => VStr (string_of_list_byte (slice payload (off i) (off (i + 1)%nat))))
              (seq 0 n))) /\
   (Exists (fun i => valid_utf8 (slice payload (off i) (off (i + 1)%nat)) = false) (seq 0 n) ->
    Reader.decode_values meta data = Err UnicodeDecodeError)).
Proof.
  intros Hn Hd n off payload. unfold Reader.decode_values. rewrite Hd.
  cbn [Z.eqb DT_INT32 DT_FLOAT64 DT_STRING Pos.eqb].
  destruct (decode_fields 4 (fun v => v) (Reader.num_values meta + 1) data ltac:(lia) ltac:(lia))
    as [Hshort Hlong].
  assert (Hloop : Reader.for_range (Reader.num_values meta + 1)
                    (fun i => unpack_from_unsigned 4 data (i * 4))
                  = Reader.for_range (Reader.num_values meta + 1)
                      (fun i => v <- unpack_from_unsigned 4 data (i * 4) ;; Ok v)).
  { unfold Reader.for_range. apply mapM_ext. intros i _.
    by destruct (unpack_from_unsigned 4 data (i * 4)). }
  rewrite Hloop. split.
  - intros Hlen. by rewrite Hshort.
  - intros Hlen. rewrite Hlong by done. cbn [bind].
    set (offs := map (fun i : nat => le_value (slice data (i * 4) (i * 4 + 4)))
                     (seq 0 (Z.to_nat (Reader.num_values meta + 1)))).
    assert (Hoffs : length offs = S n).
    { subst offs n. rewrite length_map, length_seq. lia. }
    assert (Hlook : forall i : nat, (i <= n)%nat ->
              Z.to_nat (default 0 (offs !! i)) = off i).
    { intros i Hi. subst offs off. cbv beta. rewrite list_lookup_fmap.
      rewrite lookup_seq_lt by lia. done. }
    replace (Z.to_nat (4 * (Reader.num_values meta + 1))) with (4 * (n + 1))%nat
      by (subst n; lia).
    fold payload.
    destruct (decode_strings n offs payload Hoffs) as [Hgood Hbad].
    assert (Hnv : Reader.num_values meta = Z.of_nat n) by (subst n; lia).
    rewrite Hnv.
    split.
    + intros Hall. rewrite Hgood.
      * f_equal. apply map_ext_in. intros i Hi. apply in_seq in Hi.
        by rewrite !Hlook by lia.
      * rewrite Forall_forall in Hall |- *. intros i Hi. specialize (Hall i Hi).
        apply elem_of_seq in Hi. cbv beta. by rewrite !Hlook by lia.
    + intros Hex. apply Hbad. apply Exists_exists in Hex as (i & Hi & Hv).
      apply Exists_exists. exists i. split; [done|]. apply elem_of_seq in Hi.
      cbv beta. by rewrite !Hlook by lia.
Qed.

(** Two values announced, the offsets 0, 5 and 1, and a payload of two
    bytes: the first value is the whole payload and the second is empty. *)
Lemma string_decode_trusts_offsets_witness :
  Reader.decode_values ExampleReader.name_column
    ([x00; x00; x00; x00] ++ [x05; x00; x00; x00] ++ [x01; x00; x00; x00] ++ [x61; x62])
  = Ok [VStr "ab"; VStr EmptyString].
Proof.
  destruct (string_decode_trusts_offsets ExampleReader.name_column
              ([x00; x00; x00; x00] ++ [x05; x00; x00; x00] ++ [x01; x00; x00; x00]
                 ++ [x61; x62]) ltac:(done) eq_refl) as [_ Hlong].
  destruct (Hlong ltac:(done)) as [Hgood _].
  exact (Hgood ltac:(repeat constructor)).
Defined.

(** * More of the writer *)

(** ** The magic *)

Lemma lstrip0_keeps (bs : bytes) : head bs <> Some x00 -> Reader.lstrip0 bs = bs.
Proof.
  destruct bs as [|b bs]; [done|]. cbn. intros Hb.
  destruct (Byte.eqb b x00) eqn:E; [|done]. apply Byte.byte_dec_bl in E. by subst b.
Qed.

Lemma lstrip0_zeros (k : nat) (bs : bytes) :
  Reader.lstrip0 (replicate k x00 ++ bs) = Reader.lstrip0 bs.
Proof. induction k as [|k IH]; [done|]. cbn. exact IH. Qed.

Lemma rev_replicate {A : Type} (k : nat) (x : A) : rev (replicate k x) = replicate k x.
Proof.
  induction k as [|k IH]; [done|]. cbn. rewrite IH. clear IH.
  induction k as [|k IH]; [done|]. cbn. by rewrite IH.
Qed.

Lemma head_rev {A : Type} (l : list A) : head (rev l) = last l.
Proof.
  induction l as [|x l _] using rev_ind; [done|].
  by rewrite rev_app_distr, last_snoc.
Qed.

(** X9: [pad_magic] and the reader's comparison agree.  [pad_magic] returns
    eight bytes: the first eight of a longer magic, or the magic followed by
    zero bytes; and the reader's [rstrip] gives back any magic of at most
    eight bytes that does not itself end in a zero byte, as it does for the
    magic of the format. *)
Theorem pad_magic_round_trip (magic_bytes : bytes) :
  length (Writer.pad_magic magic_bytes) = 8%nat /\
  ((8 <= length magic_bytes)%nat -> Writer.pad_magic magic_bytes = take 8 magic_bytes) /\
  ((length magic_bytes <= 8)%nat ->
   Writer.pad_magic magic_bytes
   = magic_bytes ++ replicate (8 - length magic_bytes) x00 /\
   (last magic_bytes <> Some x00 ->
    Reader.rstrip0 (Writer.pad_magic magic_bytes) = magic_bytes)) /\
  Reader.rstrip0 (Writer.pad_magic MAGIC) = MAGIC.
Proof.
  unfold Writer.pad_magic. split; [|split; [|split]].
  - rewrite length_take, length_app, length_replicate. lia.
  - intros Hlen. by rewrite take_app_le by lia.
  - intros Hlen.
    assert (Hp : take 8 (magic_bytes ++ replicate (8 - length magic_bytes) x00)
                 = magic_bytes ++ replicate (8 - length magic_bytes) x00).
    { apply take_ge. rewrite length_app, length_replicate. lia. }
    split; [done|]. intros Hlast. rewrite Hp. unfold Reader.rstrip0.
    rewrite rev_app_distr, rev_replicate.
    rewrite lstrip0_zeros, lstrip0_keeps; [apply rev_involutive|].
    by rewrite head_rev.
  - done.
Qed.

(** ** The size of a written file *)

Section WrittenSize.
Context `{PyLib}.
Import Writer.

Lemma write_blocks_end (comps : list bytes) : forall pos : Z,
  pos mod 8 = 0 -> (pos + len (write_blocks pos comps)) mod 8 = 0.
Proof.
  induction comps as [|comp r IH]; intros pos Hpos; cbn [write_blocks].
  - unfold len. cbn. by rewrite Z.add_0_r.
  - cbv zeta. rewrite !len_app. unfold len at 2. rewrite length_replicate.
    pose proof (Z.mod_pos_bound (8 - (pos + len comp) mod 8) 8 ltac:(lia)) as Hb.
    rewrite Z2Nat.id by lia.
    replace (pos + (len comp + ((8 - (pos + len comp) mod 8) mod 8
                                + len (write_blocks (pos + len comp
                                         + (8 - (pos + len comp) mod 8) mod 8) r))))
      with ((pos + len comp + (8 - (pos + len comp) mod 8) mod 8)
            + len (write_blocks (pos + len comp + (8 - (pos + len comp) mod 8) mod 8) r))
      by lia.
    apply IH. rewrite <- align_up_eq. apply align_up_aligned.
Qed.

Lemma directory_indices (off csize usize : nat -> result Z) (nr : Z)
      (schema : list col_meta) : forall (i : nat) (dir : bytes),
  directory off csize usize nr i schema = Ok dir ->
  forall j : nat, (j < length schema)%nat -> is_ok (off (i + j)%nat) = true.
Proof.
  induction schema as [|cm schema IH]; intros i dir Hd j Hj; [cbn in Hj; lia|].
  cbn in Hd. inv_bind Hd. inv_bind Hd.
  destruct (directory_entry_inv _ _ _ _ _ _ Ha) as (d & o & c & u & _ & Ho & _).
  destruct j as [|j].
  - rewrite Nat.add_0_r, Ho. done.
  - replace (i + S j)%nat with (S i + j)%nat by lia. eapply IH; [done|]. cbn in Hj. lia.
Qed.

Lemma zip_take_app {A B : Type} (xs : list A) : forall (ys extra : list B),
  (length xs <= length ys)%nat ->
  zip xs (take (length xs) ys ++ extra) = zip xs ys.
Proof.
  induction xs as [|x xs IH]; intros ys extra Hlen; [done|].
  destruct ys as [|y ys]; [cbn in Hlen; lia|]. cbn. f_equal. apply IH. cbn in Hlen. lia.
Qed.

Lemma write_cfile_schema_le (schema : list col_meta) (columns : list (list string))
      (file : bytes) :
  write_cfile schema columns = Ok file -> (length schema <= length columns)%nat.
Proof.
  intros Hw.
  destruct (write_cfile_inv _ _ _ Hw) as (col0 & blocks & fixed & dir & _ & Hb & _ & Hd & _).
  destruct (decide (length schema <= length columns)%nat) as [|Hgt]; [done|].
  pose proof (directory_indices _ _ _ _ _ _ _ Hd (length columns) ltac:(lia)) as Hok.
  cbn [Nat.add] in Hok. unfold index in Hok.
  rewrite lookup_ge_None_2 in Hok; [done|].
  rewrite length_plan_offsets, length_map. apply mapM_length in Hb.
  rewrite length_zip_with in Hb. lia.
Qed.

Lemma write_cfile_take (schema : list col_meta) (columns : list (list string)) :
  (length schema <= length columns)%nat -> schema <> [] ->
  write_cfile schema (take (length schema) columns) = write_cfile schema columns.
Proof.
  intros Hlen Hne. unfold write_cfile.
  rewrite <- (app_nil_r (take (length schema) columns)), zip_take_app by done.
  assert (Hcol0 : index (take (length schema) columns ++ []) 0 = index columns 0).
  { unfold index. destruct schema as [|cm schema]; [done|].
    destruct columns as [|c columns]; [cbn in Hlen; lia|]. done. }
  by rewrite Hcol0.
Qed.

Lemma zip_take_l {A B : Type} (xs : list A) : forall ys : list B,
  zip xs (take (length xs) ys) = zip xs ys.
Proof.
  induction xs as [|x xs IH]; intros ys; [done|].
  destruct ys as [|y ys]; [done|]. cbn. f_equal. apply IH.
Qed.

(** [write_cfile] looks at the columns through the first [len(schema)] of
    them and through the length of [columns[0]]. *)
Lemma write_cfile_agree (schema : list col_meta) (columns columns' : list (list string)) :
  take (length schema) columns = take (length schema) columns' ->
  length <$> columns !! 0%nat = length <$> columns' !! 0%nat ->
  write_cfile schema columns' = write_cfile schema columns.
Proof.
  intros Htake Hhead. unfold write_cfile.
  rewrite <- (zip_take_l schema columns), <- (zip_take_l schema columns'), Htake.
  unfold index.
  destruct (columns !! 0%nat) as [c|], (columns' !! 0%nat) as [c'|]; cbn in Hhead;
    try discriminate; [|done].
  injection Hhead as Hlen. cbn [bind].
  assert (Hl : len c' = len c) by (unfold len; by rewrite Hlen).
  by rewrite Hl.
Qed.

End WrittenSize.

(** X10: every file [write_cfile] returns is a whole number of 8-byte words:
    the header is padded to a multiple of 8 and so is every block, the last
    one included. *)
Theorem written_file_length_aligned (L : PyLib) (schema : list col_meta)
        (columns : list (list string)) (file : bytes) :
  Writer.write_cfile schema columns = Ok file -> len file mod 8 = 0.
Proof.
  intros Hw.
  destruct (write_cfile_inv _ _ _ Hw) as (col0 & blocks & fixed & dir & _ & _ & _ & _ & ->).
  set (h := fixed ++ dir). set (pad := (8 - len h mod 8) mod 8).
  assert (Hpad : 0 <= pad < 8) by (apply Z.mod_pos_bound; lia).
  rewrite !len_app. unfold len at 2. rewrite length_replicate, Z2Nat.id by lia.
  rewrite Z.add_assoc. apply write_blocks_end.
  subst pad. rewrite <- align_up_eq. apply align_up_aligned.
Qed.

(** The example file has 344 bytes. *)
Lemma written_file_length_aligned_witness : len Example.file mod 8 = 0.
Proof.
  apply (written_file_length_aligned Ref.lib Example.schema Example.table Example.file).
  vm_compute. reflexivity.
Defined.

(** X11: [write_cfile] pairs the schema with the columns by position and
    stops at the shorter of the two.  It returns only when there is a column
    for every schema entry.  Of the columns it uses the first [len(schema)]
    and the length of [columns[0]], which is the row count even when the
    schema is empty: two lists of columns that agree on these give the same
    result, file or exception.  So, unless the schema is empty, the columns
    after those of the schema are not looked at. *)
Theorem write_cfile_uses_schema_columns (L : PyLib) (schema : list col_meta)
        (columns : list (list string)) :
  (forall file : bytes,
     Writer.write_cfile schema columns = Ok file -> (length schema <= length columns)%nat) /\
  (forall columns' : list (list string),
     take (length schema) columns = take (length schema) columns' ->
     length <$> columns !! 0%nat = length <$> columns' !! 0%nat ->
     Writer.write_cfile schema columns' = Writer.write_cfile schema columns) /\
  (schema <> [] -> (length schema <= length columns)%nat ->
   forall extra : list (list string),
     Writer.write_cfile schema (take (length schema) columns ++ extra)
     = Writer.write_cfile schema columns).
Proof.
  split; [intros file; apply write_cfile_schema_le|].
  split; [intros columns'; apply write_cfile_agree|].
  intros Hne Hlen extra. apply write_cfile_agree.
  - rewrite take_app_length'; [done|]. rewrite length_take. lia.
  - destruct schema as [|cm schema]; [done|].
    destruct columns as [|c columns]; [cbn in Hlen; lia|]. done.
Qed.

(** The example table followed by a fourth column, which no schema entry
    names: the file is the example file.  With an empty schema the second
    column is not looked at, but the length of the first one is the row
    count of the header. *)
Lemma write_cfile_uses_schema_columns_witness :
  @Writer.write_cfile Ref.lib Example.schema (Example.table ++ [["x"; "y"; "z"]%string])
  = Ok Example.file /\
  @Writer.write_cfile Ref.lib [] [["a"]; ["x"; "y"]]%string
  = @Writer.write_cfile Ref.lib [] [["b"]]%string /\
  @Writer.write_cfile Ref.lib [] [["a"]]%string
  <> @Writer.write_cfile Ref.lib [] [["a"; "b"]]%string.
Proof.
  destruct (write_cfile_uses_schema_columns Ref.lib Example.schema Example.table)
    as (_ & _ & Hextra).
  destruct (write_cfile_uses_schema_columns Ref.lib [] [["b"]]%string) as (_ & Hagree & _).
  split; [|split].
  - change (Example.table ++ [["x"; "y"; "z"]%string])
      with (take (length Example.schema) Example.table ++ [["x"; "y"; "z"]%string]).
    rewrite (Hextra ltac:(done) ltac:(cbn; lia) [["x"; "y"; "z"]%string]).
    vm_compute. reflexivity.
  - apply Hagree; reflexivity.
  - vm_compute. discriminate.
Defined.

(** ** The directory of a written file *)

(** X12: the fields [write_cfile] records in the directory, as the reader
    finds them.  The file opens; [num_rows] is the length of the first
    column and [num_columns] the length of the schema; entry [j] carries the
    name of schema entry [j], the code of its type, the length of the block
    built for column [j] and the length of that block compressed; and its
    value count is the length of the first column, whatever the length of
    column [j] itself: the writer compares no column lengths. *)
Theorem written_directory_fields (L : PyLib) (schema : list col_meta)
        (columns : list (list string)) (file : bytes) :
  json_lossless ->
  Forall (fun cm => is_text (cm_name cm)) schema ->
  Writer.write_cfile schema columns = Ok file ->
  exists (self : Reader.CFileReader) (col0 : list string),
    Reader.CFileReader_init file = Ok self /\
    columns !! 0%nat = Some col0 /\
    Reader.num_rows self = len col0 /\
    Reader.num_columns self = len schema /\
    counts_agree self /\
    forall (j : nat) (cm : col_meta) (col : list string),
      schema !! j = Some cm -> columns !! j = Some col ->
      exists (c : Reader.ColumnMeta) (ub : bytes),
        Reader.columns self !! j = Some c /\
        Reader.name c = cm_name cm /\
        Writer.dtype_of_typename (cm_type cm) = Ok (Reader.dtype c) /\
        Writer.build_uncompressed_block (cm_type cm) col = Ok ub /\
        Reader.uncompressed_size c = len ub /\
        Reader.compressed_size c = len (zlib_compress ub) /\
        Reader.num_values c = len col0.
Proof.
  intros Hjson Htext Hw.
  destruct (reader_of_written _ _ _ Hjson Htext Hw)
    as (col0 & blocks & header & pad & self & Hcol0 & Hblocks & _ & _ & _ & _ & Hinit
        & _ & Hnr & Hnc & Hclen & Hcols).
  exists self, col0. split; [done|]. split; [done|]. split; [done|]. split; [done|].
  split.
  - unfold counts_agree. apply Forall_forall. intros c Hc.
    apply list_elem_of_lookup in Hc as [j Hj].
    destruct (lookup_lt_is_Some_2 schema j) as [cm Hcm];
      [rewrite <- Hclen; by eapply lookup_lt_Some|].
    destruct (Hcols j cm Hcm) as (d & off & ub & comp & _ & _ & _ & _ & _ & _ & Hmeta).
    rewrite Hj in Hmeta. injection Hmeta as ->. cbn. by rewrite Hnr.
  - intros j cm col Hcm Hcol.
    destruct (Hcols j cm Hcm) as (d & off & ub & comp & Hd & Hb & _ & _ & _ & _ & Hmeta).
    assert (Hzip : zip schema columns !! j = Some (cm, col))
      by (apply lookup_zip_Some; by split).
    destruct (mapM_lookup _ _ _ _ _ Hblocks Hzip) as (b & Hb' & Henc).
    rewrite Hb in Hb'. injection Hb' as <-.
    apply encode_column_inv in Henc as [Hbuild ->].
    eexists _, ub. split; [exact Hmeta|]. cbn. done.
Qed.

(** The file written for the columns (1, 2) and (3): both directory entries
    announce two values, and the second column cannot be read back. *)
Lemma written_directory_fields_witness :
  exists self : Reader.CFileReader,
    @Reader.CFileReader_init Ref.lib Example.ragged_file = Ok self /\
    Reader.num_rows self = 2 /\
    @counts_agree Ref.lib self /\
    @Reader.read_column Ref.lib self "a" = Ok [VInt 1; VInt 2] /\
    @Reader.read_column Ref.lib self "b" = Err StructError.
Proof.
  destruct (written_directory_fields Ref.lib Example.ragged_schema Example.ragged_table
              Example.ragged_file)
    as (self & col0 & Hinit & Hcol0 & Hnr & _ & Hcounts & _).
  - exact RefFacts.loads_dumps.
  - by repeat constructor.
  - vm_compute. reflexivity.
  - exists self. injection Hcol0 as <-. split; [exact Hinit|]. split; [exact Hnr|].
    split; [exact Hcounts|].
    assert (Hself : @Reader.CFileReader_init Ref.lib Example.ragged_file = Ok self)
      by exact Hinit.
    vm_compute in Hself. injection Hself as <-. split; vm_compute; reflexivity.
Defined.

(** ** Columns that cannot be encoded *)

Section Unencodable.
Context `{PyLib}.
Import Writer.

Lemma write_cfile_needs_blocks (schema : list col_meta) (columns : list (list string)) :
  is_ok (mapM encode_column (zip schema columns)) = false ->
  is_ok (write_cfile schema columns) = false.
Proof.
  intros Hb. unfold write_cfile. destruct (index columns 0) as [col0|]; [|done].
  cbn [bind]. by destruct (mapM encode_column (zip schema columns)).
Qed.

Lemma build_fails_on_malformed (ty : string) (col : list string) (v : string) :
  ty = "INT32"%string \/ ty = "FLOAT64"%string ->
  v ∈ col -> v <> EmptyString -> float_of_str v = None ->
  is_ok (build_uncompressed_block ty col) = false.
Proof.
  intros [-> | ->] Hin Hne Hf.
  - rewrite build_INT32.
    pose proof (mapM_fails encode_int32 col v Hin) as Hm.
    rewrite (encode_int32_malformed v Hne Hf) in Hm. specialize (Hm eq_refl).
    by destruct (mapM encode_int32 col).
  - rewrite build_FLOAT64.
    pose proof (mapM_fails encode_float64 col v Hin) as Hm.
    rewrite (encode_float64_malformed v Hne Hf) in Hm. specialize (Hm eq_refl).
    by destruct (mapM encode_float64 col).
Qed.

Lemma build_fails_on_unknown_type (ty : string) (col : list string) :
  ty <> "INT32"%string -> ty <> "FLOAT64"%string -> ty <> "STRING"%string ->
  build_uncompressed_block ty col = Err (ValueError "Unknown type").
Proof.
  intros H1 H2 H3. unfold build_uncompressed_block.
  destruct (String.eqb_spec ty "INT32"); [done|].
  destruct (String.eqb_spec ty "FLOAT64"); [done|].
  destruct (String.eqb_spec ty "STRING"); done.
Qed.

End Unencodable.

(** X13: [write_cfile] returns no file when a column that has a schema entry
    cannot be encoded, wherever in the table it is: in particular when a
    numeric column holds a field that is neither empty nor a number, in any
    row, and when the type of the entry is not one of the three names. *)
Theorem unencodable_column_stops_write (L : PyLib) (schema : list col_meta)
        (columns : list (list string)) (j : nat) (cm : col_meta) (col : list string) :
  schema !! j = Some cm -> columns !! j = Some col ->
  (is_ok (Writer.build_uncompressed_block (cm_type cm) col) = false ->
   is_ok (Writer.write_cfile schema columns) = false) /\
  (forall v : string,
     cm_type cm = "INT32"%string \/ cm_type cm = "FLOAT64"%string ->
     v ∈ col -> v <> EmptyString -> float_of_str v = None ->
     is_ok (Writer.write_cfile schema columns) = false) /\
  (cm_type cm <> "INT32"%string -> cm_type cm <> "FLOAT64"%string ->
   cm_type cm <> "STRING"%string ->
   is_ok (Writer.write_cfile schema columns) = false).
Proof.
  intros Hcm Hcol.
  assert (Hstop : is_ok (Writer.build_uncompressed_block (cm_type cm) col) = false ->
                  is_ok (Writer.write_cfile schema columns) = false).
  { intros Hb. apply write_cfile_needs_blocks.
    apply (mapM_fails _ _ (cm, col)).
    - apply list_elem_of_lookup. exists j. apply lookup_zip_Some. by split.
    - unfold Writer.encode_column. cbn [fst snd].
      by destruct (Writer.build_uncompressed_block (cm_type cm) col). }
  split; [done|]. split.
  - intros v Hty Hin Hne Hf. apply Hstop. by eapply build_fails_on_malformed.
  - intros H1 H2 H3. apply Hstop. by rewrite build_fails_on_unknown_type.
Qed.

(** A second column of type INT32 whose last row holds a word. *)
Lemma unencodable_column_stops_write_witness :
  is_ok (@Writer.write_cfile Ref.lib
           [{| cm_name := "n"; cm_type := "STRING" |}; {| cm_name := "x"; cm_type := "INT32" |}]
           [["a"; "b"; "c"]; ["1"; "2"; "three"]]%string) = false.
Proof.
  destruct (unencodable_column_stops_write Ref.lib
              [{| cm_name := "n"; cm_type := "STRING" |};
               {| cm_name := "x"; cm_type := "INT32" |}]
              [["a"; "b"; "c"]; ["1"; "2"; "three"]]%string 1
              {| cm_name := "x"; cm_type := "INT32" |} ["1"; "2"; "three"]%string
              eq_refl eq_refl) as (_ & Hbad & _).
  apply (Hbad "three"%string).
  - by left.
  - rewrite !elem_of_cons. right. right. by left.
  - done.
  - vm_compute. reflexivity.
Defined.

(** ** Inferred schemas *)

(** X14: the three tables of type codes agree.  The type [infer_type]
    returns is one of the codes 0, 1 and 2, and the name
    [infer_schema_from_csv] gives it is mapped back to the same code by the
    table [write_cfile] uses for the directory; so every entry of an
    inferred schema has one of the three type names, and [write_cfile]
    raises neither its [KeyError] nor the unknown-type error on it. *)
Theorem inferred_types_are_known (L : PyLib) (rdr : list (list string))
        (schema : list col_meta) :
  Writer.infer_schema_from_csv rdr = Ok schema ->
  (forall v : string,
     0 <= Writer.infer_type v <= 2 /\
     Writer.dtype_of_typename (Writer.typename (Writer.infer_type v))
     = Ok (Writer.infer_type v)) /\
  Forall (fun cm =>
            cm_type cm ∈ ["INT32"; "FLOAT64"; "STRING"]%string /\
            is_ok (Writer.dtype_of_typename (cm_type cm)) = true /\
            forall values : list string,
              Writer.build_uncompressed_block (cm_type cm) values
              <> Err (ValueError "Unknown type"))
         schema.
Proof.
  intros Hs.
  assert (Hcode : forall v : string,
            0 <= Writer.infer_type v <= 2 /\
            Writer.dtype_of_typename (Writer.typename (Writer.infer_type v))
            = Ok (Writer.infer_type v)).
  { intros v. unfold Writer.infer_type.
    destruct (String.eqb v EmptyString); [done|].
    destruct (int_of_str v); [done|]. by destruct (float_of_str v). }
  split; [done|].
  assert (Hknown : forall ty : string,
            ty ∈ ["INT32"; "FLOAT64"; "STRING"]%string ->
            is_ok (Writer.dtype_of_typename ty) = true /\
            forall values : list string,
              Writer.build_uncompressed_block ty values <> Err (ValueError "Unknown type")).
  { intros ty Hty. rewrite !elem_of_cons, elem_of_nil in Hty.
    destruct Hty as [->|[->|[->|[]]]]; (split; [done|]); intros values.
    - rewrite build_INT32. destruct (mapM Writer.encode_int32 values) as [ba|e] eqn:Hm; [done|].
      cbn [bind]. intros [= ->].
      assert (Hex : exists v, Writer.encode_int32 v = Err (ValueError "Unknown type")).
      { clear -Hm. induction values as [|v values IH]; [done|]. cbn in Hm.
        destruct (Writer.encode_int32 v) as [b|e] eqn:Hv; cbn in Hm.
        - destruct (mapM Writer.encode_int32 values); [done|]. apply IH. by injection Hm as ->.
        - exists v. by injection Hm as <-. }
      destruct Hex as [v Hv]. unfold Writer.encode_int32 in Hv.
      destruct (String.eqb v EmptyString); [done|].
      destruct (float_of_str v) as [f|]; [|done]. unfold float_trunc in Hv.
      destruct (_ =? 2047).
      + by destruct (_ =? 0).
      + cbn [bind] in Hv. unfold pack_i32 in Hv. by destruct (_ && _).
    - rewrite build_FLOAT64.
      destruct (mapM Writer.encode_float64 values) as [ba|e] eqn:Hm; [done|].
      cbn [bind]. intros [= ->].
      assert (Hex : exists v, Writer.encode_float64 v = Err (ValueError "Unknown type")).
      { clear -Hm. induction values as [|v values IH]; [done|]. cbn in Hm.
        destruct (Writer.encode_float64 v) as [b|e] eqn:Hv; cbn in Hm.
        - destruct (mapM Writer.encode_float64 values); [done|]. apply IH.
          by injection Hm as ->.
        - exists v. by injection Hm as <-. }
      destruct Hex as [v Hv]. unfold Writer.encode_float64 in Hv.
      destruct (String.eqb v EmptyString); [done|]. by destruct (float_of_str v).
    - rewrite build_STRING. 
      destruct (mapM pack_u32 _) as [ob|e] eqn:Hm; [done|]. cbn [bind]. intros [= ->].
      assert (Hex : forall vs, mapM pack_u32 vs = Err (ValueError "Unknown type") -> False).
      { clear. induction vs as [|v vs IH]; [done|]. cbn.
        unfold pack_u32 at 1, pack_unsigned. destruct (_ && _); [|done]. cbn [bind].
        destruct (mapM pack_u32 vs); [done|]. cbn. intros [= ->]. by apply IH. }
      by eapply Hex. }
  unfold Writer.infer_schema_from_csv in Hs.
  destruct rdr as [|header [|sample rest]]; [done| |]; injection Hs as <-.
  - apply Forall_forall. intros cm Hcm. apply list_elem_of_fmap in Hcm as (n & -> & _).
    cbn [cm_type]. split; [|by apply Hknown; rewrite !elem_of_cons; auto].
    rewrite !elem_of_cons. auto.
  - apply Forall_forall. intros cm Hcm. apply list_elem_of_lookup in Hcm as [i Hi].
    apply lookup_zip_with_Some in Hi as (n & v & -> & _ & _). cbn [cm_type].
    assert (Hty : Writer.typename (Writer.infer_type v) ∈ ["INT32"; "FLOAT64"; "STRING"]%string).
    { unfold Writer.typename. rewrite !elem_of_cons.
      destruct (_ =? 0); [auto|]. destruct (_ =? 1); auto. }
    split; [done|]. by apply Hknown.
Qed.

(** The schema inferred from the example source. *)
Lemma inferred_types_are_known_witness :
  Forall (fun cm => cm_type cm ∈ ["INT32"; "FLOAT64"; "STRING"]%string) Example.schema.
Proof.
  destruct (inferred_types_are_known Ref.lib
              [["id"; "score"; "name"]; ["1"; "2.5"; "a"]; ["2"; EmptyString; "bb"]]%string
              Example.schema) as [_ Hall].
  - vm_compute. reflexivity.
  - eapply Forall_impl; [exact Hall|]. intros cm Hcm. exact (proj1 Hcm).
Defined.

(** * From a CSV source to a file and back *)

Section Main.
Context `{PyLib}.
Import Writer Reader.

Lemma main_eq (header : list string) (rows : list (list string)) :
  main (header :: rows)
  = (schema <- infer_schema_from_csv (header :: rows) ;;
     write_cfile schema (map (csv_column rows) (seq 0 (length header)))).
Proof.
  unfold main. rewrite read_csv_columns_eq.
  destruct (infer_schema_from_csv (header :: rows)); done.
Qed.

(** [read_column_written] for a table that may have more columns than the
    schema has entries. *)
Lemma read_column_written_wide (schema : list col_meta) (table : list (list string))
      (n : nat) (file : bytes) :
  zlib_lossless -> json_lossless -> floats_are_doubles ->
  Forall (fun col => length col = n) table ->
  NoDup (map cm_name schema) ->
  Forall (fun cm => is_text (cm_name cm)) schema ->
  Forall (Forall is_text) table ->
  write_cfile schema table = Ok file ->
  len file < 2 ^ 63 ->
  exists self : CFileReader,
    CFileReader_init file = Ok self /\
    num_rows self = Z.of_nat n /\
    map name (columns self) = map cm_name schema /\
    Forall (fun c => exists cm, cm ∈ schema /\ name c = cm_name cm /\
                                dtype_of_typename (cm_type cm) = Ok (dtype c))
           (columns self) /\
    forall (j : nat) (cm : col_meta) (col : list string),
      schema !! j = Some cm -> table !! j = Some col ->
      exists vals, read_column self (cm_name cm) = Ok vals /\
                   mapM (coerce (cm_type cm)) col = Ok vals.
Proof.
  intros Hzlib Hjson Hdbl Hrect Hnd Hnames Htext Hw Hsize.
  destruct (reader_of_written _ _ _ Hjson Hnames Hw)
    as (col0 & blocks & header & pad & self & Hcol0 & _ & _ & _ & _ & _ & Hinit & _ & Hnr
        & _ & Hclen & Hcols).
  assert (Hn : length col0 = n) by (by eapply Forall_lookup_1 in Hrect).
  assert (Hdir : Forall (fun c => exists cm, cm ∈ schema /\ name c = cm_name cm /\
                                   dtype_of_typename (cm_type cm) = Ok (dtype c))
                        (columns self)).
  { apply Forall_forall. intros c Hc. apply list_elem_of_lookup in Hc as [j Hj].
    destruct (lookup_lt_is_Some_2 schema j) as [cm Hcm];
      [rewrite <- Hclen; by eapply lookup_lt_Some|].
    destruct (Hcols j cm Hcm) as (d & off & ub & comp & Hd & _ & _ & _ & _ & _ & Hmeta).
    rewrite Hj in Hmeta. injection Hmeta as ->. exists cm.
    split; [by eapply list_elem_of_lookup_2|]. done. }
  destruct schema as [|cm0 schema'] eqn:Hschema.
  - exists self. split; [done|]. split; [rewrite Hnr; unfold len; by rewrite Hn|].
    split; [by destruct (columns self)|]. split; [done|]. intros j cm col Hj. done.
  - rewrite <- Hschema in *.
    assert (Hne : schema <> []) by (by rewrite Hschema).
    pose proof (write_cfile_schema_le _ _ _ Hw) as Hle.
    assert (Hw' : write_cfile schema (take (length schema) table) = Ok file)
      by (by rewrite write_cfile_take).
    destruct (read_column_written schema (take (length schema) table) n file
                Hzlib Hjson Hdbl) as (self' & Hinit' & Hnr' & Hnm' & Hcols'); [|done|done|].
    { split; [rewrite length_take; lia|]. split; [by apply Forall_take|].
      split; [done|]. split; [done|]. by apply Forall_take. }
    rewrite Hinit in Hinit'. injection Hinit' as <-.
    exists self. split; [done|]. split; [done|]. split; [done|]. split; [done|].
    intros j cm col Hcm Hcol. apply (Hcols' j cm col Hcm).
    rewrite lookup_take_lt; [done|]. by eapply lookup_lt_Some.
Qed.

(** The rows [read_all] returns for such a file. *)
Lemma read_all_written_wide (schema : list col_meta) (table : list (list string))
      (n : nat) (file : bytes) :
  zlib_lossless -> json_lossless -> floats_are_doubles ->
  Forall (fun col => length col = n) table ->
  NoDup (map cm_name schema) ->
  Forall (fun cm => is_text (cm_name cm)) schema ->
  Forall (Forall is_text) table ->
  write_cfile schema table = Ok file ->
  len file < 2 ^ 63 ->
  exists (self : CFileReader) (rows : list (gmap string value)),
    CFileReader_init file = Ok self /\
    num_rows self = Z.of_nat n /\
    map name (columns self) = map cm_name schema /\
    Forall (fun c => exists cm, cm ∈ schema /\ name c = cm_name cm /\
                                dtype_of_typename (cm_type cm) = Ok (dtype c))
           (columns self) /\
    read_all self = Ok rows /\
    length rows = n /\
    forall (i : nat) (row : gmap string value),
      rows !! i = Some row ->
      (forall (j : nat) (cm : col_meta) (col : list string) (v : string),
         schema !! j = Some cm -> table !! j = Some col -> col !! i = Some v ->
         exists x : value, coerce (cm_type cm) v = Ok x /\ row !! cm_name cm = Some x) /\
      (forall k : string, is_Some (row !! k) -> k ∈ map cm_name schema).
Proof.
  intros Hzlib Hjson Hdbl Hrect Hnd Hnames Htext Hw Hsize.
  destruct (read_column_written_wide schema table n file Hzlib Hjson Hdbl Hrect Hnd Hnames
              Htext Hw Hsize) as (self & Hinit & Hnr & Hnm & Hdir & Hcols).
  pose proof (write_cfile_schema_le _ _ _ Hw) as Hle.
  assert (Hread : forall nm, nm ∈ map name (columns self) ->
            exists j cm col vals,
              schema !! j = Some cm /\ table !! j = Some col /\ cm_name cm = nm /\
              read_column self nm = Ok vals /\
              mapM (coerce (cm_type cm)) col = Ok vals).
  { intros nm Hin. rewrite Hnm in Hin. apply list_elem_of_fmap in Hin as (cm & -> & Hcm).
    apply list_elem_of_lookup in Hcm as [j Hj].
    destruct (lookup_lt_is_Some_2 table j) as [col Hcol];
      [apply lookup_lt_Some in Hj; lia|].
    destruct (Hcols j cm col Hj Hcol) as (vals & Hr & Hc).
    by exists j, cm, col, vals. }
  destruct (mapM_is_ok (read_column self) (map name (columns self))) as [data Hdata].
  { intros nm Hin. destruct (Hread nm Hin) as (j & cm & col & vals & _ & _ & _ & -> & _).
    done. }
  destruct (read_all_rows self data Hdata) as (rows & Hrows & Hrl & Hrow).
  { apply Forall_forall. intros vals Hin. apply list_elem_of_lookup in Hin as [k Hk].
    destruct (mapM_lookup_r _ _ _ _ _ Hdata Hk) as (nm & Hnm' & Hv).
    destruct (Hread nm (list_elem_of_lookup_2 _ _ _ Hnm'))
      as (j & cm & col & vals' & _ & Hcol & _ & Hv' & Hc).
    rewrite Hv in Hv'. injection Hv' as <-.
    apply mapM_length in Hc.
    eapply Forall_lookup_1 in Hrect; [|exact Hcol].
    rewrite Hnr. unfold len. lia. }
  exists self, rows. split; [done|]. split; [done|]. split; [done|]. split; [done|].
  split; [done|]. split; [rewrite Hrl, Hnr; lia|].
  intros i row Hi. destruct (Hrow i row Hi) as [Hbound Hother]. split.
  - intros j cm col v Hcm Hcol Hv.
    destruct (Hcols j cm col Hcm Hcol) as (vals & Hr & Hc).
    destruct (mapM_lookup _ _ _ _ _ Hc Hv) as (x & Hx & Hcx).
    exists x. split; [done|].
    destruct (Hbound (cm_name cm) vals) as [-> _]; [|done|done].
    rewrite Hnm. apply list_elem_of_fmap. exists cm. split; [done|].
    by eapply list_elem_of_lookup_2.
  - intros k Hk. rewrite <- Hnm.
    destruct (decide (k ∈ map name (columns self))) as [Hin|Hnin]; [done|].
    rewrite (Hother k Hnin) in Hk. by destruct Hk.
Qed.

(** Reading column [j] of a written file is decoding the block built for
    it. *)
Lemma read_column_of_written (schema : list col_meta) (table : list (list string))
      (file : bytes) :
  zlib_lossless -> json_lossless ->
  NoDup (map cm_name schema) ->
  Forall (fun cm => is_text (cm_name cm)) schema ->
  write_cfile schema table = Ok file ->
  len file < 2 ^ 63 ->
  exists (self : CFileReader) (col0 : list string),
    CFileReader_init file = Ok self /\
    table !! 0%nat = Some col0 /\
    num_rows self = len col0 /\
    map name (columns self) = map cm_name schema /\
    forall (j : nat) (cm : col_meta) (col : list string),
      schema !! j = Some cm -> table !! j = Some col ->
      exists (ub : bytes) (meta : ColumnMeta),
        columns self !! j = Some meta /\
        build_uncompressed_block (cm_type cm) col = Ok ub /\
        dtype_of_typename (cm_type cm) = Ok (dtype meta) /\
        num_values meta = len col0 /\
        read_column self (cm_name cm) = decode_values meta ub.
Proof.
  intros Hzlib Hjson Hnd Hnames Hw Hsize.
  destruct (reader_of_written _ _ _ Hjson Hnames Hw)
    as (col0 & blocks & header & pad & self & Hcol0 & Hblocks & Hpad & Halign & Hfile
        & Hparse & Hinit & Hpath & Hnr & Hnc & Hclen & Hcols).
  assert (Hmap : map name (columns self) = map cm_name schema).
  { apply list_eq. intros j. rewrite !list_lookup_fmap.
    destruct (schema !! j) as [cm|] eqn:Hcm.
    - destruct (Hcols j cm Hcm) as (d & off & ub & comp & _ & _ & _ & _ & _ & _ & ->). done.
    - apply lookup_ge_None in Hcm. rewrite (lookup_ge_None_2 (columns self) j) by lia. done. }
  exists self, col0. split; [done|]. split; [done|]. split; [done|]. split; [done|].
  intros j cm col Hcm Hcol.
  destruct (Hcols j cm Hcm)
    as (d & off & ub & comp & Hd & Hb & Hoff & Hoff0 & Hend & Htake & Hmeta).
  assert (Hzip : zip schema table !! j = Some (cm, col))
    by (apply lookup_zip_Some; by split).
  destruct (mapM_lookup _ _ _ _ _ Hblocks Hzip) as (b & Hb' & Henc).
  rewrite Hb in Hb'. injection Hb' as <-.
  apply encode_column_inv in Henc as [Hbuild ->].
  set (meta := {| name := cm_name cm; dtype := d; block_offset := off;
                  compressed_size := len (zlib_compress ub);
                  uncompressed_size := len ub; num_values := len col0 |}) in *.
  exists ub, meta. split; [done|]. split; [done|]. split; [done|]. split; [done|].
  unfold read_column.
  assert (Hfind : find (fun c' => String.eqb (name c') (cm_name cm)) (columns self)
                  = Some meta)
    by (apply (find_first_of_name (columns self) j meta); [by rewrite Hmap|done]).
  rewrite Hfind.
  pose proof (len_nonneg (zlib_compress ub)) as Hc0.
  rewrite read_column_uncompressed_eq by (cbn; lia).
  cbn [block_offset compressed_size uncompressed_size meta].
  rewrite Hpath.
  replace (Z.to_nat (len (zlib_compress ub))) with (length (zlib_compress ub))
    by (unfold len; by rewrite Nat2Z.id).
  rewrite Htake.
  cbv zeta. rewrite Z.eqb_refl. cbn [negb]. rewrite Hzlib. cbn [bind].
  rewrite Z.eqb_refl. cbn [negb bind]. done.
Qed.

Lemma names_of_inferred (header sample : list string) :
  map cm_name (zip_with (fun name sample =>
                           {| cm_name := name; cm_type := typename (infer_type sample) |})
                        header sample)
  = take (length sample) header.
Proof.
  revert sample. induction header as [|n header IH]; intros [|s sample]; cbn; try done.
  by rewrite IH.
Qed.

Lemma is_text_empty : is_text EmptyString.
Proof. done. Qed.

Lemma csv_columns_text (rows : list (list string)) (w : nat) :
  Forall (Forall is_text) rows ->
  Forall (Forall is_text) (map (csv_column rows) (seq 0 w)).
Proof.
  intros Hrows. apply Forall_forall. intros col Hcol.
  apply list_elem_of_fmap in Hcol as (i & -> & _). unfold csv_column.
  apply Forall_forall. intros v Hv. apply list_elem_of_fmap in Hv as (row & -> & Hrow).
  rewrite Forall_forall in Hrows. specialize (Hrows row Hrow).
  destruct (row !! i) as [v|] eqn:Hi; cbn; [|apply is_text_empty].
  rewrite Forall_forall in Hrows. apply Hrows. by eapply list_elem_of_lookup_2.
Qed.

Lemma csv_columns_rect (rows : list (list string)) (w : nat) :
  Forall (fun col => length col = length rows) (map (csv_column rows) (seq 0 w)).
Proof.
  apply Forall_forall. intros col Hcol. apply list_elem_of_fmap in Hcol as (i & -> & _).
  unfold csv_column. by rewrite length_map.
Qed.

End Main.

(** X16: a CSV source converted by [main] and read back with [read_all].
    Assume [zlib] and [json] lossless and [float] returning doubles, a
    source with at least one data row, text everywhere, and no name twice
    among the header names that face a field of the first data row.  If
    [main] returns a file, the reader opens it and [read_all] returns one row
    per data row; row [i] binds each of those names to the field of data row
    [i] in that position, or to the empty field when the row is too short,
    coerced to the type inferred from the first data row; and it binds
    nothing else. *)
Theorem csv_round_trip (L : PyLib) (header sample : list string)
        (rest : list (list string)) (file : bytes) :
  zlib_lossless -> json_lossless -> floats_are_doubles ->
  NoDup (take (length sample) header) ->
  Forall is_text header ->
  Forall (Forall is_text) (sample :: rest) ->
  Writer.main (header :: sample :: rest) = Ok file ->
  len file < 2 ^ 63 ->
  exists (self : Reader.CFileReader) (rows : list (gmap string value)),
    Reader.CFileReader_init file = Ok self /\
    Reader.read_all self = Ok rows /\
    length rows = S (length rest) /\
    forall (i : nat) (row : gmap string value) (r : list string),
      rows !! i = Some row -> (sample :: rest) !! i = Some r ->
      (forall (j : nat) (n s : string),
         header !! j = Some n -> sample !! j = Some s ->
         exists x : value,
           coerce (Writer.typename (Writer.infer_type s)) (default EmptyString (r !! j)) = Ok x /\
           row !! n = Some x) /\
      (forall k : string, is_Some (row !! k) -> k ∈ take (length sample) header).
Proof.
  intros Hzlib Hjson Hdbl Hnd Hhead Hrows Hmain Hsize.
  rewrite main_eq in Hmain. cbn [Writer.infer_schema_from_csv bind] in Hmain.
  set (schema := zip_with (fun name sample =>
                   {| cm_name := name;
                      cm_type := Writer.typename (Writer.infer_type sample) |})
                   header sample) in *.
  set (table := map (csv_column (sample :: rest)) (seq 0 (length header))) in *.
  destruct (read_all_written_wide schema table (S (length rest)) file Hzlib Hjson Hdbl)
    as (self & rows & Hinit & _ & _ & _ & Hread & Hlen & Hrow); [| | | |done|done|].
  - apply (csv_columns_rect (sample :: rest)).
  - subst schema. by rewrite names_of_inferred.
  - apply Forall_forall. intros cm Hcm. apply list_elem_of_lookup in Hcm as [j Hj].
    apply lookup_zip_with_Some in Hj as (n & s & -> & Hn & _). cbn.
    rewrite Forall_forall in Hhead. apply Hhead. by eapply list_elem_of_lookup_2.
  - by apply csv_columns_text.
  - exists self, rows. split; [done|]. split; [done|]. split; [done|].
    intros i row r Hi Hr. destruct (Hrow i row Hi) as [Hbound Hkeys]. split.
    + intros j n s Hn Hs.
      apply (Hbound j {| cm_name := n; cm_type := Writer.typename (Writer.infer_type s) |}
               (csv_column (sample :: rest) j) (default EmptyString (r !! j))).
      * subst schema. apply lookup_zip_with_Some. by exists n, s.
      * subst table. rewrite list_lookup_fmap, lookup_seq_lt; [done|].
        by eapply lookup_lt_Some.
      * unfold csv_column. by rewrite list_lookup_fmap, Hr.
    + intros k Hk. subst schema. rewrite <- names_of_inferred. by apply Hkeys.
Qed.

(** The example source: its two data rows come back as (1, 2.5, a) and
    (2, 0.0, bb). *)
Lemma csv_round_trip_witness :
  exists (self : Reader.CFileReader) (rows : list (gmap string value)),
    @Reader.CFileReader_init Ref.lib Example.file = Ok self /\
    @Reader.read_all Ref.lib self = Ok rows /\
    length rows = 2%nat.
Proof.
  destruct (csv_round_trip Ref.lib ["id"; "score"; "name"]%string ["1"; "2.5"; "a"]%string
              [["2"; EmptyString; "bb"]%string] Example.file)
    as (self & rows & Hinit & Hread & Hlen & _).
  - exact RefFacts.decompress_compress.
  - exact RefFacts.loads_dumps.
  - exact RefFacts.float_of_str_range.
  - repeat constructor; rewrite ?elem_of_cons, ?elem_of_nil; intros Hin;
      repeat (destruct Hin as [Hin|Hin]; [discriminate|]); done.
  - by repeat constructor.
  - by repeat constructor.
  - vm_compute. reflexivity.
  - vm_compute. reflexivity.
  - exists self, rows. exact (conj Hinit (conj Hread Hlen)).
Defined.

(** X17: which columns of a CSV source reach the file.  The schema pairs the
    header with the first data row, so the file [main] returns has one
    column for each header name that faces a field of that row, in order,
    with the type code inferred from that field; [num_rows] is the number of
    data rows; and a header name beyond the width of the first data row is
    not in the file, though the later rows may have a field for it: reading
    it raises [KeyError]. *)
Theorem main_keeps_sampled_columns (L : PyLib) (header sample : list string)
        (rest : list (list string)) (file : bytes) :
  json_lossless ->
  Forall is_text header ->
  Writer.main (header :: sample :: rest) = Ok file ->
  exists self : Reader.CFileReader,
    Reader.CFileReader_init file = Ok self /\
    Reader.num_rows self = len (sample :: rest) /\
    Reader.num_columns self = Z.of_nat (length header `min` length sample) /\
    map Reader.name (Reader.columns self) = take (length sample) header /\
    (forall (j : nat) (c : Reader.ColumnMeta),
       Reader.columns self !! j = Some c ->
       exists s : string, sample !! j = Some s /\ Reader.dtype c = Writer.infer_type s) /\
    (forall n : string,
       n ∉ take (length sample) header ->
       Reader.read_column self n = Err (KeyError "no such column")).
Proof.
  intros Hjson Hhead Hmain.
  rewrite main_eq in Hmain. cbn [Writer.infer_schema_from_csv bind] in Hmain.
  set (schema := zip_with (fun name sample =>
                   {| cm_name := name;
                      cm_type := Writer.typename (Writer.infer_type sample) |})
                   header sample) in *.
  set (table := map (csv_column (sample :: rest)) (seq 0 (length header))) in *.
  assert (Htext : Forall (fun cm => is_text (cm_name cm)) schema).
  { apply Forall_forall. intros cm Hcm. apply list_elem_of_lookup in Hcm as [j Hj].
    apply lookup_zip_with_Some in Hj as (n & s & -> & Hn & _). cbn.
    rewrite Forall_forall in Hhead. apply Hhead. by eapply list_elem_of_lookup_2. }
  destruct (reader_of_written _ _ _ Hjson Htext Hmain)
    as (col0 & blocks & hd & pad & self & Hcol0 & _ & _ & _ & _ & _ & Hinit & _ & Hnr
        & Hnc & Hclen & Hcols).
  assert (Hnames : map Reader.name (Reader.columns self) = take (length sample) header).
  { rewrite <- names_of_inferred. fold schema. apply list_eq. intros j.
    rewrite !list_lookup_fmap. destruct (schema !! j) as [cm|] eqn:Hcm.
    - destruct (Hcols j cm Hcm) as (d & off & ub & comp & _ & _ & _ & _ & _ & _ & ->). done.
    - apply lookup_ge_None in Hcm.
      rewrite (lookup_ge_None_2 (Reader.columns self) j) by lia. done. }
  exists self. split; [done|]. split.
  { rewrite Hnr. subst table. rewrite list_lookup_fmap in Hcol0.
    destruct (seq 0 (length header) !! 0%nat) as [i|]; [|done]. injection Hcol0 as <-.
    unfold csv_column, len. cbn [length]. by rewrite length_map. }
  split.
  { rewrite Hnc. subst schema. unfold len. by rewrite length_zip_with. }
  split; [done|]. split.
  - intros j c Hc.
    destruct (lookup_lt_is_Some_2 schema j) as [cm Hcm];
      [rewrite <- Hclen; by eapply lookup_lt_Some|].
    destruct (Hcols j cm Hcm) as (d & off & ub & comp & Hd & _ & _ & _ & _ & _ & Hmeta).
    rewrite Hc in Hmeta. injection Hmeta as ->.
    apply lookup_zip_with_Some in Hcm as (n & s & -> & _ & Hs). exists s. split; [done|].
    cbn in *. clear -Hd. unfold Writer.infer_type in *.
    destruct (String.eqb s EmptyString); [by injection Hd|].
    destruct (int_of_str s); [by injection Hd|].
    destruct (float_of_str s); by injection Hd.
  - intros n Hn. apply read_column_missing. by rewrite Hnames.
Qed.

(** A header of three names over a first data row of two fields: the third
    column is not in the file, although the second data row has a value for
    it. *)
Lemma main_keeps_sampled_columns_witness :
  exists (file : bytes) (self : Reader.CFileReader),
    @Writer.main Ref.lib [["a"; "b"; "c"]; ["1"; "x"]; ["2"; "y"; "z"]]%string = Ok file /\
    @Reader.CFileReader_init Ref.lib file = Ok self /\
    map Reader.name (Reader.columns self) = ["a"; "b"]%string /\
    @Reader.read_column Ref.lib self "c" = Err (KeyError "no such column").
Proof.
  assert (Hex : exists file,
            @Writer.main Ref.lib [["a"; "b"; "c"]; ["1"; "x"]; ["2"; "y"; "z"]]%string
            = Ok file) by (eexists; vm_compute; reflexivity).
  destruct Hex as [file Hfile].
  destruct (main_keeps_sampled_columns Ref.lib ["a"; "b"; "c"]%string ["1"; "x"]%string
              [["2"; "y"; "z"]%string] file RefFacts.loads_dumps)
    as (self & Hinit & _ & _ & Hnames & _ & Hmissing).
  - by repeat constructor.
  - exact Hfile.
  - exists file, self. split; [exact Hfile|]. split; [exact Hinit|]. split; [exact Hnames|].
    apply Hmissing. cbn. rewrite !elem_of_cons, elem_of_nil.
    intros [Hc|[Hc|[]]]; discriminate.
Defined.

(** X15: a source with a header line and no data row.  If [main] returns a
    file for it ([zlib] and [json] lossless, the names text and distinct),
    the file opens with zero rows and one STRING column of no value for each
    header name, every column reads back as the empty list, and [read_all]
    returns no row. *)
Theorem header_only_source (L : PyLib) (header : list string) (file : bytes) :
  zlib_lossless -> json_lossless ->
  NoDup header ->
  Forall is_text header ->
  Writer.main [header] = Ok file ->
  len file < 2 ^ 63 ->
  exists self : Reader.CFileReader,
    Reader.CFileReader_init file = Ok self /\
    Reader.num_rows self = 0 /\
    map Reader.name (Reader.columns self) = header /\
    Forall (fun c => Reader.dtype c = DT_STRING /\ Reader.num_values c = 0)
           (Reader.columns self) /\
    (forall n : string, n ∈ header -> Reader.read_column self n = Ok []) /\
    Reader.read_all self = Ok [].
Proof.
  intros Hzlib Hjson Hnd Hhead Hmain Hsize.
  rewrite main_eq in Hmain. cbn [Writer.infer_schema_from_csv bind] in Hmain.
  set (schema := map (fun n => {| cm_name := n; cm_type := "STRING" |}) header) in *.
  set (table := map (csv_column []) (seq 0 (length header))) in *.
  assert (Hnm : map cm_name schema = header).
  { subst schema. rewrite map_map. cbn. apply map_id. }
  destruct (read_column_of_written schema table file Hzlib Hjson)
    as (self & col0 & Hinit & Hcol0 & Hnr & Hnames & Hcols); [by rewrite Hnm| |done|done|].
  { apply Forall_forall. intros cm Hcm. subst schema.
    apply list_elem_of_fmap in Hcm as (n & -> & Hn). cbn.
    rewrite Forall_forall in Hhead. by apply Hhead. }
  assert (Hc0 : col0 = []).
  { subst table. rewrite list_lookup_fmap in Hcol0.
    destruct (seq 0 (length header) !! 0%nat); [|done]. by injection Hcol0 as <-. }
  subst col0.
  assert (Hentry : forall (j : nat) (c : Reader.ColumnMeta),
            Reader.columns self !! j = Some c ->
            Reader.dtype c = DT_STRING /\ Reader.num_values c = 0 /\
            Reader.read_column self (Reader.name c) = Ok []).
  { intros j c Hc.
    assert (Hj : (j < length header)%nat).
    { apply lookup_lt_Some in Hc. rewrite <- (length_map Reader.name), Hnames, Hnm in Hc.
      done. }
    destruct (lookup_lt_is_Some_2 header j Hj) as [n Hn].
    destruct (Hcols j {| cm_name := n; cm_type := "STRING" |} [])
      as (ub & meta & Hmeta & Hbuild & Hd & Hnv & Hread).
    { subst schema. by rewrite list_lookup_fmap, Hn. }
    { subst table. by rewrite list_lookup_fmap, lookup_seq_lt. }
    rewrite Hc in Hmeta. injection Hmeta as <-. cbn in Hd. injection Hd as Hd.
    split; [done|]. split; [done|].
    assert (Hname : Reader.name c = n).
    { apply (f_equal (fun l => l !! j)) in Hnames.
      rewrite !list_lookup_fmap, Hc in Hnames. subst schema.
      rewrite list_lookup_fmap, Hn in Hnames. cbn in Hnames. by injection Hnames. }
    rewrite Hname. cbn in Hread. rewrite Hread.
    by apply (decode_STRING_block [] ub c). }
  assert (Hreadn : forall n : string, n ∈ header -> Reader.read_column self n = Ok []).
  { intros n Hn. rewrite <- Hnm, <- Hnames in Hn.
    apply list_elem_of_fmap in Hn as (c & -> & Hc). apply list_elem_of_lookup in Hc as [j Hj].
    by destruct (Hentry j c Hj) as (_ & _ & Hr). }
  exists self. split; [done|]. split; [done|]. split; [by rewrite Hnames|]. split.
  - apply Forall_forall. intros c Hc. apply list_elem_of_lookup in Hc as [j Hj].
    destruct (Hentry j c Hj) as (Hd & Hv & _). done.
  - split; [done|]. unfold Reader.read_all.
    destruct (mapM_is_ok (Reader.read_column self) (map Reader.name (Reader.columns self)))
      as [data ->].
    { intros n Hn. rewrite Hnames, Hnm in Hn. by rewrite Hreadn. }
    cbn [bind]. by rewrite Hnr.
Qed.

(** The header of the example source alone. *)
Lemma header_only_source_witness :
  exists self : Reader.CFileReader,
    @Reader.CFileReader_init Ref.lib Example.header_only_file = Ok self /\
    Reader.num_rows self = 0 /\
    map Reader.name (Reader.columns self) = ["id"; "score"; "name"]%string /\
    @Reader.read_all Ref.lib self = Ok [].
Proof.
  destruct (header_only_source Ref.lib ["id"; "score"; "name"]%string
              Example.header_only_file RefFacts.decompress_compress RefFacts.loads_dumps)
    as (self & Hinit & Hnr & Hnames & _ & _ & Hall).
  - repeat constructor; rewrite ?elem_of_cons, ?elem_of_nil; intros Hin;
      repeat (destruct Hin as [Hin|Hin]; [discriminate|]); done.
  - by repeat constructor.
  - vm_compute. reflexivity.
  - vm_compute. reflexivity.
  - exists self. exact (conj Hinit (conj Hnr (conj Hnames Hall))).
Defined.

(** X18: sources without a column.  [main] raises [StopIteration] on a
    source with no line at all, and [IndexError] on a source whose header
    line has no field, whatever rows follow: there is no first column to
    count the rows of. *)
Theorem main_without_columns (L : PyLib) :
  Writer.main [] = Err StopIteration /\
  forall rows : list (list string), Writer.main ([] :: rows) = Err IndexError.
Proof.
  split; [done|]. intros rows. rewrite main_eq.
  destruct rows as [|sample rest]; cbn [Writer.infer_schema_from_csv bind]; [done|].
  by destruct sample.
Qed.

(** * The export to CSV *)

(** ** Escaping a field *)






Section Escape.
Context `{PyRepr}.
Import CustomToCsv.



End Escape.


(** ** The rows of the export *)

Lemma zip_star_lookup {A : Type} (lists : list (list A)) : forall (i : nat) (row : list A),
  lists <> [] ->
  CustomToCsv.zip_star lists !! i = Some row
  <-> Forall2 (fun l x => l !! i = Some x) lists row.
Proof.
  induction lists as [|l lists IH]; intros i row Hne; [done|].
  destruct lists as [|l' lists].
  - cbn [CustomToCsv.zip_star]. rewrite list_lookup_fmap. split.
    + destruct (l !! i) as [x|] eqn:Hx; [|done]. intros [= <-].
      constructor; [done|constructor].
    + intros Hf. inversion Hf as [|? x ? row' Hx Hr]; subst. inversion Hr; subst.
      by rewrite Hx.
  - change (CustomToCsv.zip_star (l :: l' :: lists))
      with (zip_with cons l (CustomToCsv.zip_star (l' :: lists))).
    rewrite lookup_zip_with_Some. split.
    + intros (x & r & -> & Hx & Hr). constructor; [done|]. by apply IH.
    + intros Hf. inversion Hf as [|? x ? r Hx Hr]; subst. exists x, r.
      split; [done|]. split; [done|]. by apply IH.
Qed.

Lemma Forall2_columns_exist {A : Type} (lists : list (list A)) (i : nat) :
  Forall (fun l => (i < length l)%nat) lists ->
  exists row, Forall2 (fun l x => l !! i = Some x) lists row.
Proof.
  induction 1 as [|l lists Hl _ [row IH]]; [by exists []|].
  destruct (lookup_lt_is_Some_2 l i Hl) as [x Hx]. exists (x :: row). by constructor.
Qed.

Section Rows.
Context `{PyLib}.
Import Reader CustomToCsv.

(** The lists the select branch hands to [zip]. *)
Lemma select_lists (r : CFileReader) (cols : list string)
      (hr : list string * list (list value)) :
  select_rows r cols = Ok hr ->
  exists lists : list (list value),
    mapM (read_column r) cols = Ok lists /\ hr = (cols, zip_star lists).
Proof.
  unfold select_rows. intros Hs. inv_bind Hs. rename a into data.
  inv_bind Hs. rename a into lists. injection Hs as <-.
  pose proof (read_columns_Ok r cols data Ha) as Hlook.
  unfold read_columns in Ha. rewrite read_columns_loop in Ha. inv_bind Ha.
  rename a into lists'. exists lists. split; [|done].
  apply mapM_Forall2 in Ha1. apply mapM_Forall2 in Ha0. apply mapM_Forall2.
  assert (Hgen : forall (cs : list string) (ls ls' : list (list value)),
            (forall c, c ∈ cs -> c ∈ cols) ->
            Forall2 (fun c l => getitem data c = Ok l) cs ls ->
            Forall2 (fun c l => read_column r c = Ok l) cs ls' ->
            Forall2 (fun c l => read_column r c = Ok l) cs ls).
  { clear -Hlook. induction cs as [|c cs IH]; intros ls ls' Hin H0 H1.
    - inversion H0; subst. constructor.
    - inversion H0 as [|? l ? ls0 Hc Hr]; subst.
      inversion H1 as [|? l' ? ls0' Hc' Hr']; subst.
      constructor.
      + unfold getitem in Hc. rewrite Hlook in Hc.
        rewrite bool_decide_true in Hc by (apply Hin; left). rewrite Hc' in Hc.
        by injection Hc as <-.
      + eapply IH; [|done|done]. intros c0 Hc0. apply Hin. by right. }
  by apply (Hgen cols lists lists').
Qed.

Lemma select_rows_eq (r : CFileReader) (cols : list string) :
  select_rows r cols
  = (lists <- mapM (read_column r) cols ;; Ok (cols, zip_star lists)).
Proof.
  destruct (select_rows r cols) as [hr|e] eqn:Hs.
  - destruct (select_lists r cols hr Hs) as (lists & -> & ->). done.
  - unfold select_rows in Hs. unfold read_columns in Hs. rewrite read_columns_loop in Hs.
    destruct (mapM (read_column r) cols) as [lists|e'] eqn:Hm; [|by injection Hs as ->].
    exfalso. cbn [bind] in Hs.
    set (data := foldl (fun acc nv => <[fst nv := snd nv]> acc) ∅ (zip cols lists)) in *.
    destruct (mapM_is_ok (getitem data) cols) as [ls Hls].
    + intros c Hc. unfold getitem.
      destruct (zip_names_data _ _ _ Hm) as [Hfst Hall].
      set (g := fun m => match read_column r m with Ok v => v | Err _ => [] end).
      subst data. rewrite (insert_all_lookup g).
      * rewrite Hfst, bool_decide_true by done. done.
      * eapply Forall_impl; [exact Hall|]. intros [m vs] Hmv. cbn in *. subst g. cbn.
        by rewrite Hmv.
    + by rewrite Hls in Hs.
Qed.

End Rows.

(** X21: the rows of the branch of [main] that selects columns.  It reads
    every selected name, in order, and fails with the error of the first
    that cannot be read.  Otherwise the headers are the selected names, and
    row [i] exists exactly when every selected column has a value [i], and
    then it holds those values in the order of the names: the rows stop at
    the shortest selected column, whatever the row count of the file, and
    no error tells that a longer column was cut. *)
Theorem select_rows_stop_at_shortest (L : PyLib) (r : Reader.CFileReader)
        (cols : list string) (headers : list string) (rows : list (list value)) :
  CustomToCsv.select_rows r cols = Ok (headers, rows) ->
  headers = cols /\
  (cols = [] -> rows = []) /\
  (cols <> [] ->
   (forall (i : nat) (row : list value),
      rows !! i = Some row
      <-> Forall2 (fun c x => exists vals, Reader.read_column r c = Ok vals /\
                                           vals !! i = Some x) cols row) /\
   (forall i : nat,
      (i < length rows)%nat
      <-> forall c, c ∈ cols ->
            exists vals, Reader.read_column r c = Ok vals /\ (i < length vals)%nat)).
Proof.
  intros Hs. destruct (select_lists r cols _ Hs) as (lists & Hm & [= -> ->]).
  split; [done|]. split; [intros ->; by injection Hm as <-|]. intros Hne.
  assert (Hlne : lists <> []).
  { intros ->. apply mapM_length in Hm. by destruct cols. }
  apply mapM_Forall2 in Hm.
  assert (Hrow : forall (i : nat) (row : list value),
            CustomToCsv.zip_star lists !! i = Some row
            <-> Forall2 (fun c x => exists vals, Reader.read_column r c = Ok vals /\
                                                 vals !! i = Some x) cols row).
  { intros i row. rewrite zip_star_lookup by done. clear Hs Hne Hlne. revert row.
    induction Hm as [|c l cols lists Hc _ IH]; intros row.
    - split; intros Hf; inversion Hf; constructor.
    - split; intros Hf; inversion Hf as [|? x ? row' Hx Hr]; subst.
      + constructor; [by exists l|by apply IH].
      + constructor; [|by apply IH]. destruct Hx as (vals & Hv & Hx).
        rewrite Hc in Hv. by injection Hv as <-. }
  split; [done|]. intros i. split.
  - intros Hi. destruct (lookup_lt_is_Some_2 _ _ Hi) as [row Hr]. apply Hrow in Hr.
    clear -Hr. induction Hr as [|c x cols row (vals & Hv & Hx) _ IH]; intros c' Hc'.
    + by apply elem_of_nil in Hc'.
    + apply elem_of_cons in Hc' as [->|Hc']; [|by apply IH].
      exists vals. split; [done|]. by eapply lookup_lt_Some.
  - intros Hall. apply lookup_lt_is_Some.
    destruct (Forall2_columns_exist lists i) as [row Hr].
    + apply Forall_forall. intros l Hl. apply list_elem_of_lookup in Hl as [j Hj].
      destruct (Forall2_lookup_r _ _ _ _ _ Hm Hj) as (c & Hc & Hcl).
      destruct (Hall c (list_elem_of_lookup_2 _ _ _ Hc)) as (vals & Hv & Hlt).
      rewrite Hcl in Hv. by injection Hv as <-.
    + exists row. by apply zip_star_lookup.
Qed.

(** One row of the selection: the reader, the file whose header announces one
    row over a column of two values. *)
Lemma select_rows_stop_at_shortest_witness :
  @CustomToCsv.select_rows Ref.lib ExampleReader.short_count_reader ["id"%string]
  = Ok (["id"%string], [[VInt 1]; [VInt 2]]) /\
  ((1 < length [[VInt 1]; [VInt 2]])%nat
   <-> forall c, c ∈ ["id"%string] ->
         exists vals, @Reader.read_column Ref.lib ExampleReader.short_count_reader c = Ok vals /\
                      (1 < length vals)%nat).
Proof.
  assert (Hs : @CustomToCsv.select_rows Ref.lib ExampleReader.short_count_reader ["id"%string]
               = Ok (["id"%string], [[VInt 1]; [VInt 2]])) by (vm_compute; reflexivity).
  destruct (select_rows_stop_at_shortest Ref.lib ExampleReader.short_count_reader
              ["id"%string] ["id"%string] [[VInt 1]; [VInt 2]] Hs) as (_ & _ & Hrows).
  destruct (Hrows ltac:(done)) as [_ Hlen].
  exact (conj Hs (Hlen 1%nat)).
Defined.

Section BothBranches.
Context `{PyLib}.
Import Reader CustomToCsv.

Lemma counts_agree_lengths (r : CFileReader) (names : list string)
      (data : list (list value)) :
  counts_agree r ->
  mapM (read_column r) names = Ok data ->
  Forall (fun vals => length vals = Z.to_nat (num_rows r)) data.
Proof.
  intros Hc Hm. apply Forall_forall. intros vals Hv.
  apply list_elem_of_lookup in Hv as [j Hj].
  destruct (mapM_lookup_r _ _ _ _ _ Hm Hj) as (n & _ & Hr).
  destruct (read_column_find _ _ _ Hr) as (meta & _ & Hin & _ & Hlen).
  unfold counts_agree in Hc. rewrite Forall_forall in Hc. by rewrite Hlen, (Hc meta Hin).
Qed.

Lemma select_all_rows (r : CFileReader) :
  counts_agree r -> columns r <> [] ->
  select_rows r (map name (columns r)) = all_rows r.
Proof.
  intros Hc Hne. rewrite select_rows_eq. unfold all_rows.
  set (names := map name (columns r)).
  destruct (mapM (read_column r) names) as [data|e] eqn:Hm.
  2:{ unfold read_all. fold names. by rewrite Hm. }
  pose proof (counts_agree_lengths r names data Hc Hm) as Hlens.
  destruct (read_all_rows r data Hm) as (dict_rows & Hread & Hlen & Hrow).
  { eapply Forall_impl; [exact Hlens|]. intros vals Hv. cbv beta in Hv. unfold len. lia. }
  rewrite Hread. cbn [bind].
  destruct (zip_names_data _ _ _ Hm) as [_ Hzip].
  assert (Hdata : Forall2 (fun n vals => read_column r n = Ok vals) names data)
    by (by apply mapM_Forall2).
  (* the inner loop of the second branch, for a row of [read_all] *)
  assert (Hinner : forall (i : nat) (dr : gmap string value), dict_rows !! i = Some dr ->
            exists row, mapM (getitem dr) names = Ok row /\
                        Forall2 (fun vals x => vals !! i = Some x) data row).
  { intros i dr Hdr. destruct (Hrow i dr Hdr) as [Hbound _].
    assert (Hgen : forall (ns : list string) (ds : list (list value)),
              (forall n, n ∈ ns -> n ∈ map name (columns r)) ->
              Forall2 (fun n vals => read_column r n = Ok vals) ns ds ->
              exists row, mapM (getitem dr) ns = Ok row /\
                          Forall2 (fun vals x => vals !! i = Some x) ds row).
    { intros ns ds Hsub Hf. induction Hf as [|n vals ns ds Hn _ IH].
      - exists []. split; [done|constructor].
      - destruct IH as (row & Hrow' & Hf); [intros m Hm'; apply Hsub; by right|].
        destruct (Hbound n vals) as [Hlook [x Hx]]; [apply Hsub; left|done|].
        exists (x :: row). split.
        + cbn [mapM]. unfold getitem at 1. rewrite Hlook, Hx. cbn [bind]. by rewrite Hrow'.
        + by constructor. }
    by apply Hgen. }
  destruct (mapM_is_ok (fun dr => mapM (getitem dr) names) dict_rows) as [rows Hrows].
  { intros dr Hdr. apply list_elem_of_lookup in Hdr as [i Hi].
    destruct (Hinner i dr Hi) as (row & -> & _). done. }
  rewrite Hrows. cbn [bind]. do 2 f_equal.
  assert (Hdne : data <> []).
  { intros ->. apply mapM_length in Hm. subst names. rewrite length_map in Hm.
    by destruct (columns r). }
  apply list_eq. intros i.
  destruct (rows !! i) as [row|] eqn:Hr.
  - apply zip_star_lookup; [done|].
    destruct (mapM_lookup_r _ _ _ _ _ Hrows Hr) as (dr & Hdr & Hmr).
    destruct (Hinner i dr Hdr) as (row' & Hmr' & Hf). rewrite Hmr in Hmr'.
    by injection Hmr' as <-.
  - destruct (zip_star data !! i) as [row|] eqn:Hz; [|done]. exfalso.
    apply zip_star_lookup in Hz; [|done].
    apply lookup_ge_None in Hr. apply mapM_length in Hrows. rewrite Hrows, Hlen in Hr.
    destruct data as [|vals data]; [done|]. inversion Hz as [|? x ? ? Hx _]; subst.
    apply lookup_lt_Some in Hx. inversion Hlens as [|? ? Hv _]; subst. lia.
Qed.

End BothBranches.

(** X20: the two branches of [main] agree on a consistent file.  For a reader
    with at least one column whose directory entries all announce the row
    count of the file, selecting every column by name, in the order of the
    directory, gives the headers and rows of the export without selection,
    values and errors alike; so [main] writes the same text either way. *)
Theorem select_all_matches_read_all (L : PyLib) (R : PyRepr) (input : bytes)
        (r : Reader.CFileReader) :
  Reader.CFileReader_init input = Ok r ->
  counts_agree r ->
  Reader.columns r <> [] ->
  CustomToCsv.select_rows r (map Reader.name (Reader.columns r)) = CustomToCsv.all_rows r /\
  CustomToCsv.main input (Some (map Reader.name (Reader.columns r)))
  = CustomToCsv.main input None.
Proof.
  intros Hinit Hc Hne. pose proof (select_all_rows r Hc Hne) as Hrows.
  split; [done|]. unfold CustomToCsv.main. rewrite Hinit. cbn [bind]. by rewrite Hrows.
Qed.

(** The export of the example file, with and without the selection of its
    three columns. *)
Lemma select_all_matches_read_all_witness :
  @CustomToCsv.main Ref.lib Ref.repr Example.file (Some ["id"; "score"; "name"]%string)
  = @CustomToCsv.main Ref.lib Ref.repr Example.file None /\
  @CustomToCsv.main Ref.lib Ref.repr Example.file None
  = Ok ("id,score,name" +:+ CustomToCsv.newline +:+ "1,2.5,a" +:+ CustomToCsv.newline
          +:+ "2,0.0,bb" +:+ CustomToCsv.newline).
Proof.
  destruct (select_all_matches_read_all Ref.lib Ref.repr Example.file ExampleReader.reader)
    as [_ Hmain].
  - vm_compute. reflexivity.
  - by repeat constructor.
  - done.
  - split; [exact Hmain|]. vm_compute. reflexivity.
Defined.

(** ** From CSV to CSV *)

(** X22: a CSV source converted to a file by the writer's [main] and exported
    again by the [main] of the export, without selection.  Under the
    assumptions of the round trip (lossless [zlib] and [json], doubles, text,
    distinct names), the export succeeds; its header line holds the header
    names that face a field of the first data row; it has one line per data
    row; and field [j] of line [i] is the escaped [str] of the field of the
    source in that place (the empty field where the row is short), coerced to
    the type inferred from the first data row: numbers come back normalised,
    an empty numeric field as zero. *)
Theorem csv_to_cfile_to_csv (L : PyLib) (R : PyRepr) (header sample : list string)
        (rest : list (list string)) (file : bytes) :
  zlib_lossless -> json_lossless -> floats_are_doubles ->
  NoDup (take (length sample) header) ->
  Forall is_text header ->
  Forall (Forall is_text) (sample :: rest) ->
  Writer.main (header :: sample :: rest) = Ok file ->
  len file < 2 ^ 63 ->
  exists rows : list (list value),
    CustomToCsv.main file None
    = Ok (CustomToCsv.write_csv (take (length sample) header) rows) /\
    length rows = S (length rest) /\
    forall (i : nat) (vs : list value) (r : list string),
      rows !! i = Some vs -> (sample :: rest) !! i = Some r ->
      length vs = (length header `min` length sample)%nat /\
      forall (j : nat) (s : string),
        (j < length header)%nat -> sample !! j = Some s ->
        exists x : value,
          vs !! j = Some x /\
          coerce (Writer.typename (Writer.infer_type s)) (default EmptyString (r !! j)) = Ok x.
Proof.
  intros Hzlib Hjson Hdbl Hnd Hhead Hrows Hmain Hsize.
  rewrite main_eq in Hmain. cbn [Writer.infer_schema_from_csv bind] in Hmain.
  set (schema := zip_with (fun name sample =>
                   {| cm_name := name;
                      cm_type := Writer.typename (Writer.infer_type sample) |})
                   header sample) in *.
  set (table := map (csv_column (sample :: rest)) (seq 0 (length header))) in *.
  destruct (read_all_written_wide schema table (S (length rest)) file Hzlib Hjson Hdbl)
    as (self & drows & Hinit & _ & Hnames & _ & Hread & Hlen & Hrow); [| | | |done|done|].
  { apply (csv_columns_rect (sample :: rest)). }
  { subst schema. by rewrite names_of_inferred. }
  { apply Forall_forall. intros cm Hcm. apply list_elem_of_lookup in Hcm as [j Hj].
    apply lookup_zip_with_Some in Hj as (n & s & -> & Hn & _). cbn.
    rewrite Forall_forall in Hhead. apply Hhead. by eapply list_elem_of_lookup_2. }
  { by apply csv_columns_text. }
  assert (Hnm : map Reader.name (Reader.columns self) = take (length sample) header).
  { rewrite Hnames. subst schema. apply names_of_inferred. }
  set (names := take (length sample) header) in *.
  (* the value row [i] binds to the name in place [j] *)
  assert (Hcell : forall (i : nat) (dr : gmap string value) (r : list string)
                         (j : nat) (n : string),
            drows !! i = Some dr -> (sample :: rest) !! i = Some r ->
            names !! j = Some n ->
            exists (s : string) (x : value),
              sample !! j = Some s /\ dr !! n = Some x /\
              coerce (Writer.typename (Writer.infer_type s))
                     (default EmptyString (r !! j)) = Ok x).
  { intros i dr r j n Hdr Hr Hn. subst names. apply lookup_take_Some in Hn as [Hn Hj].
    destruct (lookup_lt_is_Some_2 sample j Hj) as [s Hs].
    destruct (Hrow i dr Hdr) as [Hbound _].
    destruct (Hbound j {| cm_name := n; cm_type := Writer.typename (Writer.infer_type s) |}
                (csv_column (sample :: rest) j) (default EmptyString (r !! j)))
      as (x & Hx & Hlook).
    - subst schema. apply lookup_zip_with_Some. by exists n, s.
    - subst table. rewrite list_lookup_fmap, lookup_seq_lt; [done|].
      by eapply lookup_lt_Some.
    - unfold csv_column. by rewrite list_lookup_fmap, Hr.
    - by exists s, x. }
  assert (Hline : forall (i : nat) (dr : gmap string value), drows !! i = Some dr ->
            exists vs, mapM (CustomToCsv.getitem dr) names = Ok vs).
  { intros i dr Hdr. apply mapM_is_ok. intros n Hn.
    apply list_elem_of_lookup in Hn as [j Hj].
    destruct (lookup_lt_is_Some_2 (sample :: rest) i) as [r Hr];
      [cbn [length]; rewrite <- Hlen; by eapply lookup_lt_Some|].
    destruct (Hcell i dr r j n Hdr Hr Hj) as (s & x & _ & Hx & _).
    unfold CustomToCsv.getitem. by rewrite Hx. }
  destruct (mapM_is_ok (fun dr => mapM (CustomToCsv.getitem dr) names) drows)
    as [rows Hrs].
  { intros dr Hdr. apply list_elem_of_lookup in Hdr as [i Hi].
    destruct (Hline i dr Hi) as [vs ->]. done. }
  exists rows. split.
  { unfold CustomToCsv.main. rewrite Hinit. cbn [bind]. unfold CustomToCsv.all_rows.
    rewrite Hread. cbn [bind]. rewrite Hnm, Hrs. done. }
  split; [by rewrite (mapM_length _ _ _ Hrs)|].
  intros i vs r Hvs Hr.
  destruct (mapM_lookup_r _ _ _ _ _ Hrs Hvs) as (dr & Hdr & Hm).
  pose proof (mapM_length _ _ _ Hm) as Hl. split.
  { rewrite Hl. subst names. rewrite length_take. lia. }
  intros j s Hj Hs.
  assert (Hn : exists n, names !! j = Some n).
  { destruct (lookup_lt_is_Some_2 header j Hj) as [n Hn]. exists n. subst names.
    apply lookup_take_Some. split; [done|]. by eapply lookup_lt_Some. }
  destruct Hn as [n Hn].
  destruct (Hcell i dr r j n Hdr Hr Hn) as (s' & x & Hs' & Hx & Hco).
  rewrite Hs in Hs'. injection Hs' as <-.
  destruct (mapM_lookup _ _ _ _ _ Hm Hn) as (x' & Hx' & Hg).
  unfold CustomToCsv.getitem in Hg. rewrite Hx in Hg. injection Hg as <-.
  by exists x.
Qed.

(** The example source comes back with its empty score written 0.0. *)
Lemma csv_to_cfile_to_csv_witness :
  exists rows : list (list value),
    @CustomToCsv.main Ref.lib Ref.repr Example.file None
    = Ok (@CustomToCsv.write_csv Ref.repr ["id"; "score"; "name"]%string rows) /\
    length rows = 2%nat.
Proof.
  destruct (csv_to_cfile_to_csv Ref.lib Ref.repr ["id"; "score"; "name"]%string
              ["1"; "2.5"; "a"]%string [["2"; EmptyString; "bb"]%string] Example.file)
    as (rows & Hmain & Hlen & _).
  - exact RefFacts.decompress_compress.
  - exact RefFacts.loads_dumps.
  - exact RefFacts.float_of_str_range.
  - repeat constructor; rewrite ?elem_of_cons, ?elem_of_nil; intros Hin;
      repeat (destruct Hin as [Hin|Hin]; [discriminate|]); done.
  - by repeat constructor.
  - by repeat constructor.
  - vm_compute. reflexivity.
  - vm_compute. reflexivity.
  - exists rows. exact (conj Hmain Hlen).
Defined.

(** * Reading one column touches one block *)

Section Local.
Context `{PyLib}.
Import Reader.

Lemma read_column_uncompressed_span (self self' : CFileReader) (col : ColumnMeta) :
  0 <= block_offset col -> 0 <= compressed_size col ->
  take (Z.to_nat (compressed_size col)) (drop (Z.to_nat (block_offset col)) (path self))
  = take (Z.to_nat (compressed_size col)) (drop (Z.to_nat (block_offset col)) (path self')) ->
  _read_column_uncompressed self col = _read_column_uncompressed self' col.
Proof.
  intros Ho Hc Hspan. unfold _read_column_uncompressed, fh_open_seek, fh_read.
  destruct (2 ^ 63 <=? block_offset col); [done|]. cbn [bind].
  destruct (2 ^ 63 <=? compressed_size col); [done|]. cbn [bind fst].
  by rewrite Hspan.
Qed.

Lemma find_first (n : string) (cols : list ColumnMeta) (meta : ColumnMeta) :
  find (fun c => String.eqb (name c) n) cols = Some meta ->
  exists j : nat,
    cols !! j = Some meta /\ name meta = n /\
    forall (k : nat) (c : ColumnMeta), (k < j)%nat -> cols !! k = Some c -> name c <> n.
Proof.
  induction cols as [|c0 cols IH]; [done|]. cbn [find].
  destruct (String.eqb_spec (name c0) n) as [E|E].
  - intros [= <-]. exists 0%nat. split; [done|]. split; [done|]. intros k c Hk. lia.
  - intros Hf. destruct (IH Hf) as (j & Hj & Hn & Hfirst). exists (S j).
    split; [done|]. split; [done|]. intros [|k] c Hk Hc.
    + cbn in Hc. by injection Hc as <-.
    + cbn in Hc. eapply Hfirst; [|done]. lia.
Qed.

End Local.

(** X23: [read_column] is a selective read.  It uses the first directory
    entry of the name and returns as many values as that entry announces;
    and its result, value or error, depends on the file only through the
    bytes from the entry's offset over the entry's compressed size: two
    readers with the same directory whose files agree on that span read the
    column alike, whatever the rest of the files holds. *)
Theorem read_column_is_local (L : PyLib) (self self' : Reader.CFileReader) (n : string)
        (meta : Reader.ColumnMeta) :
  find (fun c => String.eqb (Reader.name c) n) (Reader.columns self) = Some meta ->
  0 <= Reader.block_offset meta -> 0 <= Reader.compressed_size meta ->
  (exists j : nat,
     Reader.columns self !! j = Some meta /\ Reader.name meta = n /\
     (forall (k : nat) (c : Reader.ColumnMeta),
        (k < j)%nat -> Reader.columns self !! k = Some c -> Reader.name c <> n) /\
     forall vals, Reader.read_column self n = Ok vals ->
                  length vals = Z.to_nat (Reader.num_values meta)) /\
  (Reader.columns self' = Reader.columns self ->
   take (Z.to_nat (Reader.compressed_size meta))
        (drop (Z.to_nat (Reader.block_offset meta)) (Reader.path self'))
   = take (Z.to_nat (Reader.compressed_size meta))
          (drop (Z.to_nat (Reader.block_offset meta)) (Reader.path self)) ->
   Reader.read_column self' n = Reader.read_column self n).
Proof.
  intros Hfind Ho Hc. split.
  - destruct (find_first n _ _ Hfind) as (j & Hj & Hn & Hfirst).
    exists j. split; [done|]. split; [done|]. split; [done|].
    intros vals Hr. destruct (read_column_find _ _ _ Hr) as (meta' & Hf' & _ & _ & Hlen).
    rewrite Hfind in Hf'. by injection Hf' as <-.
  - intros Hcols Hspan. unfold Reader.read_column. rewrite Hcols, Hfind.
    by rewrite (read_column_uncompressed_span self' self meta Ho Hc Hspan).
Qed.

(** The example file with a byte of its second block overwritten: the first
    column is read as before, the second is not. *)
Lemma read_column_is_local_witness :
  @Reader.CFileReader_init Ref.lib Example.damaged_file = Ok ExampleReader.damaged_reader /\
  @Reader.read_column Ref.lib ExampleReader.damaged_reader "id"
  = @Reader.read_column Ref.lib ExampleReader.reader "id" /\
  @Reader.read_column Ref.lib ExampleReader.reader "id" = Ok [VInt 1; VInt 2] /\
  is_ok (@Reader.read_column Ref.lib ExampleReader.damaged_reader "score") = false /\
  is_ok (@Reader.read_all Ref.lib ExampleReader.damaged_reader) = false.
Proof.
  destruct (read_column_is_local Ref.lib ExampleReader.reader ExampleReader.damaged_reader
              "id" ExampleReader.id_column eq_refl ltac:(done) ltac:(done)) as [_ Hlocal].
  split; [vm_compute; reflexivity|]. split; [apply Hlocal; reflexivity|].
  repeat split; vm_compute; reflexivity.
Defined.

